(** * A shallow embedding of the week-1 to-do application (main.py)

    The program keeps its tasks as Python dicts that are shared between an
    insertion-ordered list ([tasks_list]) and an id-indexed dict
    ([tasks_dict]), and rewrites a JSON file after every mutation.  The
    embedding keeps that shape: task objects live in a heap of mutable
    dicts, both views hold references into it, and every method is a
    computation in a small state-and-exception monad over the attributes
    of the instance, the file, and the console. *)

From Stdlib Require Import ZArith String Ascii List Floats Uint63 Lia.
From Stdlib Require Import Sorting.Sorted Sorting.Permutation.
From Stdlib Require DecimalN DecimalPos.
From stdpp Require Import base gmap strings list fin_maps.

Local Open Scope string_scope.
Local Open Scope list_scope.
Local Open Scope Z_scope.

(** ** Python values

    The values that [json.load] can produce, floats apart: a JSON number
    with a fraction or an exponent is outside the model.  A Python dict
    keeps its insertion order and is modelled as an association list. *)

#[warnings="-register-all"]
Inductive value : Type :=
| VNone
| VBool (b : bool)
| VInt (z : Z)
| VStr (s : string)
| VList (l : list value)
| VDict (d : list (string * value)).

Abbreviation dict := (list (string * value)).

(** The exception classes the program can meet.  [open] and [json.load]
    can raise more than the two classes [load_tasks] names: a file that
    is not UTF-8 gives [UnicodeDecodeError], a document nested too deep
    [RecursionError]. *)
Inductive exn : Type :=
| JSONDecodeError
| IOError
| KeyError
| TypeError
| ValueError
| EOFError
| UnicodeDecodeError
| RecursionError.

(** The outcome of a call: a value, an exception on its way up, or
    [Unmodelled] for the executions this embedding does not represent (a
    reference that points nowhere, which Python cannot build, and a task
    list that is not a list).  No [except] clause catches [Unmodelled]. *)
Inductive result (A : Type) : Type :=
| Ok (a : A)
| Raise (e : exn)
| Unmodelled.
Arguments Ok {A} a.
Arguments Raise {A} e.
Arguments Unmodelled {A}.

Definition exn_eqb (a b : exn) : bool :=
  match a, b with
  | JSONDecodeError, JSONDecodeError | IOError, IOError | KeyError, KeyError
  | TypeError, TypeError | ValueError, ValueError | EOFError, EOFError
  | UnicodeDecodeError, UnicodeDecodeError
  | RecursionError, RecursionError => true
  | _, _ => false
  end.

(** [isinstance(e, c)], which is what an [except c] clause tests:
    [JSONDecodeError] and [UnicodeDecodeError] are subclasses of
    [ValueError]. *)
Definition exn_isinstance (e c : exn) : bool :=
  exn_eqb e c
  || match e, c with
     | JSONDecodeError, ValueError | UnicodeDecodeError, ValueError => true
     | _, _ => false
     end.

(** Keys of [tasks_dict].  Python hashes [True] and [1] to the same key, so
    a bool is stored under its integer value; lists and dicts are
    unhashable. *)
Inductive hkey : Type :=
| KNone
| KInt (z : Z)
| KStr (s : string).

#[global] Instance hkey_eq_dec : EqDecision hkey.
Proof. solve_decision. Defined.

Definition hkey_enc (k : hkey) : unit + (Z + string) :=
  match k with
  | KNone => inl tt
  | KInt z => inr (inl z)
  | KStr s => inr (inr s)
  end.

Definition hkey_dec (x : unit + (Z + string)) : hkey :=
  match x with
  | inl _ => KNone
  | inr (inl z) => KInt z
  | inr (inr s) => KStr s
  end.

#[global] Instance hkey_countable : Countable hkey.
Proof. apply (inj_countable' hkey_enc hkey_dec). by intros []. Defined.

Definition hash_key (v : value) : result hkey :=
  match v with
  | VNone => Ok KNone
  | VBool b => Ok (KInt (Z.b2z b))
  | VInt z => Ok (KInt z)
  | VStr s => Ok (KStr s)
  | VList _ | VDict _ => Raise TypeError
  end.

(** [d[k]] on a dict: [KeyError] when the key is missing. *)
Fixpoint dict_get (d : dict) (k : string) : option value :=
  match d with
  | [] => None
  | (k', v) :: d' => if String.eqb k' k then Some v else dict_get d' k
  end.

Definition getitem (d : dict) (k : string) : result value :=
  match dict_get d k with
  | Some v => Ok v
  | None => Raise KeyError
  end.

(** [d[k] = v]: the entry is replaced in place, or appended. *)
Fixpoint dict_set (d : dict) (k : string) (v : value) : dict :=
  match d with
  | [] => [(k, v)]
  | (k', v') :: d' =>
      if String.eqb k' k then (k', v) :: d' else (k', v') :: dict_set d' k v
  end.

(** Truth value of an object, as [if x:] tests it. *)
Definition truthy (v : value) : bool :=
  match v with
  | VNone => false
  | VBool b => b
  | VInt z => negb (z =? 0)
  | VStr s => negb (String.eqb s "")
  | VList l => match l with [] => false | _ => true end
  | VDict d => match d with [] => false | _ => true end
  end.

(** [v == s] for a string [s], and [v == n] for an integer [n]. *)
Definition eq_str (v : value) (s : string) : bool :=
  match v with
  | VStr s' => String.eqb s' s
  | _ => false
  end.

Definition eq_int (v : value) (n : Z) : bool :=
  match v with
  | VInt z => z =? n
  | VBool b => Z.b2z b =? n
  | _ => false
  end.

(** The integer a value stands for in arithmetic and comparisons. *)
Definition as_int (v : value) : option Z :=
  match v with
  | VInt z => Some z
  | VBool b => Some (Z.b2z b)
  | _ => None
  end.

(** ** Console lines

    Each [print] of the program is one constructor; the text and its
    layout are not modelled, the values that are interpolated are. *)

Record row : Type := Row {
  row_done : bool;
  row_id : Z;
  row_title : string;
  row_priority : string;
  row_created : value
}.

Inductive number : Type :=
| NInt (z : Z)
| NFloat (f : float).

Record stats : Type := Stats {
  total : Z;
  completed : Z;
  pending : Z;
  completion_rate : number
}.

Inductive line : Type :=
| LoadedMsg (n : nat)
| LoadFailedMsg (e : exn)
| SavedMsg
| SaveFailedMsg (e : exn)
| AddedMsg (title : string)
| NoTasksMsg
| ListHeader
| RowMsg (r : row)
| ListFooter
| CompletedMsg (title : value)
| NotFoundMsg (task_id : Z)
| DeletedMsg (title : value)
| WelcomeMsg
| MenuMsg
| EmptyTitleMsg
| BadPriorityMsg
| BadIdMsg
| StatsMsg (st : stats)
| SortedHeader
| SortedRowMsg (done : bool) (title : string) (priority : string)
| ByeMsg
| BadChoiceMsg.

(** ** The state

    [tasks_list], [tasks_dict] and [next_id] are the attributes of the one
    [TodoApp] instance; [heap] holds the task dicts they refer to; [file]
    is the content of [self.filename] ([None]: no such file), [readable]
    and [writable] say whether opening it for reading or writing succeeds;
    [stdout] is what was printed so far, [stdin] the lines still to be
    read, and [clock] the successive readings of [datetime.now()], already
    formatted, of which [ticks] were taken. *)

Definition loc := positive.

Record state : Type := State {
  tasks_list : list loc;
  tasks_dict : gmap hkey loc;
  next_id : Z;
  heap : gmap loc dict;
  file : option string;
  readable : bool;
  writable : bool;
  stdout : list line;
  stdin : list string;
  clock : nat → string;
  ticks : nat
}.

Definition set_tasks_list (x : list loc) (s : state) : state :=
  State x (tasks_dict s) (next_id s) (heap s) (file s) (readable s)
        (writable s) (stdout s) (stdin s) (clock s) (ticks s).
Definition set_tasks_dict (x : gmap hkey loc) (s : state) : state :=
  State (tasks_list s) x (next_id s) (heap s) (file s) (readable s)
        (writable s) (stdout s) (stdin s) (clock s) (ticks s).
Definition set_next_id (x : Z) (s : state) : state :=
  State (tasks_list s) (tasks_dict s) x (heap s) (file s) (readable s)
        (writable s) (stdout s) (stdin s) (clock s) (ticks s).
Definition set_heap (x : gmap loc dict) (s : state) : state :=
  State (tasks_list s) (tasks_dict s) (next_id s) x (file s) (readable s)
        (writable s) (stdout s) (stdin s) (clock s) (ticks s).
Definition set_file (x : option string) (s : state) : state :=
  State (tasks_list s) (tasks_dict s) (next_id s) (heap s) x (readable s)
        (writable s) (stdout s) (stdin s) (clock s) (ticks s).
Definition set_stdout (x : list line) (s : state) : state :=
  State (tasks_list s) (tasks_dict s) (next_id s) (heap s) (file s)
        (readable s) (writable s) x (stdin s) (clock s) (ticks s).
Definition set_stdin (x : list string) (s : state) : state :=
  State (tasks_list s) (tasks_dict s) (next_id s) (heap s) (file s)
        (readable s) (writable s) (stdout s) x (clock s) (ticks s).
Definition set_ticks (x : nat) (s : state) : state :=
  State (tasks_list s) (tasks_dict s) (next_id s) (heap s) (file s)
        (readable s) (writable s) (stdout s) (stdin s) (clock s) x.

(** ** The monad *)

Definition M (A : Type) : Type := state → result A * state.

Definition ret {A} (a : A) : M A := λ s, (Ok a, s).

Definition bind {A B} (m : M A) (f : A → M B) : M B := λ s,
  match m s with
  | (Ok a, s') => f a s'
  | (Raise e, s') => (Raise e, s')
  | (Unmodelled, s') => (Unmodelled, s')
  end.

Declare Scope M_scope.
Delimit Scope M_scope with M.
Bind Scope M_scope with M.
Notation "x ← y ; z" := (bind y (λ x, z))
  (at level 20, y at level 100, z at level 200, only parsing) : M_scope.
Notation "x ;; z" := (bind x (λ _, z))
  (at level 100, z at level 200, only parsing, right associativity) : M_scope.
Local Open Scope M_scope.

Definition raise {A} (e : exn) : M A := λ s, (Raise e, s).
Definition unmodelled {A} : M A := λ s, (Unmodelled, s).
Definition lift {A} (r : result A) : M A := λ s, (r, s).
Definition gets {A} (f : state → A) : M A := λ s, (Ok (f s), s).
Definition modify (f : state → state) : M unit := λ s, (Ok tt, f s).

(** [try: body except (classes) as e: handler e]. *)
Definition try_except {A} (body : M A) (classes : list exn)
    (handler : exn → M A) : M A := λ s,
  match body s with
  | (Raise e, s') =>
      if existsb (exn_isinstance e) classes then handler e s' else (Raise e, s')
  | r => r
  end.

Definition print (l : line) : M unit :=
  modify (λ s, set_stdout (stdout s ++ [l]) s).

(** A new object: a location the heap does not use yet. *)
Definition alloc (d : dict) : M loc := λ s,
  let l := fresh (dom (heap s)) in
  (Ok l, set_heap (<[l := d]> (heap s)) s).

Definition deref (l : loc) : M dict := λ s,
  match heap s !! l with
  | Some d => (Ok d, s)
  | None => (Unmodelled, s)
  end.

(** [task[k]] and [task[k] = v] on a task object. *)
Definition obj_get (l : loc) (k : string) : M value :=
  d ← deref l; lift (getitem d k).

Definition obj_set (l : loc) (k : string) (v : value) : M unit :=
  d ← deref l; modify (λ s, set_heap (<[l := dict_set d k v]> (heap s)) s).

(** [for x in xs: body x], [[f x for x in xs]] and
    [[x for x in xs if p x]]. *)
Fixpoint for_each {A} (body : A → M unit) (xs : list A) : M unit :=
  match xs with
  | [] => ret tt
  | x :: xs' => body x ;; for_each body xs'
  end.

Fixpoint map_m {A B} (f : A → M B) (xs : list A) : M (list B) :=
  match xs with
  | [] => ret []
  | x :: xs' => y ← f x; ys ← map_m f xs'; ret (y :: ys)
  end.

Fixpoint filter_m {A} (p : A → M bool) (xs : list A) : M (list A) :=
  match xs with
  | [] => ret []
  | x :: xs' =>
      b ← p x; ys ← filter_m p xs'; ret (if b then x :: ys else ys)
  end.

(** ** Pure helpers: dict literals, formatting, [max], [sorted] *)

(** [table[v]] for a dict literal with string keys: an unhashable [v] is a
    [TypeError], any other value that is not a key a [KeyError]. *)
Fixpoint assoc {A} (table : list (string * A)) (k : string) : option A :=
  match table with
  | [] => None
  | (k', a) :: table' => if String.eqb k' k then Some a else assoc table' k
  end.

Definition dict_index {A} (table : list (string * A)) (v : value) : result A :=
  match hash_key v with
  | Ok (KStr s) =>
      match assoc table s with
      | Some a => Ok a
      | None => Raise KeyError
      end
  | Ok _ => Raise KeyError
  | Raise e => Raise e
  | Unmodelled => Unmodelled
  end.

Definition priority_order : list (string * Z) :=
  [("高", 1); ("中", 2); ("低", 3)].

Definition priority_emoji : list (string * string) :=
  [("高", "🔴"); ("中", "🟡"); ("低", "🟢")].

(** [format(v, "2d")] and [format(v, "20s")], as the f-strings of the
    listing apply them: the integer or the string that is laid out, or the
    exception the format code raises on another type. *)
Definition format_d (v : value) : result Z :=
  match v with
  | VInt z => Ok z
  | VBool b => Ok (Z.b2z b)
  | VStr _ => Raise ValueError
  | VNone | VList _ | VDict _ => Raise TypeError
  end.

Definition format_s (v : value) : result string :=
  match v with
  | VStr s => Ok s
  | VInt _ | VBool _ => Raise ValueError
  | VNone | VList _ | VDict _ => Raise TypeError
  end.

(** [max(ids) + 1].  On integers (a bool counts as 0 or 1) it is the
    largest plus one.  Any other hashable id ends in a [TypeError]: either
    [max] compares it with a value of another type, or [None] with [None],
    or the sum of a string or [None] and [1] is refused.  [max] of nothing
    is a [ValueError]. *)
Fixpoint all_ints (vs : list value) : option (list Z) :=
  match vs with
  | [] => Some []
  | v :: vs' =>
      match as_int v, all_ints vs' with
      | Some z, Some zs => Some (z :: zs)
      | _, _ => None
      end
  end.

Definition max_plus_one (ids : list value) : result Z :=
  match ids with
  | [] => Raise ValueError
  | _ =>
      match all_ints ids with
      | Some (z :: zs) => Ok (foldr Z.max z zs + 1)
      | _ => Raise TypeError
      end
  end.

(** [sorted(xs, key=...)] once the keys are computed: a stable sort of the
    decorated list.  Insertion from the right puts an element before the
    first one whose key is not smaller, so equal keys keep their order. *)
Fixpoint insert_keyed {A} (k : Z) (x : A) (l : list (Z * A)) : list (Z * A) :=
  match l with
  | [] => [(k, x)]
  | (k', y) :: l' =>
      if k <=? k' then (k, x) :: (k', y) :: l'
      else (k', y) :: insert_keyed k x l'
  end.

Fixpoint sort_keyed {A} (l : list (Z * A)) : list (Z * A) :=
  match l with
  | [] => []
  | (k, x) :: l' => insert_keyed k x (sort_keyed l')
  end.

Definition sorted {A} (key : A → M Z) (xs : list A) : M (list A) :=
  ks ← map_m key xs;
  ret (map snd (sort_keyed (combine ks xs))).

(** [a / b * 100] on integers: Python's true division gives a float.
    The conversion is exact below 2^53, far above any number of tasks. *)
Definition float_of_Z (z : Z) : float := PrimFloat.of_uint63 (Uint63.of_Z z).

Definition percent (a b : Z) : float :=
  PrimFloat.mul (PrimFloat.div (float_of_Z a) (float_of_Z b)) (float_of_Z 100).

(** ** Reference library functions

    The methods below take [json.load], [json.dump], [str.strip] and [int]
    as parameters.  These are executable stand-ins for them, used to run the
    model on concrete inputs and to show that the file format loses
    nothing: a JSON printer and a parser for the values above, a UTF-8
    decoder, ASCII [strip], and decimal [int]. *)

Module Lib.

Definition dquote : ascii := ascii_of_nat 34.
Definition backslash : ascii := ascii_of_nat 92.

(** *** [json.dump]

    The text is written in front of what follows it, as
    [json.dump(..., ensure_ascii=False, indent=2)] lays it out: each item
    of a list or dict that is not empty stands on a line of its own, two
    spaces deeper than the line of the opening bracket, the items are
    separated by [","] and a key from its value by [": "], and the closing
    bracket is on a line of its own.  Strings are escaped as
    [ensure_ascii=False] escapes them: the quote, the backslash and the
    control characters. *)

Definition newline : ascii := ascii_of_nat 10.

Fixpoint spaces (n : nat) (rest : string) : string :=
  match n with
  | O => rest
  | S n' => String " " (spaces n' rest)
  end.

Definition newline_to (level : nat) (rest : string) : string :=
  String newline (spaces (2 * level) rest).

Definition hex_digit (n : N) : ascii :=
  if (n <? 10)%N then ascii_of_N (48 + n) else ascii_of_N (87 + n).

Definition escape_char (c : ascii) (rest : string) : string :=
  let n := N_of_ascii c in
  if Ascii.eqb c dquote then String backslash (String dquote rest)
  else if Ascii.eqb c backslash then String backslash (String backslash rest)
  else if (n =? 8)%N then String backslash (String "b" rest)
  else if (n =? 9)%N then String backslash (String "t" rest)
  else if (n =? 10)%N then String backslash (String "n" rest)
  else if (n =? 12)%N then String backslash (String "f" rest)
  else if (n =? 13)%N then String backslash (String "r" rest)
  else if (n <? 32)%N then
    String backslash (String "u" (String "0" (String "0"
      (String (hex_digit (n / 16)) (String (hex_digit (n mod 16)) rest)))))
  else String c rest.

Fixpoint escape_to (s rest : string) : string :=
  match s with
  | EmptyString => rest
  | String c r => escape_char c (escape_to r rest)
  end.

Definition quote_to (s rest : string) : string :=
  String dquote (escape_to s (String dquote rest)).

Fixpoint uint_to (d : Decimal.uint) (rest : string) : string :=
  match d with
  | Decimal.Nil => rest
  | Decimal.D0 d' => String "0" (uint_to d' rest)
  | Decimal.D1 d' => String "1" (uint_to d' rest)
  | Decimal.D2 d' => String "2" (uint_to d' rest)
  | Decimal.D3 d' => String "3" (uint_to d' rest)
  | Decimal.D4 d' => String "4" (uint_to d' rest)
  | Decimal.D5 d' => String "5" (uint_to d' rest)
  | Decimal.D6 d' => String "6" (uint_to d' rest)
  | Decimal.D7 d' => String "7" (uint_to d' rest)
  | Decimal.D8 d' => String "8" (uint_to d' rest)
  | Decimal.D9 d' => String "9" (uint_to d' rest)
  end.

Definition decimal_to (z : Z) (rest : string) : string :=
  if z <? 0 then String "-" (uint_to (N.to_uint (Z.abs_N z)) rest)
  else uint_to (N.to_uint (Z.abs_N z)) rest.

(** The items of a list or dict that is not empty, at [level] levels of
    indentation, up to the closing bracket. *)
Definition elems_to (f : nat → value → string → string) (level : nat)
    : list value → string → string :=
  fix go (l : list value) (rest : string) : string :=
    match l with
    | [] => newline_to level (String "]" rest)
    | x :: l' =>
        newline_to (S level)
          (f (S level) x
             match l' with
             | [] => go l' rest
             | _ => String "," (go l' rest)
             end)
    end.

Definition members_to (f : nat → value → string → string) (level : nat)
    : list (string * value) → string → string :=
  fix go (d : list (string * value)) (rest : string) : string :=
    match d with
    | [] => newline_to level (String "}" rest)
    | (k, x) :: d' =>
        newline_to (S level)
          (quote_to k
             (String ":" (String " "
                (f (S level) x
                   match d' with
                   | [] => go d' rest
                   | _ => String "," (go d' rest)
                   end))))
    end.

Fixpoint dumps_to (level : nat) (v : value) (rest : string) {struct v}
    : string :=
  match v with
  | VNone => String "n" (String "u" (String "l" (String "l" rest)))
  | VBool true => String "t" (String "r" (String "u" (String "e" rest)))
  | VBool false =>
      String "f" (String "a" (String "l" (String "s" (String "e" rest))))
  | VInt z => decimal_to z rest
  | VStr s => quote_to s rest
  | VList l =>
      String "["
        match l with
        | [] => String "]" rest
        | _ => elems_to dumps_to level l rest
        end
  | VDict d =>
      String "{"
        match d with
        | [] => String "}" rest
        | _ => members_to dumps_to level d rest
        end
  end.

Definition dumps (v : value) : string := dumps_to 0 v "".

(** *** [str.strip] and [int] *)

Definition is_space (c : ascii) : bool :=
  (Ascii.eqb c " " || Ascii.eqb c (ascii_of_nat 9)
   || Ascii.eqb c (ascii_of_nat 10) || Ascii.eqb c (ascii_of_nat 13))%bool.

Fixpoint lstrip (s : string) : string :=
  match s with
  | String c r => if is_space c then lstrip r else s
  | EmptyString => EmptyString
  end.

Fixpoint rstrip (s : string) : string :=
  match s with
  | String c r =>
      match rstrip r with
      | EmptyString => if is_space c then EmptyString else String c EmptyString
      | r' => String c r'
      end
  | EmptyString => EmptyString
  end.

Definition strip (s : string) : string := rstrip (lstrip s).

Definition digit (c : ascii) : option (Decimal.uint → Decimal.uint) :=
  match c with
  | "0"%char => Some Decimal.D0
  | "1"%char => Some Decimal.D1
  | "2"%char => Some Decimal.D2
  | "3"%char => Some Decimal.D3
  | "4"%char => Some Decimal.D4
  | "5"%char => Some Decimal.D5
  | "6"%char => Some Decimal.D6
  | "7"%char => Some Decimal.D7
  | "8"%char => Some Decimal.D8
  | "9"%char => Some Decimal.D9
  | _ => None
  end.

Definition is_digit (c : ascii) : bool :=
  match digit c with Some _ => true | None => false end.

(** The longest run of digits at the head of a string. *)
Fixpoint read_uint (s : string) : Decimal.uint * string :=
  match s with
  | String c r =>
      match digit c with
      | Some k => let '(d, rest) := read_uint r in (k d, rest)
      | None => (Decimal.Nil, s)
      end
  | EmptyString => (Decimal.Nil, s)
  end.

Definition parse_int (s : string) : option Z :=
  let body := strip s in
  let '(neg, digits) :=
    match body with
    | String "-" r => (true, r)
    | String "+" r => (false, r)
    | _ => (false, body)
    end in
  match read_uint digits with
  | (Decimal.Nil, _) => None
  | (d, EmptyString) =>
      Some (if neg : bool then - Z.of_N (N.of_uint d) else Z.of_N (N.of_uint d))
  | _ => None
  end.

(** *** [json.load]

    A number with a fraction or an exponent, [NaN] and [Infinity] are
    floats, and an escape for a surrogate gives a string that is not text:
    they decode, to values outside the model, so the result is
    [Unmodelled].  So is that of an integer of more than [max_digits]
    digits, which [int] refuses with a [ValueError] in the versions of
    Python that limit the conversion, and of brackets nested more than
    [max_depth] deep, where the interpreter raises [RecursionError] at a
    depth that depends on its stack.  Everything else that is not JSON
    raises [JSONDecodeError]. *)

Definition max_digits : N := 4300.
Definition max_depth : nat := 100.

Definition short (d : Decimal.uint) : bool :=
  (N.of_nat (Decimal.nb_digits d) <=? max_digits)%N.

Definition rbind {A B} (r : result A) (f : A → result B) : result B :=
  match r with
  | Ok a => f a
  | Raise e => Raise e
  | Unmodelled => Unmodelled
  end.

Definition hex_value (c : ascii) : option N :=
  let n := N_of_ascii c in
  if ((48 <=? n) && (n <=? 57))%N then Some (n - 48)%N
  else if ((97 <=? n) && (n <=? 102))%N then Some (n - 87)%N
  else if ((65 <=? n) && (n <=? 70))%N then Some (n - 55)%N
  else None.

Definition hex4 (a b c d : ascii) : option N :=
  match hex_value a, hex_value b, hex_value c, hex_value d with
  | Some x, Some y, Some z, Some w => Some (((x * 16 + y) * 16 + z) * 16 + w)%N
  | _, _, _, _ => None
  end.

(** UTF-8 of a code point of the basic plane that is not a surrogate. *)
Definition utf8_encode (cp : N) : option string :=
  if (cp <? 128)%N then Some (String (ascii_of_N cp) "")
  else if (cp <? 2048)%N then
    Some (String (ascii_of_N (192 + cp / 64))
            (String (ascii_of_N (128 + cp mod 64)) ""))
  else if ((55296 <=? cp) && (cp <=? 57343))%N then None
  else
    Some (String (ascii_of_N (224 + cp / 4096))
            (String (ascii_of_N (128 + (cp / 64) mod 64))
               (String (ascii_of_N (128 + cp mod 64)) ""))).

Definition simple_escape (c : ascii) : option ascii :=
  if Ascii.eqb c dquote then Some dquote else
  match c with
  | "\"%char => Some backslash
  | "/"%char => Some "/"%char
  | "b"%char => Some (ascii_of_nat 8)
  | "f"%char => Some (ascii_of_nat 12)
  | "n"%char => Some (ascii_of_nat 10)
  | "r"%char => Some (ascii_of_nat 13)
  | "t"%char => Some (ascii_of_nat 9)
  | _ => None
  end.

Definition prepend (bytes : string) (r : result (string * string))
    : result (string * string) :=
  match r with
  | Ok (body, rest) => Ok (bytes +:+ body, rest)
  | Raise e => Raise e
  | Unmodelled => Unmodelled
  end.

(** The body of a string literal, after its opening quote. *)
Fixpoint read_string (s : string) : result (string * string) :=
  match s with
  | EmptyString => Raise JSONDecodeError
  | String c r =>
      if Ascii.eqb c dquote then Ok (EmptyString, r)
      else if Ascii.eqb c backslash then
        match r with
        | String "u" (String h1 (String h2 (String h3 (String h4 r')))) =>
            match hex4 h1 h2 h3 h4 with
            | Some cp =>
                match utf8_encode cp with
                | Some bytes => prepend bytes (read_string r')
                | None => Unmodelled
                end
            | None => Raise JSONDecodeError
            end
        | String e r' =>
            match simple_escape e with
            | Some c' => prepend (String c' "") (read_string r')
            | None => Raise JSONDecodeError
            end
        | EmptyString => Raise JSONDecodeError
        end
      else if (N_of_ascii c <? 32)%N then Raise JSONDecodeError
      else prepend (String c "") (read_string r)
  end.

Definition starts_fraction (s : string) : bool :=
  match s with
  | String "." (String c _) => is_digit c
  | String "e" (String c r) | String "E" (String c r) =>
      (is_digit c
       || (Ascii.eqb c "+" || Ascii.eqb c "-")
          && match r with String c' _ => is_digit c' | EmptyString => false end)%bool
  | _ => false
  end.

Definition read_number (s : string) : result (Z * string) :=
  let '(neg, body) :=
    match s with
    | String "-" r => (true, r)
    | _ => (false, s)
    end in
  let '(d, rest) := read_uint body in
  match d with
  | Decimal.Nil =>
      if String.prefix "Infinity" body then Unmodelled
      else Raise JSONDecodeError
  | _ =>
      if Decimal.uint_beq d (Decimal.unorm d) then
        if starts_fraction rest then Unmodelled
        else if short d then
          Ok (if neg : bool then - Z.of_N (N.of_uint d)
              else Z.of_N (N.of_uint d), rest)
        else Unmodelled
      else Raise JSONDecodeError
  end.

Definition head_is (c : ascii) (s : string) : bool :=
  match s with
  | String c' _ => Ascii.eqb c' c
  | EmptyString => false
  end.

Definition tail (s : string) : string :=
  match s with
  | String _ r => r
  | EmptyString => EmptyString
  end.

(** A later pair with a key that is already there replaces its value, as
    a Python dict does. *)
Definition normalize (d : dict) : dict :=
  fold_left (λ acc kv, dict_set acc kv.1 kv.2) d [].

Fixpoint read_value (fuel depth : nat) (s : string) {struct fuel}
    : result (value * string) :=
  match fuel with
  | O => Unmodelled
  | S fuel' =>
      match lstrip s with
      | String "n" (String "u" (String "l" (String "l" r))) => Ok (VNone, r)
      | String "t" (String "r" (String "u" (String "e" r))) =>
          Ok (VBool true, r)
      | String "f" (String "a" (String "l" (String "s" (String "e" r)))) =>
          Ok (VBool false, r)
      | String "N" (String "a" (String "N" r)) => Unmodelled
      | String "[" r =>
          match depth with
          | O => Unmodelled
          | S depth' =>
              if head_is "]" (lstrip r) then Ok (VList [], tail (lstrip r))
              else
                rbind (read_elements fuel' depth' r)
                      (λ '(l, r'), Ok (VList l, r'))
          end
      | String "{" r =>
          match depth with
          | O => Unmodelled
          | S depth' =>
              if head_is "}" (lstrip r) then Ok (VDict [], tail (lstrip r))
              else
                rbind (read_members fuel' depth' r)
                      (λ '(d, r'), Ok (VDict (normalize d), r'))
          end
      | String c r =>
          if Ascii.eqb c dquote then
            rbind (read_string r) (λ '(body, r'), Ok (VStr body, r'))
          else
            rbind (read_number (String c r)) (λ '(z, r'), Ok (VInt z, r'))
      | EmptyString => Raise JSONDecodeError
      end
  end
with read_elements (fuel depth : nat) (s : string) {struct fuel}
    : result (list value * string) :=
  match fuel with
  | O => Unmodelled
  | S fuel' =>
      rbind (read_value fuel' depth s) (λ '(v, r),
        match lstrip r with
        | String "," r' =>
            rbind (read_elements fuel' depth r')
                  (λ '(l, r''), Ok (v :: l, r''))
        | String "]" r' => Ok ([v], r')
        | _ => Raise JSONDecodeError
        end)
  end
with read_members (fuel depth : nat) (s : string) {struct fuel}
    : result (dict * string) :=
  match fuel with
  | O => Unmodelled
  | S fuel' =>
      match lstrip s with
      | String c r =>
          if Ascii.eqb c dquote then
            rbind (read_string r) (λ '(k, r1),
              match lstrip r1 with
              | String ":" r2 =>
                  rbind (read_value fuel' depth r2) (λ '(v, r3),
                    match lstrip r3 with
                    | String "," r4 =>
                        rbind (read_members fuel' depth r4)
                              (λ '(d, r5), Ok ((k, v) :: d, r5))
                    | String "}" r4 => Ok ([(k, v)], r4)
                    | _ => Raise JSONDecodeError
                    end)
              | _ => Raise JSONDecodeError
              end)
          else Raise JSONDecodeError
      | EmptyString => Raise JSONDecodeError
      end
  end.

(** [json.loads] on a text. *)
Definition loads (s : string) : result value :=
  rbind (read_value (2 * String.length s + 2) max_depth s) (λ '(v, rest),
    match lstrip rest with
    | EmptyString => Ok v
    | _ => Raise JSONDecodeError
    end).

(** *** Text

    A string of the model is the UTF-8 encoding of a Python [str]; the
    automaton below accepts the byte strings that are such an encoding. *)

Inductive utf8_state : Type := U0 | U1 | U2 | U2a | U2b | U3 | U3a | U3b.

Definition utf8_step (st : utf8_state) (c : ascii) : option utf8_state :=
  let n := N_of_ascii c in
  let between lo hi := ((lo <=? n) && (n <=? hi))%N in
  match st with
  | U0 =>
      if (n <? 128)%N then Some U0
      else if between 194%N 223%N then Some U1
      else if (n =? 224)%N then Some U2a
      else if (n =? 237)%N then Some U2b
      else if between 225%N 239%N then Some U2
      else if (n =? 240)%N then Some U3a
      else if between 241%N 243%N then Some U3
      else if (n =? 244)%N then Some U3b
      else None
  | U1 => if between 128%N 191%N then Some U0 else None
  | U2 => if between 128%N 191%N then Some U1 else None
  | U2a => if between 160%N 191%N then Some U1 else None
  | U2b => if between 128%N 159%N then Some U1 else None
  | U3 => if between 128%N 191%N then Some U2 else None
  | U3a => if between 144%N 191%N then Some U2 else None
  | U3b => if between 128%N 143%N then Some U2 else None
  end.

Fixpoint utf8_run (st : utf8_state) (s : string) : option utf8_state :=
  match s with
  | EmptyString => Some st
  | String c r =>
      match utf8_step st c with
      | Some st' => utf8_run st' r
      | None => None
      end
  end.

Definition utf8 (s : string) : bool :=
  match utf8_run U0 s with
  | Some U0 => true
  | _ => false
  end.

(** [open(..., encoding="utf-8")] and [json.load] on the bytes of a
    file. *)
Definition load (bytes : string) : result value :=
  if utf8 bytes then loads bytes else Raise UnicodeDecodeError.

(** The values a Python program holds and [json.dump] can write: the
    strings are text, the keys of a dict are distinct, the integers have
    at most [max_digits] digits and the nesting is at most [max_depth]
    deep. *)
Fixpoint distinct_keys (d : dict) : bool :=
  match d with
  | [] => true
  | (k, _) :: d' =>
      negb (existsb (String.eqb k) (map fst d')) && distinct_keys d'
  end.

Fixpoint encodable (v : value) : bool :=
  match v with
  | VInt z => short (N.to_uint (Z.abs_N z))
  | VStr s => utf8 s
  | VList l => forallb encodable l
  | VDict d =>
      forallb (λ kv, match kv with (k, x) => utf8 k && encodable x end) d
      && distinct_keys d
  | _ => true
  end.

Fixpoint depth (v : value) : nat :=
  match v with
  | VList l => S (fold_right (λ x n, Nat.max (depth x) n) O l)
  | VDict d =>
      S (fold_right (λ kv n, match kv with (_, x) => Nat.max (depth x) n end)
                    O d)
  | _ => O
  end.

Definition storable (v : value) : bool :=
  encodable v && (depth v <=? max_depth)%nat.

(** The fuel a value takes to parse, the characters a value can start
    with, and those that can follow a number. *)
Fixpoint size (v : value) : nat :=
  match v with
  | VList l => S (fold_right (λ x n, S (size x + n)%nat) O l)
  | VDict d =>
      S (fold_right (λ kv n, match kv with (_, x) => S (size x + n)%nat end) O d)
  | _ => 1%nat
  end.

Definition elems_size (l : list value) : nat :=
  fold_right (λ x n, S (size x + n)%nat) O l.

Definition members_size (d : dict) : nat :=
  fold_right (λ kv n, match kv with (_, x) => S (size x + n)%nat end) O d.

Definition value_start (c : ascii) : bool :=
  (is_digit c || Ascii.eqb c "-" || Ascii.eqb c dquote || Ascii.eqb c "["
   || Ascii.eqb c "{" || Ascii.eqb c "n" || Ascii.eqb c "t"
   || Ascii.eqb c "f")%bool.

Definition starts_value (s : string) : bool :=
  match s with
  | String c _ => value_start c
  | EmptyString => false
  end.

Definition delimited (s : string) : bool :=
  match s with
  | String c _ =>
      (Ascii.eqb c "," || Ascii.eqb c "]" || Ascii.eqb c "}"
       || Ascii.eqb c newline)%bool
  | EmptyString => true
  end.

Definition encodable_member (kv : string * value) : bool :=
  match kv with (k, x) => utf8 k && encodable x end.

Definition elems_depth (l : list value) : nat :=
  fold_right (λ x n, Nat.max (depth x) n) O l.

Definition members_depth (d : dict) : nat :=
  fold_right (λ kv n, match kv with (_, x) => Nat.max (depth x) n end) O d.

End Lib.

(** ** The methods of [TodoApp] *)

Section TodoApp.

(** Library functions.  [json_loads] is [open(self.filename, "r",
    encoding="utf-8")] followed by [json.load(f)] on the bytes of the
    file: the document, or the exception of the library that ends the
    call ([JSONDecodeError] for text that is not JSON, [UnicodeDecodeError]
    for bytes that are not UTF-8, [RecursionError], an [IOError] while
    reading), or [Unmodelled] for a document outside the values above (one
    that holds a float).  [json_dumps] is [json.dump] with the options of
    [save_tasks], on values it can encode; [strip] is [str.strip], and
    [parse_int] is [int] on a string ([None]: it raises [ValueError]). *)
Variable json_loads : string → result value.
Variable json_dumps : value → string.
Variable strip : string → string.
Variable parse_int : string → option Z.

(** [open(self.filename, "r")] followed by [json.load(f)] (lines 53-54):
    [IOError] when the file cannot be opened, and otherwise whatever the
    library gives for the bytes of the file. *)
Definition read_json : M value := λ s,
  if readable s then
    match file s with
    | Some text => (json_loads text, s)
    | None => (Raise IOError, s)
    end
  else (Raise IOError, s).

(** The elements [for task in self.tasks_list] visits.  An empty dict or
    string is bound to [self.tasks_list] without an error, which no later
    state of this model can hold. *)
Definition iterate (doc : value) : M (list value) :=
  match doc with
  | VList l => ret l
  | VDict [] | VStr "" => unmodelled
  | VDict (_ :: _) | VStr _ => raise TypeError
  | VNone | VBool _ | VInt _ => raise TypeError
  end.

(** One turn of the loop that rebuilds [tasks_dict].  The element becomes
    an object of the heap when the loop reaches it; indexing anything but
    a dict with ["id"] is a [TypeError]. *)
Definition load_element (v : value) : M unit :=
  match v with
  | VDict d =>
      task ← alloc d;
      modify (λ s, set_tasks_list (tasks_list s ++ [task]) s);;
      i ← obj_get task "id";
      k ← lift (hash_key i);
      modify (λ s, set_tasks_dict (<[k := task]> (tasks_dict s)) s)
  | _ => raise TypeError
  end.

(** [load_tasks] (lines 40-69).  Only [JSONDecodeError] and [IOError] are
    caught. *)
Definition load_tasks : M unit :=
  try_except
    (present ← gets (λ s, match file s with Some _ => true | None => false end);
     if present then
       doc ← read_json;
       modify (set_tasks_list []);;
       elements ← iterate doc;
       for_each load_element elements;;
       ls ← gets tasks_list;
       match ls with
       | [] => ret tt
       | _ =>
           ids ← map_m (λ task, obj_get task "id") ls;
           n ← lift (max_plus_one ids);
           modify (set_next_id n)
       end;;
       ls ← gets tasks_list;
       print (LoadedMsg (length ls))
     else ret tt)
    [JSONDecodeError; IOError]
    (λ e,
       print (LoadFailedMsg e);;
       modify (set_tasks_list []);;
       modify (set_tasks_dict ∅)).

(** [TodoApp(filename)], that is [__init__] (lines 23-38). *)
Definition init : M unit :=
  modify (set_tasks_list []);;
  modify (set_tasks_dict ∅);;
  modify (set_next_id 1);;
  load_tasks.

(** [open(self.filename, "w")]. *)
Definition open_write : M unit := λ s,
  if writable s then (Ok tt, s) else (Raise IOError, s).

(** [save_tasks] (lines 71-86): the whole list is dumped over the file;
    only [IOError] is caught.  [json.dump] is taken on values it can
    encode, where it returns: a string that is not text (a lone
    surrogate) makes the real call raise [UnicodeEncodeError] after the
    file was emptied, which this model does not represent. *)
Definition save_tasks : M unit :=
  try_except
    (open_write;;
     ls ← gets tasks_list;
     ds ← map_m deref ls;
     modify (set_file (Some (json_dumps (VList (map VDict ds)))));;
     print SavedMsg)
    [IOError]
    (λ e, print (SaveFailedMsg e)).

(** [datetime.now().strftime(...)]: the next reading of the clock. *)
Definition now : M string := λ s,
  (Ok (clock s (ticks s)), set_ticks (S (ticks s)) s).

(** [add_task] (lines 88-119).  It does not look at the title: the menu
    does. *)
Definition add_task (title priority : string) : M loc :=
  n ← gets next_id;
  created ← now;
  task ← alloc [("id", VInt n); ("title", VStr title);
                ("priority", VStr priority); ("completed", VBool false);
                ("created_at", VStr created)];
  modify (λ s, set_tasks_list (tasks_list s ++ [task]) s);;
  modify (λ s, set_tasks_dict (<[KInt (next_id s) := task]> (tasks_dict s)) s);;
  modify (λ s, set_next_id (next_id s + 1) s);;
  save_tasks;;
  print (AddedMsg title);;
  ret task.

(** [find_task_by_id] (lines 121-138): [self.tasks_dict.get(task_id)]. *)
Definition find_task_by_id (task_id : Z) : M (option loc) :=
  gets (λ s, tasks_dict s !! KInt task_id).

(** The sort key [lambda task: priority_order[task["priority"]]]. *)
Definition priority_key (task : loc) : M Z :=
  p ← obj_get task "priority";
  lift (dict_index priority_order p).

(** One row of the listing (lines 177-183); the fields are read and
    formatted from left to right. *)
Definition show_row (task : loc) : M unit :=
  c ← obj_get task "completed";
  i ← obj_get task "id";
  i' ← lift (format_d i);
  t ← obj_get task "title";
  t' ← lift (format_s t);
  p ← obj_get task "priority";
  e ← lift (dict_index priority_emoji p);
  created ← obj_get task "created_at";
  print (RowMsg (Row (truthy c) i' t' e created)).

(** [list_tasks] (lines 140-185).  It prints and returns [None]; the
    filter applies when [filter_by] is truthy. *)
Definition list_tasks (filter_by : option string) : M unit :=
  ls ← gets tasks_list;
  match ls with
  | [] => print NoTasksMsg
  | _ =>
      print ListHeader;;
      tasks_to_show ←
        match filter_by with
        | Some f =>
            if truthy (VStr f) then
              filter_m (λ t, p ← obj_get t "priority"; ret (eq_str p f)) ls
            else ret ls
        | None => ret ls
        end;
      sorted_tasks ← sorted priority_key tasks_to_show;
      for_each show_row sorted_tasks;;
      print ListFooter
  end.

(** [complete_task] (lines 187-211).  [if task:] is the truth value of
    the dict that was found. *)
Definition complete_task (task_id : Z) : M unit :=
  found ← find_task_by_id task_id;
  match found with
  | Some task =>
      d ← deref task;
      if truthy (VDict d) then
        obj_set task "completed" (VBool true);;
        save_tasks;;
        t ← obj_get task "title";
        print (CompletedMsg t)
      else print (NotFoundMsg task_id)
  | None => print (NotFoundMsg task_id)
  end.

(** [delete_task] (lines 213-246). *)
Definition delete_task (task_id : Z) : M unit :=
  found ← gets (λ s, tasks_dict s !! KInt task_id);
  match found with
  | Some task =>
      t ← obj_get task "title";
      print (DeletedMsg t);;
      modify (λ s, set_tasks_dict (delete (KInt task_id) (tasks_dict s)) s);;
      ls ← gets tasks_list;
      kept ← filter_m (λ t, i ← obj_get t "id"; ret (negb (eq_int i task_id))) ls;
      modify (set_tasks_list kept);;
      save_tasks
  | None => print (NotFoundMsg task_id)
  end.

(** [sort_by_priority] (lines 248-263). *)
Definition sort_by_priority : M (list loc) :=
  ls ← gets tasks_list;
  sorted priority_key ls.

(** [get_statistics] (lines 265-281). *)
Definition get_statistics : M stats :=
  ls ← gets tasks_list;
  let total := Z.of_nat (length ls) in
  done ← filter_m (λ t, c ← obj_get t "completed"; ret (truthy c)) ls;
  let completed := Z.of_nat (length done) in
  let pending := total - completed in
  ret (Stats total completed pending
         (if 0 <? total then NFloat (percent completed total) else NInt 0)).

(** *** The menu loop

    [input] takes the next line of [stdin]; at the end of the input it
    raises [EOFError].  Prompts are not recorded. *)
Definition input : M string := λ s,
  match stdin s with
  | [] => (Raise EOFError, s)
  | x :: rest => (Ok x, set_stdin rest s)
  end.

Definition int (text : string) : M Z :=
  match parse_int text with
  | Some z => ret z
  | None => raise ValueError
  end.

Definition show_sorted_row (task : loc) : M unit :=
  c ← obj_get task "completed";
  t ← obj_get task "title";
  t' ← lift (format_s t);
  p ← obj_get task "priority";
  e ← lift (dict_index priority_emoji p);
  print (SortedRowMsg (truthy c) t' e).

(** One turn of [while True] in [run] (lines 291-356): [true] to go on,
    [false] after [break]. *)
Definition iteration : M bool :=
  print MenuMsg;;
  answer ← input;
  let choice := strip answer in
  if String.eqb choice "1" then
    answer ← input;
    let title := strip answer in
    if negb (truthy (VStr title)) then print EmptyTitleMsg;; ret true
    else
      answer ← input;
      let priority := if truthy (VStr (strip answer)) then strip answer else "中" in
      if negb (existsb (String.eqb priority) ["高"; "中"; "低"]) then
        print BadPriorityMsg;; ret true
      else add_task title priority;; ret true
  else if String.eqb choice "2" then
    list_tasks None;; ret true
  else if String.eqb choice "3" then
    list_tasks None;;
    try_except
      (answer ← input; task_id ← int (strip answer); complete_task task_id)
      [ValueError]
      (λ _, print BadIdMsg);;
    ret true
  else if String.eqb choice "4" then
    list_tasks None;;
    try_except
      (answer ← input; task_id ← int (strip answer); delete_task task_id)
      [ValueError]
      (λ _, print BadIdMsg);;
    ret true
  else if String.eqb choice "5" then
    st ← get_statistics;
    print (StatsMsg st);;
    ret true
  else if String.eqb choice "6" then
    sorted_tasks ← sort_by_priority;
    print SortedHeader;;
    for_each show_sorted_row sorted_tasks;;
    ret true
  else if String.eqb choice "7" then
    print ByeMsg;; ret false
  else
    print BadChoiceMsg;; ret true.

(** The loop, bounded by [fuel] turns; every turn reads a line, so one
    turn more than there are lines is enough. *)
Fixpoint loop (fuel : nat) : M unit :=
  match fuel with
  | O => unmodelled
  | S fuel' =>
      go_on ← iteration;
      if go_on then loop fuel' else ret tt
  end.

Definition run : M unit :=
  print WelcomeMsg;;
  fuel ← gets (λ s, S (length (stdin s)));
  loop fuel.

(** The script: [app = TodoApp("tasks.json"); app.run()]. *)
Definition main : M unit := init;; run.

(** ** Views of a state, and its invariants *)

(** The task a reference stands for, and its fields. *)
Definition field (s : state) (l : loc) (k : string) : option value :=
  match heap s !! l with
  | Some d => dict_get d k
  | None => None
  end.

(** The ordered task sequence, as values, and the document [save_tasks]
    writes. *)
Definition contents (s : state) : list dict :=
  omap (λ l, heap s !! l) (tasks_list s).

Definition document (s : state) : value := VList (map VDict (contents s)).

(** The state [save_tasks] leaves. *)
Definition saved (s : state) : state :=
  if writable s then
    set_stdout (stdout s ++ [SavedMsg]) (set_file (Some (json_dumps (document s))) s)
  else set_stdout (stdout s ++ [SaveFailedMsg IOError]) s.

(** Every reference of the ordered sequence points to an object. *)
Definition list_closed (s : state) : Prop :=
  ∀ l, l ∈ tasks_list s → is_Some (heap s !! l).

(** The key under which [tasks_dict] files a task: its ["id"], hashed. *)
Definition key_of (s : state) (l : loc) : option hkey :=
  match field s l "id" with
  | Some v =>
      match hash_key v with
      | Ok k => Some k
      | _ => None
      end
  | None => None
  end.

(** The ids of the ordered sequence, in order. *)
Definition list_ids (s : state) : list hkey := omap (key_of s) (tasks_list s).

(** What every state of a run satisfies: the listed references point to
    objects that have a hashable ["id"], and an entry of the index points
    to a listed task that carries that id (it is the same object, not a
    copy). *)
Record well_formed (s : state) : Prop := WellFormed {
  wf_closed : list_closed s;
  wf_keyed : ∀ l, l ∈ tasks_list s → is_Some (key_of s l);
  wf_index : ∀ k l,
    tasks_dict s !! k = Some l → l ∈ tasks_list s ∧ key_of s l = Some k
}.

(** The consistency invariant of the two views: moreover every listed
    task is the entry of the index for its id, and no object is listed
    twice. *)
Record consistent (s : state) : Prop := Consistent {
  cons_wf : well_formed s;
  cons_complete : ∀ l k,
    l ∈ tasks_list s → key_of s l = Some k → tasks_dict s !! k = Some l;
  cons_nodup : NoDup (tasks_list s)
}.

(** [next_id] is above every integer id of the store. *)
Definition int_ids (s : state) : list Z :=
  omap (λ l, match field s l "id" with Some v => as_int v | None => None end)
       (tasks_list s).

Record next_id_above (s : state) : Prop := NextIdAbove {
  above_list : Forall (λ z, z < next_id s) (int_ids s);
  above_dict : ∀ z l, tasks_dict s !! KInt z = Some l → z < next_id s
}.

(** The three operations that mutate the store, and a run of them that
    stops at the first one that does not return.  The run collects the ids
    of the tasks [add_task] returned. *)
Inductive op : Type :=
| Add (title priority : string)
| Complete (task_id : Z)
| Delete (task_id : Z).

Definition exec (o : op) : M (list value) :=
  match o with
  | Add title priority =>
      task ← add_task title priority;
      i ← obj_get task "id";
      ret [i]
  | Complete task_id => complete_task task_id;; ret []
  | Delete task_id => delete_task task_id;; ret []
  end.

Fixpoint exec_all (ops : list op) (s : state) : list value * state :=
  match ops with
  | [] => ([], s)
  | o :: ops' =>
      match exec o s with
      | (Ok ids, s') =>
          let '(ids', s'') := exec_all ops' s' in ((ids ++ ids')%list, s'')
      | (_, s') => ([], s')
      end
  end.

(** The data model of a task: the five fields with their types, the
    priority among the three ranks. *)
Definition is_priority (p : string) : bool :=
  existsb (String.eqb p) ["高"; "中"; "低"].

Definition well_typed (d : dict) : bool :=
  match dict_get d "id", dict_get d "title", dict_get d "priority",
        dict_get d "completed", dict_get d "created_at" with
  | Some (VInt _), Some (VStr _), Some (VStr p), Some (VBool _), Some (VStr _) =>
      is_priority p
  | _, _, _, _, _ => false
  end.

Definition store_typed (s : state) : Prop :=
  ∀ l, l ∈ tasks_list s → ∃ d, heap s !! l = Some d ∧ well_typed d = true.

(** The priority ranks, and the filter argument of [list_tasks] they
    stand for. *)
Inductive priority : Type := High | Medium | Low.

Definition priority_str (p : priority) : string :=
  match p with
  | High => "高"
  | Medium => "中"
  | Low => "低"
  end.

Definition rank (p : priority) : Z :=
  match p with
  | High => 1
  | Medium => 2
  | Low => 3
  end.

(** The rank of a task, when its priority is one of the three. *)
Definition priority_of (s : state) (l : loc) : option priority :=
  match field s l "priority" with
  | Some (VStr p) =>
      if String.eqb p "高" then Some High
      else if String.eqb p "中" then Some Medium
      else if String.eqb p "低" then Some Low
      else None
  | _ => None
  end.

Definition has_priority (s : state) (p : priority) (l : loc) : bool :=
  match priority_of s l with
  | Some q => Z.eqb (rank q) (rank p)
  | None => false
  end.

Definition rank_of (s : state) (l : loc) : Z :=
  match priority_of s l with
  | Some q => rank q
  | None => 0
  end.

(** The tasks a listing is about: all of them, or those of one rank. *)
Definition selected (s : state) (f : option priority) : list loc :=
  match f with
  | Some p => List.filter (has_priority s p) (tasks_list s)
  | None => tasks_list s
  end.

(** The line [show_row] prints for a task. *)
Definition row_of (s : state) (l : loc) : option row :=
  match field s l "completed", field s l "id", field s l "title",
        field s l "priority", field s l "created_at" with
  | Some c, Some (VInt i), Some (VStr t), Some p, Some created =>
      match dict_index priority_emoji p with
      | Ok e => Some (Row (truthy c) i t e created)
      | _ => None
      end
  | _, _, _, _, _ => None
  end.

(** Truth value of the ["completed"] field of a task. *)
Definition is_completed (s : state) (l : loc) : bool :=
  match field s l "completed" with
  | Some c => truthy c
  | None => false
  end.

(** A task with a title that is a non-empty string. *)
Definition titled (d : dict) : bool :=
  match dict_get d "title" with
  | Some (VStr t) => negb (String.eqb t "")
  | _ => false
  end.

Definition titles_nonempty (s : state) : Prop :=
  ∀ l, l ∈ tasks_list s → ∃ d, heap s !! l = Some d ∧ titled d = true.

(** What the file holds during a run that found [f0] in it: still [f0], or
    a document of titled tasks that [save_tasks] wrote. *)
Definition persisted_titled (f0 : option string) (s : state) : Prop :=
  file s = f0 ∨
  ∃ ds, file s = Some (json_dumps (VList (map VDict ds)))
        ∧ Forall (λ d, titled d = true) ds.


(** What the readers of the heap return; they leave the state alone. *)
Definition read (s : state) (l : loc) (k : string) : result value :=
  match heap s !! l with
  | Some d => getitem d k
  | None => Unmodelled
  end.

Definition key_result (s : state) (l : loc) : result Z :=
  match read s l "priority" with
  | Ok p => dict_index priority_order p
  | Raise e => Raise e
  | Unmodelled => Unmodelled
  end.

(** The results of a comprehension, up to the first that is not a value. *)
Fixpoint collect {B} (rs : list (result B)) : result (list B) :=
  match rs with
  | [] => Ok []
  | Ok b :: rs' =>
      match collect rs' with
      | Ok bs => Ok (b :: bs)
      | Raise e => Raise e
      | Unmodelled => Unmodelled
      end
  | Raise e :: _ => Raise e
  | Unmodelled :: _ => Unmodelled
  end.

(** The states the mutating methods leave, in closed form. *)
Definition new_task (s : state) (title priority : string) : dict :=
  [("id", VInt (next_id s)); ("title", VStr title);
   ("priority", VStr priority); ("completed", VBool false);
   ("created_at", VStr (clock s (ticks s)))].

Definition added (title priority : string) (s : state) : state :=
  let task := fresh (dom (heap s)) in
  let s' :=
    saved (State (tasks_list s ++ [task])
                 (<[KInt (next_id s) := task]> (tasks_dict s))
                 (next_id s + 1)
                 (<[task := new_task s title priority]> (heap s))
                 (file s) (readable s) (writable s) (stdout s) (stdin s)
                 (clock s) (S (ticks s))) in
  set_stdout (stdout s' ++ [AddedMsg title]) s'.

Definition marked (task : loc) (d : dict) (s : state) : state :=
  saved (set_heap (<[task := dict_set d "completed" (VBool true)]> (heap s)) s).

Definition id_differs (s : state) (task_id : Z) (l : loc) : bool :=
  match field s l "id" with
  | Some i => negb (eq_int i task_id)
  | None => true
  end.

Definition deleted (task_id : Z) (title : value) (s : state) : state :=
  saved (State (List.filter (id_differs s task_id) (tasks_list s))
               (delete (KInt task_id) (tasks_dict s))
               (next_id s) (heap s) (file s) (readable s) (writable s)
               (stdout s ++ [DeletedMsg title]) (stdin s) (clock s) (ticks s)).

(** Consistency on the sets of ids: the index and the ordered sequence
    hold the same ids, and every task of the sequence contributes one id
    that no other task has. *)
Definition same_ids (s : state) : Prop :=
  ∀ k, is_Some (tasks_dict s !! k) ↔ k ∈ list_ids s.

Definition each_id_once (s : state) : Prop :=
  NoDup (list_ids s) ∧ length (list_ids s) = length (tasks_list s).

(** The state one turn of the loading loop leaves for a dict [d] whose id
    hashes to [k], and the state of a new instance before it loads. *)
Definition linked (d : dict) (k : hkey) (s : state) : state :=
  let task := fresh (dom (heap s)) in
  State (tasks_list s ++ [task]) (<[k := task]> (tasks_dict s)) (next_id s)
        (<[task := d]> (heap s)) (file s) (readable s) (writable s)
        (stdout s) (stdin s) (clock s) (ticks s).

Definition blank (s : state) : state :=
  State [] ∅ 1 (heap s) (file s) (readable s) (writable s) (stdout s)
        (stdin s) (clock s) (ticks s).

Definition dict_key (d : dict) : option hkey :=
  match dict_get d "id" with
  | Some i =>
      match hash_key i with
      | Ok k => Some k
      | _ => None
      end
  | None => None
  end.

Fixpoint linked_all (ds : list dict) (s : state) : state :=
  match ds with
  | [] => s
  | d :: ds' =>
      match dict_key d with
      | Some k => linked_all ds' (linked d k s)
      | None => s
      end
  end.

(** The state after a load that was caught failing with [e]. *)
Definition load_failed (e : exn) (s : state) : state :=
  State [] ∅ (next_id s) (heap s) (file s) (readable s) (writable s)
        (stdout s ++ [LoadFailedMsg e]) (stdin s) (clock s) (ticks s).

(** The ids [load_tasks] takes the maximum of. *)
Definition id_values (s : state) : list value :=
  omap (λ l, field s l "id") (tasks_list s).

(** The state after a load that read the tasks [ds] and, when there are
    some, found [n] for [next_id]. *)
Definition loaded (ds : list dict) (n : Z) (s : state) : state :=
  let s' := linked_all ds (set_tasks_list [] s) in
  let s'' := match ds with [] => s' | _ => set_next_id n s' end in
  set_stdout (stdout s'' ++ [LoadedMsg (length ds)]) s''.

(** A field of a task as each of the two views gives it: through the
    index by id, and through the ordered sequence by position. *)
Definition by_id (s : state) (task_id : Z) (k : string) : option value :=
  match tasks_dict s !! KInt task_id with
  | Some l => field s l k
  | None => None
  end.

Definition by_position (s : state) (i : nat) (k : string) : option value :=
  match tasks_list s !! i with
  | Some l => field s l k
  | None => None
  end.

(** [sorted] on keys that are a function of the element alone. *)
Fixpoint insert_by {A} (k : A → Z) (x : A) (l : list A) : list A :=
  match l with
  | [] => [x]
  | y :: l' => if k x <=? k y then x :: y :: l' else y :: insert_by k x l'
  end.

Fixpoint sort_by {A} (k : A → Z) (l : list A) : list A :=
  match l with
  | [] => []
  | x :: l' => insert_by k x (sort_by k l')
  end.

(** The tasks a listing shows, in the order it shows them. *)
Definition shown (s : state) (f : option priority) : list loc :=
  sort_by (rank_of s) (selected s f).

(** Every priority is a string, and one of them is none of the three. *)
Definition priorities_text (s : state) : Prop :=
  ∀ l, l ∈ tasks_list s → ∃ p, field s l "priority" = Some (VStr p).

Definition some_priority_invalid (s : state) : Prop :=
  ∃ l p, l ∈ tasks_list s ∧ field s l "priority" = Some (VStr p)
         ∧ is_priority p = false.

(** Every task of the store has an integer for id. *)
Definition ids_are_integers (s : state) : Prop :=
  ∀ l, l ∈ tasks_list s →
       ∃ v z, field s l "id" = Some v ∧ as_int v = Some z.

(** Computations that leave the store and the file alone (they may print
    and read the input), and the invariant of a run. *)
Definition same_store (s s' : state) : Prop :=
  tasks_list s' = tasks_list s ∧ tasks_dict s' = tasks_dict s
  ∧ next_id s' = next_id s ∧ heap s' = heap s ∧ file s' = file s.

Definition quiet {A} (m : M A) : Prop := ∀ s, same_store s (m s).2.

Definition preserves {A} (P : state → Prop) (m : M A) : Prop :=
  ∀ s, P s → P (m s).2.

Definition run_inv (f0 : option string) (s : state) : Prop :=
  well_formed s ∧ next_id_above s ∧ titles_nonempty s ∧ persisted_titled f0 s.

(** Computations that only take lines from the input. *)
Definition consuming {A} (m : M A) : Prop :=
  ∀ s, ∃ taken, stdin s = taken ++ stdin (m s).2.

(** A machine to run examples on: the file as given, readable and
    writable, the lines to type, and a clock that stands still. *)
Definition demo_boot (f : option string) (lines : list string) : state :=
  State [] ∅ 1 ∅ f true true [] lines (λ _, "2025-01-01 09:00:00") 0.


(** The file holds the dump of the ordered sequence as it is now. *)
Definition in_sync (s : state) : Prop :=
  file s = Some (json_dumps (document s)).

(** The tasks of the ordered sequence that carry the id filed under a
    key, in order. *)
Definition carrying (s : state) (k : hkey) : list loc :=
  List.filter (λ l, bool_decide (key_of s l = Some k)) (tasks_list s).

(** Computations that change nothing at all, and those that only print. *)
Definition reading {A} (m : M A) : Prop := ∀ s, (m s).2 = s.

Definition printing {A} (m : M A) : Prop :=
  ∀ s, ∃ out, (m s).2 = set_stdout (stdout s ++ out) s.

(** Both views agree and [next_id] is above them. *)
Definition views_inv (s : state) : Prop := consistent s ∧ next_id_above s.

(** A turn that ends the loop says goodbye last. *)
Definition ends_with_bye (m : M bool) : Prop :=
  ∀ s, (m s).1 = Ok false → last (stdout (m s).2) = Some ByeMsg.

(** The choices of the menu. *)
Definition is_choice (c : string) : bool :=
  existsb (String.eqb c) ["1"; "2"; "3"; "4"; "5"; "6"; "7"].

(** The completion rate in the words of the specification,
    [completed / total * 100], as IEEE 754 defines these operations for
    the binary64 format (the standard library's [SpecFloat] model of it):
    the integers are taken as floats, which is exact below 2^53, the
    quotient is rounded to nearest, and so is its product with 100. *)
Definition binary64_of_Z (z : Z) : spec_float :=
  binary_normalize prec emax z 0 false.

Definition rate_spec (completed total : Z) : spec_float :=
  SF64mul (SF64div (binary64_of_Z completed) (binary64_of_Z total))
          (binary64_of_Z 100).

(** ** Reasoning about computations *)

Lemma bind_ok {A B} (m : M A) (f : A → M B) s a s' :
  m s = (Ok a, s') → bind m f s = f a s'.
Proof. intros H. unfold bind. by rewrite H. Qed.

Lemma bind_raise {A B} (m : M A) (f : A → M B) s e s' :
  m s = (Raise e, s') → bind m f s = (Raise e, s').
Proof. intros H. unfold bind. by rewrite H. Qed.

Lemma obj_get_read l k s : obj_get l k s = (read s l k, s).
Proof.
  unfold obj_get, read, bind, deref, lift.
  by destruct (heap s !! l).
Qed.

Lemma priority_key_read l s : priority_key l s = (key_result s l, s).
Proof.
  unfold priority_key, key_result, bind. rewrite obj_get_read.
  by destruct (read s l "priority").
Qed.

Lemma map_m_reads {A B} (f : A → M B) (g : A → result B) s xs :
  (∀ x, f x s = (g x, s)) →
  map_m f xs s = (collect (map g xs), s).
Proof.
  intros Hf. induction xs as [|x xs IH]; [done|].
  cbn [map_m map collect]. unfold bind at 1. rewrite Hf.
  destruct (g x); [|done..].
  unfold bind. rewrite IH. by destruct (collect (map g xs)).
Qed.

Lemma filter_m_reads {A} (p : A → M bool) (g : A → result bool) s xs :
  (∀ x, p x s = (g x, s)) →
  filter_m p xs s =
    (match collect (map g xs) with
     | Ok bs => Ok (map snd (List.filter fst (combine bs xs)))
     | Raise e => Raise e
     | Unmodelled => Unmodelled
     end, s).
Proof.
  intros Hp. induction xs as [|x xs IH]; [done|].
  cbn [filter_m map collect]. unfold bind at 1. rewrite Hp.
  destruct (g x) as [b| |]; [|done..].
  unfold bind. rewrite IH. destruct (collect (map g xs)); [|done..].
  by destruct b.
Qed.

Lemma map_m_ok {A B} (f : A → M B) (h : A → B) s xs :
  (∀ x, x ∈ xs → f x s = (Ok (h x), s)) →
  map_m f xs s = (Ok (map h xs), s).
Proof.
  induction xs as [|x xs IH]; intros Hf; [done|].
  cbn [map_m map]. rewrite (bind_ok _ _ _ _ _ (Hf x ltac:(left))).
  rewrite (bind_ok _ _ _ _ _ (IH (λ y Hy, Hf y ltac:(by right)))). done.
Qed.

Lemma filter_m_ok {A} (p : A → M bool) (h : A → bool) s xs :
  (∀ x, x ∈ xs → p x s = (Ok (h x), s)) →
  filter_m p xs s = (Ok (List.filter h xs), s).
Proof.
  induction xs as [|x xs IH]; intros Hp; [done|].
  cbn [filter_m List.filter]. rewrite (bind_ok _ _ _ _ _ (Hp x ltac:(left))).
  rewrite (bind_ok _ _ _ _ _ (IH (λ y Hy, Hp y ltac:(by right)))).
  by destruct (h x).
Qed.

Lemma map_m_deref s ls :
  (∀ l, l ∈ ls → is_Some (heap s !! l)) →
  map_m deref ls s = (Ok (omap (λ l, heap s !! l) ls), s).
Proof.
  induction ls as [|l ls IH]; intros Hc; [done|].
  cbn [map_m omap list_omap]. destruct (Hc l ltac:(left)) as [d Hd].
  rewrite (bind_ok _ _ s d s); [|by unfold deref; rewrite Hd].
  rewrite (bind_ok _ _ _ _ _ (IH (λ y Hy, Hc y ltac:(by right)))).
  by rewrite Hd.
Qed.

(** ** The methods in closed form *)

Lemma save_tasks_spec s :
  list_closed s → save_tasks s = (Ok tt, saved s).
Proof.
  intros Hc. unfold save_tasks, try_except, saved, open_write.
  unfold bind at 1. destruct (writable s); [|done].
  unfold bind at 1, gets at 1. rewrite (bind_ok _ _ _ _ _ (map_m_deref s _ Hc)).
  done.
Qed.

Lemma saved_tasks_list s : tasks_list (saved s) = tasks_list s.
Proof. unfold saved. by destruct (writable s). Qed.
Lemma saved_tasks_dict s : tasks_dict (saved s) = tasks_dict s.
Proof. unfold saved. by destruct (writable s). Qed.
Lemma saved_next_id s : next_id (saved s) = next_id s.
Proof. unfold saved. by destruct (writable s). Qed.
Lemma saved_heap s : heap (saved s) = heap s.
Proof. unfold saved. by destruct (writable s). Qed.

Lemma fresh_unused (s : state) : heap s !! fresh (dom (heap s)) = None.
Proof. apply not_elem_of_dom, is_fresh. Qed.

Lemma closed_not_fresh s l :
  is_Some (heap s !! l) → l ≠ fresh (dom (heap s)).
Proof. intros [d Hd] ->. by rewrite fresh_unused in Hd. Qed.

Ltac mrun :=
  unfold bind, gets, modify, ret, print, lift, raise, now, alloc,
    find_task_by_id; cbn.

Lemma add_task_spec title priority s :
  list_closed s →
  add_task title priority s = (Ok (fresh (dom (heap s))), added title priority s).
Proof.
  intros Hc. unfold add_task, added. mrun.
  rewrite save_tasks_spec; [done|].
  intros l. cbn. rewrite elem_of_app, list_elem_of_singleton.
  intros [Hl| ->]; [|by rewrite lookup_insert_eq].
  rewrite lookup_insert_ne; [by apply Hc|].
  intros <-. destruct (Hc _ Hl) as [d Hd]. by rewrite fresh_unused in Hd.
Qed.

Lemma dict_get_set d k v k' :
  dict_get (dict_set d k v) k' = if String.eqb k k' then Some v else dict_get d k'.
Proof.
  induction d as [|[k0 v0] d IH]; cbn.
  - by destruct (String.eqb k k').
  - destruct (String.eqb k0 k) eqn:E0; cbn.
    + apply String.eqb_eq in E0 as ->. by destruct (String.eqb k k').
    + destruct (String.eqb k0 k') eqn:E1; [|done].
      apply String.eqb_eq in E1 as ->.
      rewrite String.eqb_sym in E0. by rewrite E0.
Qed.

Lemma dict_set_nonempty d k v : dict_set d k v ≠ [].
Proof. destruct d as [|[k0 v0] d]; cbn; [done|]. by destruct (String.eqb k0 k). Qed.

(** [complete_task] on an id the index knows: the flag is set on the
    object, the file is rewritten, and the title is printed, unless the
    task has no title, which is a [KeyError] after the mutation. *)
Lemma complete_task_spec task_id task d s :
  list_closed s →
  tasks_dict s !! KInt task_id = Some task →
  heap s !! task = Some d →
  d ≠ [] →
  complete_task task_id s =
    match dict_get d "title" with
    | Some t =>
        (Ok tt, set_stdout (stdout (marked task d s) ++ [CompletedMsg t])
                           (marked task d s))
    | None => (Raise KeyError, marked task d s)
    end.
Proof.
  intros Hc Hk Hd Hne. unfold complete_task, marked, obj_set, obj_get, deref.
  assert (truthy (VDict d) = true) as Ht by (by destruct d).
  mrun. rewrite Hk, Hd. cbn [truthy] in *. rewrite Ht, Hd. cbn.
  rewrite save_tasks_spec.
  2:{ intros l Hl. cbn in *. destruct (decide (l = task)) as [->|Hn].
      - by rewrite lookup_insert_eq.
      - rewrite lookup_insert_ne by done. by apply Hc. }
  rewrite saved_heap. cbn. rewrite lookup_insert_eq.
  unfold getitem. rewrite dict_get_set. cbn.
  by destruct (dict_get d "title").
Qed.

Lemma complete_task_absent task_id s :
  tasks_dict s !! KInt task_id = None →
  complete_task task_id s =
    (Ok tt, set_stdout (stdout s ++ [NotFoundMsg task_id]) s).
Proof. intros Hk. unfold complete_task. mrun. by rewrite Hk. Qed.

Lemma delete_task_absent task_id s :
  tasks_dict s !! KInt task_id = None →
  delete_task task_id s =
    (Ok tt, set_stdout (stdout s ++ [NotFoundMsg task_id]) s).
Proof. intros Hk. unfold delete_task. mrun. by rewrite Hk. Qed.

Lemma read_field s l k v : field s l k = Some v → read s l k = Ok v.
Proof.
  unfold field, read, getitem. destruct (heap s !! l); [|done]. by intros ->.
Qed.

Lemma delete_task_spec task_id task t s :
  list_closed s →
  (∀ l, l ∈ tasks_list s → is_Some (field s l "id")) →
  tasks_dict s !! KInt task_id = Some task →
  field s task "title" = Some t →
  delete_task task_id s = (Ok tt, deleted task_id t s).
Proof.
  intros Hc Hid Hk Ht. unfold delete_task, deleted. mrun. rewrite Hk.
  rewrite obj_get_read, (read_field _ _ _ _ Ht).
  erewrite (filter_m_ok _ (id_differs s task_id)).
  2:{ intros l Hl. cbn in Hl. destruct (Hid l Hl) as [i Hi].
      rewrite obj_get_read. unfold id_differs.
      rewrite (read_field _ l "id" i) by done.
      unfold field in *. cbn. by rewrite Hi. }
  rewrite save_tasks_spec; [done|].
  intros l. cbn. rewrite list_elem_of_In, filter_In, <-list_elem_of_In.
  intros [Hl _]. by apply Hc.
Qed.

(** A task without a title stops [delete_task] before it changes
    anything. *)
Lemma delete_task_untitled task_id task s :
  tasks_dict s !! KInt task_id = Some task →
  is_Some (heap s !! task) →
  field s task "title" = None →
  delete_task task_id s = (Raise KeyError, s).
Proof.
  intros Hk [d Hd] Ht. unfold delete_task. mrun. rewrite Hk.
  rewrite obj_get_read. unfold read, field, getitem in *. rewrite Hd in *.
  by rewrite Ht.
Qed.

(** ** The consistency of the two views *)

Lemma eq_int_hash v n : eq_int v n = true ↔ hash_key v = Ok (KInt n).
Proof.
  destruct v; cbn; try (split; [done|by inversion 1]).
  - rewrite Z.eqb_eq. split; [by intros ->|by inversion 1].
  - rewrite Z.eqb_eq. split; [by intros ->|by inversion 1].
Qed.

Lemma key_of_Some s l k :
  key_of s l = Some k ↔ ∃ v, field s l "id" = Some v ∧ hash_key v = Ok k.
Proof.
  unfold key_of. destruct (field s l "id") as [v|]; [|split; [done|by intros (?&?&?)]].
  destruct (hash_key v) eqn:E; split; try done.
  - intros [= ->]. eauto.
  - intros (v'&[= <-]&Hk). rewrite E in Hk. by inversion Hk.
  - intros (v'&[= <-]&Hk). by rewrite E in Hk.
  - intros (v'&[= <-]&Hk). by rewrite E in Hk.
Qed.

Lemma key_of_ext s s' l :
  field s' l "id" = field s l "id" → key_of s' l = key_of s l.
Proof. unfold key_of. by intros ->. Qed.

Lemma elem_of_list_ids s k :
  k ∈ list_ids s ↔ ∃ l, l ∈ tasks_list s ∧ key_of s l = Some k.
Proof. unfold list_ids. by rewrite list_elem_of_omap. Qed.

Lemma omap_NoDup_inj {A B} (f : A → option B) (xs : list A) :
  NoDup xs →
  (∀ x y b, x ∈ xs → y ∈ xs → f x = Some b → f y = Some b → x = y) →
  NoDup (omap f xs).
Proof.
  induction 1 as [|x xs Hx Hnd IH]; intros Hinj; cbn; [constructor|].
  destruct (f x) as [b|] eqn:E.
  - constructor.
    + rewrite list_elem_of_omap. intros (y&Hy&Hfy).
      apply Hx. rewrite (Hinj x y b); [done|by left|by right|done..].
    + apply IH. intros y z c Hy Hz. apply Hinj; by right.
  - apply IH. intros y z c Hy Hz. apply Hinj; by right.
Qed.

Lemma omap_ext_in {A B} (f g : A → option B) (xs : list A) :
  (∀ x, x ∈ xs → f x = g x) → omap f xs = omap g xs.
Proof.
  induction xs as [|x xs IH]; intros H; cbn; [done|].
  rewrite (H x) by left. rewrite IH; [done|]. intros y Hy. apply H. by right.
Qed.

Lemma omap_length_all {A B} (f : A → option B) (xs : list A) :
  (∀ x, x ∈ xs → is_Some (f x)) → length (omap f xs) = length xs.
Proof.
  induction xs as [|x xs IH]; intros H; cbn; [done|].
  destruct (H x ltac:(left)) as [b ->]. cbn. f_equal.
  apply IH. intros y Hy. apply H. by right.
Qed.

Lemma consistent_same_ids s : consistent s → same_ids s ∧ each_id_once s.
Proof.
  intros [[Hc Hk Hi] Hf Hn]. split; [|split].
  - intros k. rewrite elem_of_list_ids. split.
    + intros [l Hl]. exists l. by apply Hi.
    + intros (l&Hl&Hkey). exists l. by apply Hf.
  - apply omap_NoDup_inj; [done|].
    intros x y k Hx Hy Hkx Hky.
    assert (tasks_dict s !! k = Some x) as H1 by by apply Hf.
    assert (tasks_dict s !! k = Some y) as H2 by by apply Hf.
    congruence.
  - by apply omap_length_all.
Qed.

(** The invariants read only the three attributes and the ids in the
    heap. *)
Lemma well_formed_transfer s s' :
  tasks_list s' = tasks_list s →
  tasks_dict s' = tasks_dict s →
  (∀ l, field s' l "id" = field s l "id") →
  list_closed s' →
  well_formed s → well_formed s'.
Proof.
  intros Hl Hd Hf Hc' [Hc Hk Hi]. split; [done|..].
  - intros l. rewrite Hl, (key_of_ext s s') by done. apply Hk.
  - intros k l. rewrite Hl, Hd, (key_of_ext s s') by done. apply Hi.
Qed.

Lemma consistent_transfer s s' :
  tasks_list s' = tasks_list s →
  tasks_dict s' = tasks_dict s →
  (∀ l, field s' l "id" = field s l "id") →
  list_closed s' →
  consistent s → consistent s'.
Proof.
  intros Hl Hd Hf Hc' [Hw Hcomp Hn]. split.
  - by apply (well_formed_transfer s).
  - intros l k. rewrite Hl, Hd, (key_of_ext s s') by done. apply Hcomp.
  - by rewrite Hl.
Qed.

Lemma above_list_alt s :
  Forall (λ z, z < next_id s) (int_ids s) ↔
  ∀ l v z, l ∈ tasks_list s → field s l "id" = Some v → as_int v = Some z →
           z < next_id s.
Proof.
  unfold int_ids. rewrite Forall_forall. split.
  - intros H l v z Hl Hv Hz. apply H. rewrite list_elem_of_omap.
    exists l. split; [done|]. by rewrite Hv.
  - intros H z. rewrite list_elem_of_omap. intros (l&Hl&Hz).
    destruct (field s l "id") as [v|] eqn:E; [|done]. eauto.
Qed.

Lemma next_id_above_transfer s s' :
  tasks_list s' = tasks_list s →
  tasks_dict s' = tasks_dict s →
  next_id s' = next_id s →
  (∀ l, field s' l "id" = field s l "id") →
  next_id_above s → next_id_above s'.
Proof.
  intros Hl Hd Hn Hf [Ha Hb]. split.
  - rewrite above_list_alt in *. intros l v z. rewrite Hl, Hf, Hn. apply Ha.
  - intros z l. rewrite Hd, Hn. apply Hb.
Qed.

Lemma field_saved s l k : field (saved s) l k = field s l k.
Proof. unfold field. by rewrite saved_heap. Qed.

Lemma list_closed_ext s s' :
  tasks_list s' = tasks_list s → heap s' = heap s →
  list_closed s → list_closed s'.
Proof. unfold list_closed. by intros -> ->. Qed.

Section added.
Variables (title prio : string) (s : state).
Hypothesis Hc : list_closed s.

Local Abbreviation task := (fresh (dom (heap s))).

Lemma added_tasks_list :
  tasks_list (added title prio s) = tasks_list s ++ [task].
Proof. unfold added. cbn. by rewrite saved_tasks_list. Qed.

Lemma added_tasks_dict :
  tasks_dict (added title prio s) = <[KInt (next_id s) := task]> (tasks_dict s).
Proof. unfold added. cbn. by rewrite saved_tasks_dict. Qed.

Lemma added_next_id : next_id (added title prio s) = next_id s + 1.
Proof. unfold added. cbn. by rewrite saved_next_id. Qed.

Lemma added_heap :
  heap (added title prio s) = <[task := new_task s title prio]> (heap s).
Proof. unfold added. cbn. by rewrite saved_heap. Qed.

Lemma added_field_new k :
  field (added title prio s) task k = dict_get (new_task s title prio) k.
Proof. unfold field. by rewrite added_heap, lookup_insert_eq. Qed.

Lemma added_field_old l k :
  is_Some (heap s !! l) → field (added title prio s) l k = field s l k.
Proof.
  intros Hl. unfold field. rewrite added_heap, lookup_insert_ne; [done|].
  intros Heq. by apply (closed_not_fresh s l).
Qed.

Lemma task_not_listed : task ∉ tasks_list s.
Proof. intros Hl. by apply (closed_not_fresh s task); [apply Hc|]. Qed.

Lemma added_list_closed : list_closed (added title prio s).
Proof.
  intros l. rewrite added_tasks_list, added_heap, elem_of_app, list_elem_of_singleton.
  intros [Hl| ->]; [|by rewrite lookup_insert_eq].
  rewrite lookup_insert_ne; [by apply Hc|].
  intros Heq. by apply (closed_not_fresh s l); [apply Hc|].
Qed.

Lemma added_key_new : key_of (added title prio s) task = Some (KInt (next_id s)).
Proof. unfold key_of. by rewrite added_field_new. Qed.

Lemma added_key_old l :
  l ∈ tasks_list s → key_of (added title prio s) l = key_of s l.
Proof. intros Hl. apply key_of_ext, added_field_old. by apply Hc. Qed.

Lemma added_next_id_above :
  next_id_above s → next_id_above (added title prio s).
Proof.
  intros [Ha Hb]. split.
  - rewrite above_list_alt in *. intros l v z.
    rewrite added_tasks_list, added_next_id, elem_of_app, list_elem_of_singleton.
    intros [Hl| ->].
    + rewrite added_field_old by by apply Hc. intros Hv Hz.
      specialize (Ha l v z Hl Hv Hz). lia.
    + rewrite added_field_new. cbn. intros [= <-] [= <-]. lia.
  - intros z l. rewrite added_tasks_dict, added_next_id.
    destruct (decide (z = next_id s)) as [->|Hne]; [lia|].
    rewrite lookup_insert_ne by congruence.
    intros H. specialize (Hb z l H). lia.
Qed.

Lemma added_well_formed : well_formed s → well_formed (added title prio s).
Proof.
  intros [_ Hk Hi]. split.
  - apply added_list_closed.
  - intros l. rewrite added_tasks_list, elem_of_app, list_elem_of_singleton.
    intros [Hl| ->]; [rewrite added_key_old by done; by apply Hk|].
    by rewrite added_key_new.
  - intros k l. rewrite added_tasks_list, added_tasks_dict, elem_of_app,
      list_elem_of_singleton.
    destruct (decide (k = KInt (next_id s))) as [->|Hne].
    + rewrite lookup_insert_eq. intros [= <-].
      split; [by right|apply added_key_new].
    + rewrite lookup_insert_ne by done. intros Hd.
      apply Hi in Hd as [Hl Hkey]. split; [by left|].
      by rewrite added_key_old.
Qed.

Lemma added_consistent :
  consistent s → next_id_above s → consistent (added title prio s).
Proof.
  intros [Hw Hf Hn] [_ Hb]. split.
  - by apply added_well_formed.
  - intros l k. rewrite added_tasks_list, added_tasks_dict, elem_of_app,
      list_elem_of_singleton.
    intros [Hl| ->] Hkey.
    + rewrite added_key_old in Hkey by done.
      specialize (Hf l k Hl Hkey).
      destruct (decide (k = KInt (next_id s))) as [->|Hne].
      * apply Hb in Hf. lia.
      * by rewrite lookup_insert_ne.
    + rewrite added_key_new in Hkey. injection Hkey as <-.
      by rewrite lookup_insert_eq.
  - rewrite added_tasks_list. apply NoDup_app. split; [done|]. split.
    + intros l Hl. rewrite list_elem_of_singleton. intros ->.
      by apply task_not_listed.
    + apply NoDup_singleton.
Qed.
End added.

Section marked.
Variables (task : loc) (d : dict) (s : state).
Hypothesis Hd : heap s !! task = Some d.

Lemma marked_heap :
  heap (marked task d s) = <[task := dict_set d "completed" (VBool true)]> (heap s).
Proof. unfold marked. by rewrite saved_heap. Qed.

Lemma marked_tasks_list : tasks_list (marked task d s) = tasks_list s.
Proof. unfold marked. by rewrite saved_tasks_list. Qed.

Lemma marked_tasks_dict : tasks_dict (marked task d s) = tasks_dict s.
Proof. unfold marked. by rewrite saved_tasks_dict. Qed.

Lemma marked_next_id : next_id (marked task d s) = next_id s.
Proof. unfold marked. by rewrite saved_next_id. Qed.

Lemma marked_field l k :
  field (marked task d s) l k =
    if decide (l = task) then
      if String.eqb "completed" k then Some (VBool true) else field s l k
    else field s l k.
Proof.
  unfold field. rewrite marked_heap. case_decide as Hl.
  - subst l. by rewrite lookup_insert_eq, dict_get_set, Hd.
  - by rewrite lookup_insert_ne.
Qed.

Lemma marked_field_id l : field (marked task d s) l "id" = field s l "id".
Proof. rewrite marked_field. by case_decide. Qed.

Lemma marked_list_closed : list_closed s → list_closed (marked task d s).
Proof.
  intros Hc l. unfold marked at 1. rewrite saved_tasks_list. cbn.
  intros Hl. rewrite marked_heap. destruct (decide (l = task)) as [->|Hne].
  - by rewrite lookup_insert_eq.
  - rewrite lookup_insert_ne by done. by apply Hc.
Qed.

Lemma marked_well_formed : well_formed s → well_formed (marked task d s).
Proof.
  intros Hs. apply (well_formed_transfer s); try done.
  - unfold marked. by rewrite saved_tasks_list.
  - unfold marked. by rewrite saved_tasks_dict.
  - apply marked_field_id.
  - apply marked_list_closed, Hs.
Qed.

Lemma marked_consistent : consistent s → consistent (marked task d s).
Proof.
  intros Hs. apply (consistent_transfer s); try done.
  - unfold marked. by rewrite saved_tasks_list.
  - unfold marked. by rewrite saved_tasks_dict.
  - apply marked_field_id.
  - apply marked_list_closed, Hs.
Qed.

Lemma marked_next_id_above : next_id_above s → next_id_above (marked task d s).
Proof.
  apply next_id_above_transfer.
  - unfold marked. by rewrite saved_tasks_list.
  - unfold marked. by rewrite saved_tasks_dict.
  - unfold marked. by rewrite saved_next_id.
  - apply marked_field_id.
Qed.
End marked.

Section deleted.
Variables (task_id : Z) (t : value) (s : state).

Lemma deleted_tasks_list :
  tasks_list (deleted task_id t s) =
    List.filter (id_differs s task_id) (tasks_list s).
Proof. unfold deleted. by rewrite saved_tasks_list. Qed.

Lemma deleted_tasks_dict :
  tasks_dict (deleted task_id t s) = delete (KInt task_id) (tasks_dict s).
Proof. unfold deleted. by rewrite saved_tasks_dict. Qed.

Lemma deleted_next_id : next_id (deleted task_id t s) = next_id s.
Proof. unfold deleted. by rewrite saved_next_id. Qed.

Lemma deleted_field l k : field (deleted task_id t s) l k = field s l k.
Proof. unfold deleted. by rewrite field_saved. Qed.

Lemma elem_of_deleted l :
  l ∈ tasks_list (deleted task_id t s) ↔
  l ∈ tasks_list s ∧ id_differs s task_id l = true.
Proof.
  by rewrite deleted_tasks_list, !list_elem_of_In, filter_In.
Qed.

Lemma id_differs_key l k :
  key_of s l = Some k → id_differs s task_id l = true ↔ k ≠ KInt task_id.
Proof.
  rewrite key_of_Some. intros (v&Hv&Hk). unfold id_differs. rewrite Hv.
  rewrite negb_true_iff, <-not_true_iff_false, eq_int_hash, Hk.
  split; intros H; congruence.
Qed.

Lemma deleted_well_formed : well_formed s → well_formed (deleted task_id t s).
Proof.
  intros [Hc Hk Hi]. split.
  - intros l. rewrite elem_of_deleted. unfold deleted. rewrite saved_heap.
    intros [Hl _]. by apply Hc.
  - intros l. rewrite elem_of_deleted, (key_of_ext s) by apply deleted_field.
    intros [Hl _]. by apply Hk.
  - intros k l. rewrite deleted_tasks_dict, elem_of_deleted,
      (key_of_ext s) by apply deleted_field.
    intros Hd. apply lookup_delete_Some in Hd as [Hne Hd].
    apply Hi in Hd as [Hl Hkey]. split; [|done]. split; [done|].
    apply (id_differs_key l k); congruence.
Qed.

Lemma deleted_consistent : consistent s → consistent (deleted task_id t s).
Proof.
  intros [Hw Hf Hn]. split.
  - by apply deleted_well_formed.
  - intros l k. rewrite deleted_tasks_dict, elem_of_deleted,
      (key_of_ext s) by apply deleted_field.
    intros [Hl Hdiff] Hkey.
    rewrite lookup_delete_ne; [by apply Hf|].
    intros <-. by apply (id_differs_key l _ Hkey) in Hdiff.
  - rewrite deleted_tasks_list.
    apply NoDup_ListNoDup, List.NoDup_filter. by apply NoDup_ListNoDup.
Qed.

Lemma deleted_next_id_above :
  next_id_above s → next_id_above (deleted task_id t s).
Proof.
  intros [Ha Hb]. split.
  - rewrite above_list_alt in *. intros l v z.
    rewrite elem_of_deleted, deleted_field, deleted_next_id.
    intros [Hl _]. by apply Ha.
  - intros z l. rewrite deleted_tasks_dict, deleted_next_id.
    intros H. apply lookup_delete_Some in H as [_ H]. by apply (Hb z l).
Qed.
End deleted.

Lemma exec_add_spec title prio s :
  list_closed s →
  exec (Add title prio) s = (Ok [VInt (next_id s)], added title prio s).
Proof.
  intros Hc. cbn [exec].
  unfold bind at 1. rewrite add_task_spec by done.
  unfold bind at 1. rewrite obj_get_read.
  rewrite (read_field _ _ _ (VInt (next_id s))); [done|].
  by rewrite added_field_new.
Qed.

(** The outcome of each of the three operations on a well-formed store. *)
Lemma exec_cases (o : op) s :
  well_formed s →
  (exec o s).2 = s
  ∨ (∃ n, (exec o s).2 = set_stdout (stdout s ++ [NotFoundMsg n]) s)
  ∨ (∃ title prio, o = Add title prio ∧ (exec o s).2 = added title prio s
       ∧ (exec o s).1 = Ok [VInt (next_id s)])
  ∨ (∃ task d, heap s !! task = Some d
       ∧ ((exec o s).2 = marked task d s
          ∨ ∃ t, (exec o s).2 =
                   set_stdout (stdout (marked task d s) ++ [CompletedMsg t])
                              (marked task d s)))
  ∨ (∃ n t, (exec o s).2 = deleted n t s).
Proof.
  intros [Hc Hk Hi]. destruct o as [title prio|n|n].
  - right; right; left. exists title, prio. split; [done|].
    by rewrite exec_add_spec.
  - cbn [exec]. unfold bind.
    destruct (tasks_dict s !! KInt n) as [task|] eqn:Hd.
    + pose proof Hd as Hd'. apply Hi in Hd' as [Hl Hkey].
      destruct (Hc task Hl) as [d Hheap].
      assert (d ≠ []) as Hne.
      { apply key_of_Some in Hkey as (v&Hv&_). unfold field in Hv.
        rewrite Hheap in Hv. by destruct d. }
      right; right; right; left. exists task, d. split; [done|].
      rewrite (complete_task_spec n task d) by done.
      destruct (dict_get d "title"); cbn; eauto.
    + right; left. exists n. by rewrite complete_task_absent.
  - cbn [exec]. unfold bind.
    destruct (tasks_dict s !! KInt n) as [task|] eqn:Hd.
    + destruct (field s task "title") as [t|] eqn:Ht.
      * right; right; right; right. exists n, t.
        rewrite (delete_task_spec n task t); try done.
        intros l Hl. destruct (Hk l Hl) as [k Hkey].
        apply key_of_Some in Hkey as (v&Hv&_). eauto.
      * left. rewrite (delete_task_untitled n task); try done.
        apply Hc. by apply Hi in Hd as [? _].
    + right; left. exists n. by rewrite delete_task_absent.
Qed.

(** On a well-formed store the three operations stay within the model. *)
Lemma exec_modelled (o : op) s : well_formed s → (exec o s).1 ≠ Unmodelled.
Proof.
  intros [Hc Hk Hi]. destruct o as [title prio|n|n].
  - by rewrite exec_add_spec.
  - cbn [exec]. unfold bind.
    destruct (tasks_dict s !! KInt n) as [task|] eqn:Hd.
    + pose proof Hd as Hd'. apply Hi in Hd' as [Hl Hkey].
      destruct (Hc task Hl) as [d Hheap].
      assert (d ≠ []) as Hne.
      { apply key_of_Some in Hkey as (v&Hv&_). unfold field in Hv.
        rewrite Hheap in Hv. by destruct d. }
      rewrite (complete_task_spec n task d) by done.
      by destruct (dict_get d "title").
    + by rewrite complete_task_absent.
  - cbn [exec]. unfold bind.
    destruct (tasks_dict s !! KInt n) as [task|] eqn:Hd.
    + destruct (field s task "title") as [t|] eqn:Ht.
      * rewrite (delete_task_spec n task t); try done.
        intros l Hl. destruct (Hk l Hl) as [k Hkey].
        apply key_of_Some in Hkey as (v&Hv&_). eauto.
      * rewrite (delete_task_untitled n task); try done.
        apply Hc. by apply Hi in Hd as [? _].
    + by rewrite delete_task_absent.
Qed.

Lemma printed_well_formed s out :
  well_formed s → well_formed (set_stdout out s).
Proof. intros Hs. apply (well_formed_transfer s); try done. apply Hs. Qed.

Lemma printed_consistent s out : consistent s → consistent (set_stdout out s).
Proof. intros Hs. apply (consistent_transfer s); try done. apply Hs. Qed.

Lemma printed_next_id_above s out :
  next_id_above s → next_id_above (set_stdout out s).
Proof. by apply next_id_above_transfer. Qed.

Lemma exec_preserves (o : op) s :
  well_formed s → next_id_above s →
  well_formed (exec o s).2 ∧ next_id_above (exec o s).2
  ∧ (consistent s → consistent (exec o s).2).
Proof.
  intros Hw Ha.
  destruct (exec_cases o s Hw)
    as [->|[[n ->]|[(title&prio&_&->&_)|[(task&d&Hd&H)|(n&t&->)]]]].
  - done.
  - auto using printed_well_formed, printed_consistent, printed_next_id_above.
  - pose proof (wf_closed s Hw) as Hc.
    split; [by apply added_well_formed|].
    split; [by apply added_next_id_above|].
    intros Hs. by apply added_consistent.
  - destruct H as [->|[t ->]].
    + auto using marked_well_formed, marked_consistent, marked_next_id_above.
    + auto 6 using printed_well_formed, printed_consistent, printed_next_id_above,
        marked_well_formed, marked_consistent, marked_next_id_above.
  - auto using deleted_well_formed, deleted_consistent, deleted_next_id_above.
Qed.

(** C3: after an Add, a Complete or a Delete on a store that satisfies the
    invariants (the two views consistent, [next_id] above every id), the
    index and the ordered sequence hold exactly the same ids, and each
    task of the sequence contributes one id that no other has; the
    invariants hold again, and the call has returned or raised within the
    model. *)
Theorem views_consistent_after_operation (o : op) (s : state) :
  consistent s → next_id_above s →
  same_ids (exec o s).2 ∧ each_id_once (exec o s).2
  ∧ consistent (exec o s).2 ∧ next_id_above (exec o s).2
  ∧ (exec o s).1 ≠ Unmodelled.
Proof.
  intros Hs Ha.
  destruct (exec_preserves o s (cons_wf s Hs) Ha) as (_&Ha'&Hs').
  specialize (Hs' Hs). destruct (consistent_same_ids _ Hs').
  pose proof (exec_modelled o s (cons_wf s Hs)). done.
Qed.

(** ** Loading *)

Section linked.
Variables (d : dict) (k : hkey) (s : state) (i : value).
Hypothesis Hc : list_closed s.
Hypothesis Hi : dict_get d "id" = Some i.
Hypothesis Hk : hash_key i = Ok k.

Local Abbreviation task := (fresh (dom (heap s))).

Lemma linked_tasks_list : tasks_list (linked d k s) = tasks_list s ++ [task].
Proof. done. Qed.

Lemma linked_tasks_dict :
  tasks_dict (linked d k s) = <[k := task]> (tasks_dict s).
Proof. done. Qed.

Lemma linked_field_new f : field (linked d k s) task f = dict_get d f.
Proof. unfold field, linked. cbn. by rewrite lookup_insert_eq. Qed.

Lemma linked_field_old l f :
  is_Some (heap s !! l) → field (linked d k s) l f = field s l f.
Proof.
  intros Hl. unfold field, linked. cbn. rewrite lookup_insert_ne; [done|].
  intros Heq. by apply (closed_not_fresh s l).
Qed.

Lemma linked_key_new : key_of (linked d k s) task = Some k.
Proof. unfold key_of. by rewrite linked_field_new, Hi, Hk. Qed.

Lemma linked_key_old l :
  l ∈ tasks_list s → key_of (linked d k s) l = key_of s l.
Proof. intros Hl. apply key_of_ext, linked_field_old. by apply Hc. Qed.

Lemma linked_list_closed : list_closed (linked d k s).
Proof.
  intros l. cbn. rewrite elem_of_app, list_elem_of_singleton.
  intros [Hl| ->]; [|by rewrite lookup_insert_eq].
  rewrite lookup_insert_ne; [by apply Hc|].
  intros Heq. by apply (closed_not_fresh s l); [apply Hc|].
Qed.

Lemma linked_well_formed : well_formed s → well_formed (linked d k s).
Proof.
  intros [_ Hkeyed Hidx]. split.
  - apply linked_list_closed.
  - intros l. rewrite linked_tasks_list, elem_of_app, list_elem_of_singleton.
    intros [Hl| ->]; [rewrite linked_key_old by done; by apply Hkeyed|].
    by rewrite linked_key_new.
  - intros k' l. rewrite linked_tasks_list, linked_tasks_dict.
    rewrite elem_of_app, list_elem_of_singleton.
    destruct (decide (k' = k)) as [->|Hne].
    + rewrite lookup_insert_eq. intros [= <-].
      split; [by right|apply linked_key_new].
    + rewrite lookup_insert_ne by done. intros Hd.
      apply Hidx in Hd as [Hl Hkey]. split; [by left|].
      by rewrite linked_key_old.
Qed.

Lemma linked_contents : contents (linked d k s) = contents s ++ [d].
Proof.
  unfold contents. cbn [linked tasks_list heap]. rewrite omap_app. cbn.
  rewrite lookup_insert_eq. f_equal.
  apply omap_ext_in. intros l Hl.
  rewrite lookup_insert_ne; [done|].
  intros Heq. by apply (closed_not_fresh s l); [apply Hc|].
Qed.

Lemma load_element_spec : load_element (VDict d) s = (Ok tt, linked d k s).
Proof.
  unfold load_element, linked. mrun. rewrite obj_get_read. unfold read. cbn.
  rewrite lookup_insert_eq. unfold getitem. rewrite Hi. cbn. by rewrite Hk.
Qed.
End linked.

Lemma load_element_inv v s :
  (load_element v s).1 = Ok tt →
  ∃ d i k, v = VDict d ∧ dict_get d "id" = Some i ∧ hash_key i = Ok k.
Proof.
  destruct v as [| | | | |d]; try done.
  unfold load_element. mrun. rewrite obj_get_read. unfold read. cbn.
  rewrite lookup_insert_eq. unfold getitem.
  destruct (dict_get d "id") as [i|] eqn:Hi; [|done]. cbn.
  destruct (hash_key i) as [k| |] eqn:Hk; [|done..].
  intros _. exists d, i, k. done.
Qed.

Lemma dict_key_Some d k :
  dict_key d = Some k ↔ ∃ i, dict_get d "id" = Some i ∧ hash_key i = Ok k.
Proof.
  unfold dict_key. destruct (dict_get d "id") as [i|]; [|split; [done|by intros (?&?&?)]].
  destruct (hash_key i) eqn:E; split; try done.
  - intros [= ->]. eauto.
  - intros (v'&[= <-]&Hk). rewrite E in Hk. by inversion Hk.
  - intros (v'&[= <-]&Hk). by rewrite E in Hk.
  - intros (v'&[= <-]&Hk). by rewrite E in Hk.
Qed.

Lemma for_each_load_spec ds s :
  list_closed s →
  Forall (λ d, is_Some (dict_key d)) ds →
  for_each load_element (map VDict ds) s = (Ok tt, linked_all ds s).
Proof.
  intros Hc Hds. revert s Hc. induction Hds as [|d ds [k Hk] _ IH]; intros s Hc; [done|].
  cbn [map for_each linked_all]. rewrite Hk.
  apply dict_key_Some in Hk as (i&Hi&Hh).
  unfold bind. rewrite (load_element_spec d k s i) by done.
  apply IH. by apply (linked_list_closed d k s).
Qed.

Lemma for_each_load_inv vs s :
  (for_each load_element vs s).1 = Ok tt →
  ∃ ds, vs = map VDict ds ∧ Forall (λ d, is_Some (dict_key d)) ds.
Proof.
  revert s. induction vs as [|v vs IH]; intros s; [by exists []|].
  cbn [for_each]. unfold bind.
  destruct (load_element v s) as [[[]| |] s'] eqn:E; [|done..].
  intros H. apply IH in H as (ds&->&Hds).
  destruct (load_element_inv v s) as (d&i&k&->&Hi&Hk); [by rewrite E|].
  exists (d :: ds). split; [done|]. constructor; [|done].
  exists k. apply dict_key_Some. eauto.
Qed.

Lemma linked_all_props ds s :
  Forall (λ d, is_Some (dict_key d)) ds →
  well_formed s →
  well_formed (linked_all ds s)
  ∧ contents (linked_all ds s) = contents s ++ ds
  ∧ next_id (linked_all ds s) = next_id s
  ∧ length (tasks_list (linked_all ds s)) = (length (tasks_list s) + length ds)%nat.
Proof.
  intros Hds. revert s. induction Hds as [|d ds [k Hk] _ IH]; intros s Hw.
  - cbn. by rewrite app_nil_r, Nat.add_0_r.
  - cbn [linked_all]. rewrite Hk.
    pose proof Hk as Hk'. apply dict_key_Some in Hk' as (i&Hi&Hh).
    pose proof (wf_closed s Hw) as Hc.
    destruct (IH (linked d k s)) as (Hw'&Hcont&Hn&Hlen).
    { by apply (linked_well_formed d k s i). }
    split; [done|]. rewrite Hcont, Hn, Hlen, linked_contents by done.
    rewrite <-app_assoc. cbn. rewrite length_app. cbn. split; [done|]. split; [done|lia].
Qed.

Lemma init_blank s0 : init s0 = load_tasks (blank s0).
Proof. done. Qed.

Lemma blank_well_formed s0 : well_formed (blank s0).
Proof.
  split.
  - intros l Hl. by apply elem_of_nil in Hl.
  - intros l Hl. by apply elem_of_nil in Hl.
  - intros k l. cbn. by rewrite lookup_empty.
Qed.

Lemma id_values_read s :
  well_formed s →
  map_m (λ task, obj_get task "id") (tasks_list s) s = (Ok (id_values s), s).
Proof.
  intros Hw. unfold id_values.
  assert (∀ l, l ∈ tasks_list s → is_Some (field s l "id")) as Hid.
  { intros l Hl. destruct (wf_keyed s Hw l Hl) as [k Hk].
    apply key_of_Some in Hk as (v&Hv&_). eauto. }
  revert Hid. generalize (tasks_list s) as ls.
  induction ls as [|l ls IH]; intros Hid; [done|].
  cbn [map_m omap list_omap]. destruct (Hid l ltac:(left)) as [v Hv].
  unfold bind at 1. rewrite obj_get_read, (read_field _ _ _ _ Hv), Hv.
  unfold bind. rewrite IH; [done|]. intros l' Hl'. apply Hid. by right.
Qed.

Lemma load_tasks_absent s : file s = None → load_tasks s = (Ok tt, s).
Proof. intros Hf. unfold load_tasks, try_except. mrun. by rewrite Hf. Qed.

Lemma load_tasks_unreadable s text :
  file s = Some text → readable s = false →
  load_tasks s = (Ok tt, load_failed IOError s).
Proof.
  intros Hf Hr. unfold load_tasks, try_except, read_json. mrun.
  rewrite Hf. cbn. by rewrite Hr.
Qed.

Lemma load_tasks_undecodable s text e :
  file s = Some text → readable s = true → json_loads text = Raise e →
  e = JSONDecodeError ∨ e = IOError →
  load_tasks s = (Ok tt, load_failed e s).
Proof.
  intros Hf Hr Hj He. unfold load_tasks, try_except, read_json. mrun.
  rewrite Hf. cbn. rewrite Hf, Hr, Hj. by destruct He as [-> | ->].
Qed.

Lemma load_tasks_uncaught s text e :
  file s = Some text → readable s = true → json_loads text = Raise e →
  e ≠ JSONDecodeError → e ≠ IOError →
  load_tasks s = (Raise e, s).
Proof.
  intros Hf Hr Hj H1 H2. unfold load_tasks, try_except, read_json. mrun.
  rewrite Hf. cbn. rewrite Hf, Hr, Hj. by destruct e.
Qed.

Lemma load_tasks_outside s text :
  file s = Some text → readable s = true → json_loads text = Unmodelled →
  load_tasks s = (Unmodelled, s).
Proof.
  intros Hf Hr Hj. unfold load_tasks, try_except, read_json. mrun.
  rewrite Hf. cbn. by rewrite Hf, Hr, Hj.
Qed.

Lemma linked_all_nonempty d ds s :
  Forall (λ d, is_Some (dict_key d)) (d :: ds) → well_formed s →
  tasks_list (linked_all (d :: ds) s) ≠ [].
Proof.
  intros Hds Hw. destruct (linked_all_props _ s Hds Hw) as (_&_&_&Hlen).
  destruct (tasks_list _); [|done]. cbn in Hlen. lia.
Qed.

Lemma max_plus_one_raise ids e :
  max_plus_one ids = Raise e → e = TypeError ∨ e = ValueError.
Proof.
  unfold max_plus_one. destruct ids as [|v vs]; [intros [= <-]; by right|].
  destruct (all_ints (v :: vs)) as [[|z zs]|]; intros [= <-]; by left.
Qed.

Lemma load_tasks_decoded s text ds :
  file s = Some text → readable s = true →
  json_loads text = Ok (VList (map VDict ds)) →
  Forall (λ d, is_Some (dict_key d)) ds →
  tasks_dict s = ∅ →
  load_tasks s =
    match ds with
    | [] => (Ok tt, loaded ds 0 s)
    | _ =>
        match max_plus_one (id_values (linked_all ds (set_tasks_list [] s))) with
        | Ok n => (Ok tt, loaded ds n s)
        | Raise e => (Raise e, linked_all ds (set_tasks_list [] s))
        | Unmodelled => (Unmodelled, linked_all ds (set_tasks_list [] s))
        end
    end.
Proof.
  intros Hf Hr Hj Hds He.
  assert (well_formed (set_tasks_list [] s)) as Hw.
  { split.
    - intros l Hl. by apply elem_of_nil in Hl.
    - intros l Hl. by apply elem_of_nil in Hl.
    - intros k l. cbn. by rewrite He, lookup_empty. }
  unfold load_tasks, try_except, read_json, iterate. mrun.
  rewrite Hf. cbn. rewrite Hf, Hr, Hj. cbn.
  rewrite (for_each_load_spec ds (set_tasks_list [] s)); [|apply Hw|done].
  destruct ds as [|d ds]; [done|].
  pose proof (linked_all_nonempty d ds _ Hds Hw) as Hne.
  destruct (linked_all_props _ _ Hds Hw) as (Hw'&_&_&Hlen).
  unfold loaded.
  set (s1 := linked_all (d :: ds) (set_tasks_list [] s)) in *.
  pose proof (id_values_read s1 Hw') as Hids. clearbody s1.
  destruct (tasks_list s1) as [|l ls] eqn:Hl; [done|].
  cbv beta. rewrite Hids.
  destruct (max_plus_one (id_values s1)) as [n|e|] eqn:Hm; cbn; [| |done].
  - rewrite Hl. cbn in *. injection Hlen as Hlen. by rewrite Hlen.
  - by destruct (max_plus_one_raise _ _ Hm) as [-> | ->].
Qed.

Lemma load_element_raise v s e :
  (load_element v s).1 = Raise e → e = TypeError ∨ e = KeyError.
Proof.
  destruct v as [| | | | |d]; try (intros [= <-]; by left).
  unfold load_element. mrun. rewrite obj_get_read. unfold read. cbn.
  rewrite lookup_insert_eq. unfold getitem.
  destruct (dict_get d "id") as [i|]; cbn; [|intros [= <-]; by right].
  destruct i; cbn; try done; intros [= <-]; by left.
Qed.

Lemma for_each_load_raise vs s e :
  (for_each load_element vs s).1 = Raise e → e = TypeError ∨ e = KeyError.
Proof.
  revert s. induction vs as [|v vs IH]; intros s; [done|].
  cbn [for_each]. unfold bind.
  destruct (load_element v s) as [[[]|e'|] s'] eqn:E; cbn; [apply IH| |done].
  intros [= <-]. apply (load_element_raise v s). by rewrite E.
Qed.

(** A load that returns has read nothing, or failed on decoding or on
    opening, or has read a list of dicts with hashable ids. *)
Lemma load_tasks_ok_doc s text doc :
  file s = Some text → readable s = true → json_loads text = Ok doc →
  (load_tasks s).1 = Ok tt →
  ∃ ds, doc = VList (map VDict ds) ∧ Forall (λ d, is_Some (dict_key d)) ds.
Proof.
  intros Hf Hr Hj. unfold load_tasks, try_except, read_json, iterate. mrun.
  rewrite Hf. cbn. rewrite Hf, Hr, Hj. cbn.
  destruct doc as [| | |str|vs|d]; try done.
  - by destruct str.
  - destruct (for_each load_element vs (set_tasks_list [] s)) as [[[]|e|] s'] eqn:E.
    + intros _. destruct (for_each_load_inv vs (set_tasks_list [] s)) as (ds&->&Hds);
        [by rewrite E|]. by exists ds.
    + destruct (for_each_load_raise vs (set_tasks_list [] s) e) as [-> | ->];
        [by rewrite E|done..].
    + done.
  - by destruct d.
Qed.

Lemma init_ok_cases s0 :
  (init s0).1 = Ok tt →
  (file s0 = None ∧ (init s0).2 = blank s0)
  ∨ (∃ e, (init s0).2 = load_failed e (blank s0))
  ∨ (∃ text ds n,
       file s0 = Some text
       ∧ json_loads text = Ok (VList (map VDict ds))
       ∧ Forall (λ d, is_Some (dict_key d)) ds
       ∧ (init s0).2 = loaded ds n (blank s0)
       ∧ (ds ≠ [] → max_plus_one (id_values (linked_all ds (blank s0))) = Ok n)).
Proof.
  rewrite init_blank. intros Hok.
  destruct (file s0) as [text|] eqn:Hf.
  2:{ left. split; [done|]. by rewrite load_tasks_absent. }
  right. destruct (readable s0) eqn:Hr.
  2:{ left. exists IOError. by rewrite (load_tasks_unreadable _ text). }
  destruct (json_loads text) as [doc|e|] eqn:Hj.
  2:{ left. exists e.
      assert (e = JSONDecodeError ∨ e = IOError) as He.
      { destruct e; auto;
          by rewrite (load_tasks_uncaught (blank s0) text _ Hf Hr Hj) in Hok. }
      by rewrite (load_tasks_undecodable _ text e). }
  2:{ by rewrite (load_tasks_outside _ text) in Hok. }
  right.
  destruct (load_tasks_ok_doc (blank s0) text doc) as (ds&->&Hds); try done.
  rewrite (load_tasks_decoded _ text ds) in Hok |- *; try done.
  destruct ds as [|d ds]; [by exists text, [], 0|].
  change (set_tasks_list [] (blank s0)) with (blank s0) in *.
  destruct (max_plus_one _) as [n| |] eqn:Hm; [|done..].
  by exists text, (d :: ds), n.
Qed.

(** ** [next_id] *)

Lemma hash_key_int v z : hash_key v = Ok (KInt z) ↔ as_int v = Some z.
Proof. destruct v; cbn; split; intros [=]; by subst. Qed.

Lemma all_ints_elem vs zs v z :
  all_ints vs = Some zs → v ∈ vs → as_int v = Some z → z ∈ zs.
Proof.
  revert zs. induction vs as [|v' vs IH]; intros zs; cbn.
  - intros _ Hv. by apply elem_of_nil in Hv.
  - destruct (as_int v') as [z'|] eqn:Hz'; [|done].
    destruct (all_ints vs) as [zs'|]; [|done].
    intros [= <-] Hv Hz. apply elem_of_cons in Hv as [->|Hv].
    + rewrite Hz' in Hz. injection Hz as ->. by left.
    + right. by apply IH.
Qed.

Lemma foldr_max_ge z zs x : x ∈ z :: zs → x ≤ foldr Z.max z zs.
Proof.
  induction zs as [|z' zs IH]; cbn.
  - rewrite list_elem_of_singleton. intros ->. lia.
  - rewrite !elem_of_cons. intros [->|[->|Hx]].
    + specialize (IH ltac:(left)). lia.
    + lia.
    + specialize (IH ltac:(by right)). lia.
Qed.

Lemma max_plus_one_above ids n :
  max_plus_one ids = Ok n →
  ∀ v z, v ∈ ids → as_int v = Some z → z < n.
Proof.
  unfold max_plus_one. destruct ids as [|v0 vs]; [done|].
  destruct (all_ints (v0 :: vs)) as [[|z0 zs]|] eqn:Hall; try done.
  intros [= <-] v z Hv Hz.
  pose proof (all_ints_elem _ _ v z Hall Hv Hz) as Hin.
  apply foldr_max_ge in Hin. lia.
Qed.

Lemma next_id_above_intro s :
  well_formed s →
  (∀ l v z, l ∈ tasks_list s → field s l "id" = Some v → as_int v = Some z →
            z < next_id s) →
  next_id_above s.
Proof.
  intros Hw Ha. split; [by apply above_list_alt|].
  intros z l Hd. apply (wf_index s Hw) in Hd as [Hl Hk].
  apply key_of_Some in Hk as (v&Hv&Hh). apply hash_key_int in Hh. eauto.
Qed.

Lemma loaded_fields ds n s :
  tasks_list (loaded ds n s) = tasks_list (linked_all ds (set_tasks_list [] s))
  ∧ tasks_dict (loaded ds n s) = tasks_dict (linked_all ds (set_tasks_list [] s))
  ∧ heap (loaded ds n s) = heap (linked_all ds (set_tasks_list [] s))
  ∧ next_id (loaded ds n s) =
      match ds with
      | [] => next_id (linked_all ds (set_tasks_list [] s))
      | _ => n
      end.
Proof. unfold loaded. by destruct ds. Qed.

Lemma init_establishes s0 :
  (init s0).1 = Ok tt →
  well_formed (init s0).2 ∧ next_id_above (init s0).2
  ∧ (tasks_list (init s0).2 = [] → next_id (init s0).2 = 1).
Proof.
  intros Hok.
  destruct (init_ok_cases s0 Hok)
    as [[_ ->]|[[e ->]|(text&ds&n&_&_&Hds&->&Hn)]].
  - split; [apply blank_well_formed|]. split; [|done].
    apply next_id_above_intro; [apply blank_well_formed|].
    intros l v z Hl. by apply elem_of_nil in Hl.
  - assert (well_formed (load_failed e (blank s0))) as Hw.
    { split; try (intros l Hl; by apply elem_of_nil in Hl).
      intros k l. cbn. by rewrite lookup_empty. }
    split; [done|]. split; [|done].
    apply next_id_above_intro; [done|].
    intros l v z Hl. by apply elem_of_nil in Hl.
  - destruct (loaded_fields ds n (blank s0)) as (Hl&Hd&Hh&Hnx).
    change (set_tasks_list [] (blank s0)) with (blank s0) in *.
    destruct (linked_all_props ds (blank s0) Hds (blank_well_formed s0))
      as (Hw&_&Hn1&Hlen).
    assert (∀ l k, field (loaded ds n (blank s0)) l k
                   = field (linked_all ds (blank s0)) l k) as Hfld.
    { intros l k. unfold field. by rewrite Hh. }
    assert (well_formed (loaded ds n (blank s0))) as Hw'.
    { apply (well_formed_transfer (linked_all ds (blank s0))); try done.
      intros l. rewrite Hl, Hh. apply Hw. }
    split; [done|]. split.
    + apply next_id_above_intro; [done|].
      intros l v z. rewrite Hl, Hfld, Hnx. intros Hin Hv Hz.
      destruct ds as [|d ds]; [cbn in Hin; by apply elem_of_nil in Hin|].
      apply (max_plus_one_above _ n (Hn ltac:(done)) v z); [|done].
      unfold id_values. apply list_elem_of_omap. eauto.
    + rewrite Hl, Hnx. destruct ds as [|d ds]; [done|].
      intros Hnil. rewrite Hnil in Hlen. cbn in Hlen. lia.
Qed.

Lemma exec_other_ids (o : op) s ids :
  (∀ title prio, o ≠ Add title prio) → (exec o s).1 = Ok ids → ids = [].
Proof.
  destruct o as [title prio|n|n]; intros Hne; [by destruct (Hne title prio)|..];
    cbn [exec]; unfold bind.
  - destruct (complete_task n s) as [[[]| |] s']; cbn; [|done..]. by intros [= <-].
  - destruct (delete_task n s) as [[[]| |] s']; cbn; [|done..]. by intros [= <-].
Qed.

Lemma exec_other_next_id (o : op) s :
  well_formed s → (∀ title prio, o ≠ Add title prio) →
  next_id (exec o s).2 = next_id s.
Proof.
  intros Hw Hne.
  destruct (exec_cases o s Hw)
    as [->|[[n ->]|[(title&prio&->&_)|[(task&d&Hd&H)|(n&t&->)]]]]; try done.
  - by destruct (Hne title prio).
  - destruct H as [->|[t ->]]; cbn; unfold marked; by rewrite saved_next_id.
  - apply deleted_next_id.
Qed.

Lemma exec_all_spec (ops : list op) s :
  well_formed s → next_id_above s →
  well_formed (exec_all ops s).2 ∧ next_id_above (exec_all ops s).2
  ∧ next_id s ≤ next_id (exec_all ops s).2
  ∧ ∃ zs, (exec_all ops s).1 = map VInt zs
          ∧ StronglySorted Z.lt zs
          ∧ Forall (λ z, next_id s ≤ z < next_id (exec_all ops s).2) zs.
Proof.
  revert s. induction ops as [|o ops IH]; intros s Hw Ha.
  { cbn. split; [done|]. split; [done|]. split; [lia|].
    exists []. split; [done|]. split; constructor. }
  cbn [exec_all].
  destruct (exec_preserves o s Hw Ha) as (Hw'&Ha'&_).
  assert (next_id s ≤ next_id (exec o s).2) as Hle.
  { destruct o as [title prio|n|n].
    - rewrite exec_add_spec by apply Hw. cbn [snd]. rewrite added_next_id. lia.
    - rewrite exec_other_next_id; [lia|done..].
    - rewrite exec_other_next_id; [lia|done..]. }
  destruct (exec o s) as [[ids| |] s'] eqn:E; cbn [fst snd] in *.
  2,3: split; [done|]; split; [done|]; split; [done|];
    exists []; split; [done|]; split; constructor.
  destruct (IH s' Hw' Ha') as (Hw''&Ha''&Hle'&zs&Hzs&Hsorted&Hbound).
  destruct (exec_all ops s') as [ids' s''] eqn:E'; cbn [fst snd] in *.
  split; [done|]. split; [done|]. split; [lia|].
  destruct o as [title prio|n|n].
  - rewrite exec_add_spec in E by apply Hw. injection E as <- <-.
    rewrite added_next_id in *.
    exists (next_id s :: zs). cbn. rewrite Hzs. split; [done|]. split.
    + constructor; [done|]. eapply Forall_impl; [exact Hbound|].
      cbn. intros z. lia.
    + constructor; [lia|]. eapply Forall_impl; [exact Hbound|].
      cbn. intros z. lia.
  - rewrite (exec_other_ids (Complete n) s ids); [|done|by rewrite E].
    exists zs. split; [done|]. split; [done|].
    eapply Forall_impl; [exact Hbound|]. cbn. intros z. lia.
  - rewrite (exec_other_ids (Delete n) s ids); [|done|by rewrite E].
    exists zs. split; [done|]. split; [done|].
    eapply Forall_impl; [exact Hbound|]. cbn. intros z. lia.
Qed.

(** C4: in a store built by [TodoApp(filename)], [next_id] is 1 when no
    task was loaded; and after any sequence of Add, Complete and Delete,
    [next_id] is above every id of the store, the ids that the Adds
    returned are strictly increasing, and each of them is above every id
    the store held at the start. *)
Theorem ids_increase (s0 : state) (ops : list op) :
  (init s0).1 = Ok tt →
  (tasks_list (init s0).2 = [] → next_id (init s0).2 = 1)
  ∧ next_id_above (exec_all ops (init s0).2).2
  ∧ ∃ zs, (exec_all ops (init s0).2).1 = map VInt zs
          ∧ StronglySorted Z.lt zs
          ∧ Forall (λ z, Forall (λ i, i < z) (int_ids (init s0).2)) zs.
Proof.
  intros Hok. destruct (init_establishes s0 Hok) as (Hw&Ha&H1).
  split; [done|].
  destruct (exec_all_spec ops _ Hw Ha) as (_&Ha'&_&zs&Hzs&Hsorted&Hbound).
  split; [done|]. exists zs. split; [done|]. split; [done|].
  eapply Forall_impl; [exact Hbound|]. cbn. intros z Hz.
  eapply Forall_impl; [exact (above_list _ Ha)|]. cbn. intros i. lia.
Qed.

(** ** Complete and Delete *)

Lemma complete_task_present task_id task d t s :
  list_closed s →
  tasks_dict s !! KInt task_id = Some task →
  heap s !! task = Some d →
  dict_get d "title" = Some t →
  complete_task task_id s =
    (Ok tt, set_stdout (stdout (marked task d s) ++ [CompletedMsg t])
                       (marked task d s)).
Proof.
  intros Hc Hk Hd Ht. rewrite (complete_task_spec task_id task d); try done.
  - by rewrite Ht.
  - by destruct d.
Qed.

(** C5: on an id of the index whose task has a title, [complete_task]
    returns, sets ["completed"] to [True] on the one object that the index
    and the ordered sequence share, so that the flag reads [True] by id
    and by position, and prints the success line; a second call does the
    same and the flag is still [True].  On an id that the index does not
    have it prints the not-found line and changes nothing else. *)
Theorem complete_task_marks (task_id : Z) (s : state) :
  well_formed s →
  (∀ task t,
     tasks_dict s !! KInt task_id = Some task →
     field s task "title" = Some t →
     let s1 := (complete_task task_id s).2 in
     let s2 := (complete_task task_id s1).2 in
     (complete_task task_id s).1 = Ok tt
     ∧ by_id s1 task_id "completed" = Some (VBool true)
     ∧ (∃ i, tasks_list s1 !! i = Some task)
     ∧ (∀ i, tasks_list s1 !! i = Some task →
             by_position s1 i "completed" = Some (VBool true))
     ∧ last (stdout s1) = Some (CompletedMsg t)
     ∧ (complete_task task_id s1).1 = Ok tt
     ∧ by_id s2 task_id "completed" = Some (VBool true)
     ∧ (∀ i, tasks_list s2 !! i = Some task →
             by_position s2 i "completed" = Some (VBool true))
     ∧ last (stdout s2) = Some (CompletedMsg t)
     ∧ tasks_list s2 = tasks_list s ∧ tasks_dict s2 = tasks_dict s
     ∧ next_id s2 = next_id s)
  ∧ (tasks_dict s !! KInt task_id = None →
     complete_task task_id s =
       (Ok tt, set_stdout (stdout s ++ [NotFoundMsg task_id]) s)).
Proof.
  intros Hw. split; [|apply complete_task_absent].
  intros task t Hk Ht.
  destruct (wf_index s Hw _ _ Hk) as [Hl _].
  destruct (wf_closed s Hw task Hl) as [d Hd].
  assert (dict_get d "title" = Some t) as Ht' by (unfold field in Ht; by rewrite Hd in Ht).
  rewrite (complete_task_present task_id task d t s); [|apply Hw|done..].
  cbn [fst snd].
  set (s1 := set_stdout _ (marked task d s)).
  assert (tasks_list s1 = tasks_list s) as Hl1 by apply marked_tasks_list.
  assert (tasks_dict s1 = tasks_dict s) as Hd1 by apply marked_tasks_dict.
  assert (next_id s1 = next_id s) as Hn1 by apply marked_next_id.
  assert (∀ l k, field s1 l k = field (marked task d s) l k) as Hf1 by done.
  set (d1 := dict_set d "completed" (VBool true)).
  assert (heap s1 !! task = Some d1) as Hh1.
  { unfold s1. cbn. by rewrite (marked_heap task d s), lookup_insert_eq. }
  assert (dict_get d1 "title" = Some t) as Ht1
    by (unfold d1; by rewrite dict_get_set).
  assert (list_closed s1) as Hc1.
  { apply (list_closed_ext (marked task d s)); [done..|].
    apply marked_list_closed, Hw. }
  rewrite (complete_task_present task_id task d1 t s1); [|done|by rewrite Hd1|done..].
  cbn [fst snd].
  set (s2 := set_stdout _ (marked task d1 s1)).
  assert (∀ l k, field s2 l k = field (marked task d1 s1) l k) as Hf2 by done.
  assert (field s1 task "completed" = Some (VBool true)) as Hdone1.
  { rewrite Hf1, (marked_field task d s Hd). by rewrite decide_True. }
  assert (field s2 task "completed" = Some (VBool true)) as Hdone2.
  { rewrite Hf2, (marked_field task d1 s1 Hh1). by rewrite decide_True. }
  assert (tasks_list s2 = tasks_list s) as Hl2
    by (rewrite <-Hl1; apply marked_tasks_list).
  assert (tasks_dict s2 = tasks_dict s) as Hd2
    by (rewrite <-Hd1; apply marked_tasks_dict).
  assert (next_id s2 = next_id s) as Hn2
    by (rewrite <-Hn1; apply marked_next_id).
  split; [done|]. split; [by unfold by_id; rewrite Hd1, Hk|].
  split; [rewrite Hl1; by apply list_elem_of_lookup|].
  split; [intros i Hi; unfold by_position; by rewrite Hi|].
  split; [unfold s1; cbn; by rewrite last_snoc|].
  split; [done|]. split; [by unfold by_id; rewrite Hd2, Hk|].
  split; [intros i Hi; unfold by_position; by rewrite Hi|].
  split; [unfold s2; cbn; by rewrite last_snoc|].
  done.
Qed.

(** C6: [delete_task] on an id that the index does not have returns,
    prints the not-found line, and leaves the ordered sequence, the index,
    [next_id], the task objects and the file as they were. *)
Theorem delete_absent_changes_nothing (task_id : Z) (s : state) :
  tasks_dict s !! KInt task_id = None →
  (delete_task task_id s).1 = Ok tt
  ∧ tasks_list (delete_task task_id s).2 = tasks_list s
  ∧ tasks_dict (delete_task task_id s).2 = tasks_dict s
  ∧ next_id (delete_task task_id s).2 = next_id s
  ∧ heap (delete_task task_id s).2 = heap s
  ∧ file (delete_task task_id s).2 = file s
  ∧ stdout (delete_task task_id s).2 = stdout s ++ [NotFoundMsg task_id].
Proof. intros Hk. by rewrite delete_task_absent. Qed.

(** ** Statistics *)

Lemma percent_half : percent 1 2 = 50%float.
Proof. reflexivity. Qed.

Lemma percent_third : percent 1 3 = 0x1.0aaaaaaaaaaaap+5%float.
Proof. reflexivity. Qed.

Lemma percent_rate_spec c t :
  0 ≤ c < 2 ^ 53 → 0 ≤ t < 2 ^ 53 →
  Prim2SF (percent c t) = rate_spec c t.
Proof.
  intros Hc Ht. unfold percent, rate_spec, float_of_Z, binary64_of_Z.
  rewrite FloatAxioms.mul_spec, FloatAxioms.div_spec, !FloatAxioms.of_uint63_spec.
  rewrite !Uint63.of_Z_spec.
  assert (2 ^ 53 < wB) as Hw by (vm_compute; reflexivity).
  by rewrite !Z.mod_small by lia.
Qed.

(** C8: when every task has a ["completed"] field, [get_statistics]
    returns, changes nothing, and gives the number of tasks as total, the
    number of those whose flag is true as completed, their difference as
    pending, and as completion rate the integer 0 for an empty store and
    otherwise the float that IEEE 754 arithmetic gives for
    completed / total * 100. *)
Theorem get_statistics_counts (s : state) :
  (∀ l, l ∈ tasks_list s → is_Some (field s l "completed")) →
  ∃ st, get_statistics s = (Ok st, s)
    ∧ total st = Z.of_nat (length (tasks_list s))
    ∧ completed st = Z.of_nat (length (List.filter (is_completed s) (tasks_list s)))
    ∧ pending st = total st - completed st
    ∧ completion_rate st =
        (if total st =? 0 then NInt 0
         else NFloat (percent (completed st) (total st)))
    ∧ (tasks_list s = [] → st = Stats 0 0 0 (NInt 0))
    ∧ (0 < total st < 2 ^ 53 →
       ∃ rate, completion_rate st = NFloat rate
               ∧ Prim2SF rate = rate_spec (completed st) (total st)).
Proof.
  intros Hc. unfold get_statistics. mrun.
  rewrite (filter_m_ok _ (is_completed s)).
  2:{ intros l Hl. destruct (Hc l Hl) as [c Hcl]. mrun.
      rewrite obj_get_read, (read_field _ _ _ _ Hcl).
      unfold is_completed. by rewrite Hcl. }
  eexists. split; [done|]. cbn [total completed pending completion_rate].
  split; [done|]. split; [done|]. split; [done|]. split; [|split].
  - destruct (tasks_list s); [done|]. cbn [length].
    by destruct (Z.of_nat (S _)) eqn:E.
  - by intros ->.
  - intros Ht. eexists. split.
    + destruct (0 <? Z.of_nat (length (tasks_list s))) eqn:E; [done|lia].
    + apply percent_rate_spec; [|lia]. split; [lia|].
      pose proof (filter_length_le (is_completed s) (tasks_list s)). lia.
Qed.

(** ** Sorting *)

Section sort_by.
Context {A : Type} (k : A → Z).

Lemma insert_keyed_decorate x l :
  insert_keyed (k x) x (map (λ y, (k y, y)) l)
  = map (λ y, (k y, y)) (insert_by k x l).
Proof.
  induction l as [|y l IH]; cbn; [done|].
  destruct (k x <=? k y); cbn; [done|]. by rewrite IH.
Qed.

Lemma sort_keyed_decorate l :
  sort_keyed (combine (map k l) l) = map (λ y, (k y, y)) (sort_by k l).
Proof.
  induction l as [|x l IH]; cbn; [done|].
  by rewrite IH, insert_keyed_decorate.
Qed.

Lemma insert_by_perm x l : insert_by k x l ≡ₚ x :: l.
Proof.
  induction l as [|y l IH]; cbn; [done|].
  destruct (k x <=? k y); [done|]. rewrite IH. apply Permutation_swap.
Qed.

Lemma sort_by_perm l : sort_by k l ≡ₚ l.
Proof.
  induction l as [|x l IH]; cbn; [done|]. by rewrite insert_by_perm, IH.
Qed.

Lemma insert_by_sorted x l :
  StronglySorted (λ a b, k a ≤ k b) l →
  StronglySorted (λ a b, k a ≤ k b) (insert_by k x l).
Proof.
  induction 1 as [|y l Hs IH Hy]; cbn; [repeat constructor|].
  destruct (k x <=? k y) eqn:E.
  - apply Z.leb_le in E. constructor; [by constructor|].
    constructor; [done|]. eapply Forall_impl; [exact Hy|]. cbn. lia.
  - apply Z.leb_gt in E. constructor; [done|].
    rewrite insert_by_perm. constructor; [lia|done].
Qed.

Lemma sort_by_sorted l : StronglySorted (λ a b, k a ≤ k b) (sort_by k l).
Proof.
  induction l as [|x l IH]; cbn; [constructor|]. by apply insert_by_sorted.
Qed.

(** Stability: the elements of one key come out in the order they went
    in. *)
Lemma insert_by_filter r x l :
  List.filter (λ a, k a =? r) (insert_by k x l)
  = List.filter (λ a, k a =? r) (x :: l).
Proof.
  induction l as [|y l IH]; cbn; [done|].
  destruct (k x <=? k y) eqn:E; cbn; [done|].
  cbn in IH. rewrite IH. apply Z.leb_gt in E.
  destruct (k x =? r) eqn:Ex, (k y =? r) eqn:Ey; try done. lia.
Qed.

Lemma sort_by_stable r l :
  List.filter (λ a, k a =? r) (sort_by k l) = List.filter (λ a, k a =? r) l.
Proof.
  induction l as [|x l IH]; cbn; [done|].
  rewrite insert_by_filter. cbn. by rewrite IH.
Qed.

(** A list whose keys are all the same is left as it is. *)
Lemma sort_by_constant r l :
  Forall (λ a, k a = r) l → sort_by k l = l.
Proof.
  intros Hl.
  assert (∀ l', Forall (λ a, k a = r) l' → List.filter (λ a, k a =? r) l' = l') as Hid.
  { induction 1 as [|a l' Ha _ IH]; cbn; [done|].
    rewrite (proj2 (Z.eqb_eq _ _) Ha). by rewrite IH. }
  transitivity (List.filter (λ a, k a =? r) (sort_by k l)).
  - symmetry. apply Hid. by rewrite sort_by_perm.
  - rewrite sort_by_stable. by apply Hid.
Qed.

Lemma sorted_spec (key : A → M Z) l s :
  map_m key l s = (Ok (map k l), s) →
  sorted key l s = (Ok (sort_by k l), s).
Proof.
  intros H. unfold sorted, bind. rewrite H. unfold ret.
  rewrite sort_keyed_decorate, map_map. cbn. by rewrite map_id.
Qed.
End sort_by.

(** ** Listing *)

Lemma is_priority_cases p :
  is_priority p = true → ∃ q, p = priority_str q.
Proof.
  unfold is_priority. cbn. rewrite !orb_true_iff, !String.eqb_eq.
  intros [->|[->|[->|?]]]; [by exists High|by exists Medium|by exists Low|done].
Qed.

Lemma well_typed_fields d :
  well_typed d = true →
  ∃ i t q c created,
    dict_get d "id" = Some (VInt i) ∧ dict_get d "title" = Some (VStr t)
    ∧ dict_get d "priority" = Some (VStr (priority_str q))
    ∧ dict_get d "completed" = Some (VBool c)
    ∧ dict_get d "created_at" = Some (VStr created).
Proof.
  unfold well_typed.
  destruct (dict_get d "id") as [[| |i| | |]|]; try done.
  destruct (dict_get d "title") as [[| | |t| |]|]; try done.
  destruct (dict_get d "priority") as [[| | |p| |]|]; try done.
  destruct (dict_get d "completed") as [[|c| | | |]|]; try done.
  destruct (dict_get d "created_at") as [[| | |created| |]|]; try done.
  intros [q ->]%is_priority_cases. by exists i, t, q, c, created.
Qed.

Lemma read_same_heap s s' l k : heap s' = heap s → read s' l k = read s l k.
Proof. unfold read. by intros ->. Qed.

Lemma has_priority_rank s p l :
  has_priority s p l = (rank_of s l =? rank p).
Proof.
  unfold has_priority, rank_of. destruct (priority_of s l) as [q|]; [done|].
  by destruct p.
Qed.

Section typed.
Variables (s : state) (l : loc).
Hypothesis Hs : store_typed s.
Hypothesis Hl : l ∈ tasks_list s.

Lemma typed_priority :
  ∃ q, field s l "priority" = Some (VStr (priority_str q))
       ∧ priority_of s l = Some q.
Proof.
  destruct (Hs l Hl) as (d&Hd&Ht).
  destruct (well_typed_fields d Ht) as (i&t&q&c&created&_&_&Hp&_).
  exists q. unfold priority_of, field. rewrite Hd, Hp. split; [done|].
  by destruct q.
Qed.

Lemma typed_key s' :
  heap s' = heap s → priority_key l s' = (Ok (rank_of s l), s').
Proof.
  intros Hh. rewrite priority_key_read. unfold key_result.
  rewrite (read_same_heap s) by done.
  destruct typed_priority as (q&Hp&Hq).
  rewrite (read_field _ _ _ _ Hp). unfold rank_of. rewrite Hq.
  by destruct q.
Qed.

Lemma typed_filter s' f :
  heap s' = heap s →
  bind (obj_get l "priority") (λ p, ret (eq_str p (priority_str f))) s'
  = (Ok (has_priority s f l), s').
Proof.
  intros Hh. unfold bind. rewrite obj_get_read, (read_same_heap s) by done.
  destruct typed_priority as (q&Hp&Hq).
  rewrite (read_field _ _ _ _ Hp). unfold ret, has_priority. rewrite Hq.
  by destruct q, f.
Qed.

Lemma typed_row s' :
  heap s' = heap s →
  ∃ r, row_of s l = Some r
       ∧ show_row l s' = (Ok tt, set_stdout (stdout s' ++ [RowMsg r]) s').
Proof.
  intros Hh. destruct (Hs l Hl) as (d&Hd&Ht).
  destruct (well_typed_fields d Ht) as (i&t&q&c&created&Hi&Htt&Hp&Hc&Hcr).
  assert (∀ k v, dict_get d k = Some v → field s l k = Some v) as Hf
    by (intros k v Hk; unfold field; by rewrite Hd).
  assert (∀ k v, dict_get d k = Some v → obj_get l k s' = (Ok v, s')) as Hg.
  { intros k v Hk. rewrite obj_get_read, (read_same_heap s) by done.
    by rewrite (read_field _ _ _ v) by by apply Hf. }
  unfold row_of, show_row.
  rewrite (Hf _ _ Hi), (Hf _ _ Htt), (Hf _ _ Hp), (Hf _ _ Hc), (Hf _ _ Hcr).
  rewrite (bind_ok _ _ _ _ _ (Hg _ _ Hc)); cbv beta.
  rewrite (bind_ok _ _ _ _ _ (Hg _ _ Hi)); cbv beta.
  unfold bind at 1, lift at 1; cbn [format_d].
  rewrite (bind_ok _ _ _ _ _ (Hg _ _ Htt)); cbv beta.
  unfold bind at 1, lift at 1; cbn [format_s].
  rewrite (bind_ok _ _ _ _ _ (Hg _ _ Hp)); cbv beta.
  destruct q; unfold bind at 1, lift at 1; cbn;
    rewrite (bind_ok _ _ _ _ _ (Hg _ _ Hcr)); eexists; split; done.
Qed.
End typed.

Lemma for_each_show_row s ls s' :
  store_typed s → (∀ l, l ∈ ls → l ∈ tasks_list s) → heap s' = heap s →
  for_each show_row ls s'
  = (Ok tt, set_stdout (stdout s' ++ map RowMsg (omap (row_of s) ls)) s')
  ∧ length (omap (row_of s) ls) = length ls.
Proof.
  intros Hs. revert s'. induction ls as [|l ls IH]; intros s' Hin Hh.
  { cbn. rewrite app_nil_r. by destruct s'. }
  destruct (typed_row s l Hs (Hin l ltac:(left)) s' Hh) as (r&Hr&Hshow).
  cbn [for_each omap list_omap]. rewrite Hr. unfold bind. rewrite Hshow.
  destruct (IH (set_stdout (stdout s' ++ [RowMsg r]) s')) as [IH1 IH2];
    [intros l' Hl'; apply Hin; by right|done|].
  rewrite IH1. cbn. rewrite IH2. split; [|done].
  by rewrite <-app_assoc.
Qed.

Lemma selected_listed s f l : l ∈ selected s f → l ∈ tasks_list s.
Proof.
  destruct f as [p|]; cbn; [|done].
  rewrite list_elem_of_In, filter_In, <-list_elem_of_In. by intros [? _].
Qed.

Lemma shown_listed s f l : l ∈ shown s f → l ∈ tasks_list s.
Proof. unfold shown. rewrite sort_by_perm. apply selected_listed. Qed.

Lemma list_tasks_spec (f : option priority) s :
  store_typed s → tasks_list s ≠ [] →
  list_tasks (priority_str <$> f) s
  = (Ok tt,
     set_stdout (stdout s ++ ListHeader :: map RowMsg (omap (row_of s) (shown s f))
                          ++ [ListFooter]) s).
Proof.
  intros Hs Hne. unfold list_tasks. unfold bind at 1, gets at 1.
  destruct (tasks_list s) as [|l0 ls0] eqn:Hls; [done|]. rewrite <-Hls.
  unfold bind at 1, print at 1, modify at 1.
  set (s1 := set_stdout (stdout s ++ [ListHeader]) s).
  assert (heap s1 = heap s) as Hh by done.
  assert (∃ ts, ts = selected s f ∧
            match priority_str <$> f with
            | Some f' =>
                if truthy (VStr f') then
                  filter_m (λ t, p ← obj_get t "priority"; ret (eq_str p f'))
                           (tasks_list s)
                else ret (tasks_list s)
            | None => ret (tasks_list s)
            end s1 = (Ok ts, s1)) as (ts&Hts&Hsel).
  { eexists. split; [done|]. destruct f as [p|]; cbn [fmap option_fmap option_map selected]; [|done].
    replace (truthy (VStr (priority_str p))) with true by by destruct p.
    apply filter_m_ok. intros l Hl. by apply typed_filter. }
  rewrite (bind_ok _ _ _ _ _ Hsel).
  assert (sorted priority_key ts s1 = (Ok (shown s f), s1)) as Hsort.
  { unfold shown. rewrite <-Hts. apply sorted_spec. apply map_m_ok.
    intros l Hl. apply typed_key; [done| |done].
    apply (selected_listed s f). by rewrite <-Hts. }
  rewrite (bind_ok _ _ _ _ _ Hsort).
  destruct (for_each_show_row s (shown s f) s1 Hs (shown_listed s f) Hh) as [Hrows _].
  rewrite (bind_ok _ _ _ _ _ Hrows).
  unfold print, modify. cbn. by rewrite <-!app_assoc.
Qed.

(** C1: on a store whose tasks follow the data model, [list_tasks] returns
    and prints, between the header and the footer, one row for each task
    it shows; the tasks shown are those of the store, or those of the rank
    asked for, in ascending rank (High, Medium, Low), the tasks of one
    rank in the order the store has them.  With the filter Low they are
    exactly the Low tasks in store order.  An empty store prints the
    no-task line. *)
Theorem list_tasks_sorted (f : option priority) (s : state) :
  store_typed s →
  list_tasks (priority_str <$> f) s
  = (Ok tt,
     match tasks_list s with
     | [] => set_stdout (stdout s ++ [NoTasksMsg]) s
     | _ => set_stdout (stdout s ++ ListHeader
                          :: map RowMsg (omap (row_of s) (shown s f))
                          ++ [ListFooter]) s
     end)
  ∧ length (omap (row_of s) (shown s f)) = length (shown s f)
  ∧ shown s f ≡ₚ selected s f
  ∧ StronglySorted (λ a b, rank_of s a ≤ rank_of s b) (shown s f)
  ∧ (∀ p, List.filter (has_priority s p) (shown s f)
          = List.filter (has_priority s p) (selected s f))
  ∧ (f = Some Low → shown s f = List.filter (has_priority s Low) (tasks_list s)).
Proof.
  intros Hs. split; [|split; [|split; [|split; [|split]]]].
  - destruct (tasks_list s) as [|l ls] eqn:Hls.
    + unfold list_tasks. mrun. by rewrite Hls.
    + apply list_tasks_spec; [done|]. by rewrite Hls.
  - destruct (tasks_list s) as [|l ls] eqn:Hls.
    + unfold shown, selected. rewrite Hls. by destruct f.
    + by destruct (for_each_show_row s (shown s f) s Hs (shown_listed s f)).
  - apply sort_by_perm.
  - apply sort_by_sorted.
  - intros p. unfold shown.
    rewrite !(filter_ext (has_priority s p) (λ a, rank_of s a =? rank p))
      by (intros; apply has_priority_rank).
    apply sort_by_stable.
  - intros ->. unfold shown. apply (sort_by_constant _ (rank Low)).
    cbn [selected]. apply Forall_forall. intros l.
    rewrite list_elem_of_In, filter_In, has_priority_rank, Z.eqb_eq.
    by intros [_ ?].
Qed.

(** ** Priorities outside the three ranks *)

Lemma priority_order_text p :
  dict_index priority_order (VStr p)
  = if is_priority p
    then Ok (if String.eqb p "高" then 1 else if String.eqb p "中" then 2 else 3)
    else Raise KeyError.
Proof.
  unfold dict_index, is_priority, priority_order. cbn [hash_key assoc existsb].
  rewrite !(String.eqb_sym _ p), orb_false_r.
  by destruct (String.eqb p "高"), (String.eqb p "中"), (String.eqb p "低").
Qed.

Lemma collect_key_error {B} (rs : list (result B)) :
  Forall (λ r, (∃ b, r = Ok b) ∨ r = Raise KeyError) rs →
  Exists (λ r, r = Raise KeyError) rs →
  collect rs = Raise KeyError.
Proof.
  induction 1 as [|r rs Hr _ IH]; intros Hex; [by inversion Hex|].
  destruct Hr as [[b ->]| ->]; [|done].
  cbn. inversion Hex as [? ? Heq|? ? Hex']; subst; [done|]. by rewrite IH.
Qed.

Lemma keys_raise s s' :
  tasks_list s' = tasks_list s → heap s' = heap s →
  priorities_text s → some_priority_invalid s →
  map_m priority_key (tasks_list s') s' = (Raise KeyError, s').
Proof.
  intros Hl Hh Htext (l&p&Hin&Hp&Hbad).
  rewrite (map_m_reads priority_key (key_result s'))
    by (intros l'; apply priority_key_read).
  rewrite collect_key_error; [done|..].
  - apply Forall_forall. intros r. rewrite list_elem_of_In, in_map_iff.
    intros (l'&<-&Hl'). rewrite <-list_elem_of_In, Hl in Hl'.
    destruct (Htext l' Hl') as [p' Hp']. unfold key_result.
    rewrite (read_same_heap s) by done. rewrite (read_field _ _ _ _ Hp').
    rewrite priority_order_text. destruct (is_priority p'); eauto.
  - apply Exists_exists. exists (Raise KeyError). split; [|done].
    apply list_elem_of_In, in_map_iff. exists l.
    split; [|apply list_elem_of_In; by rewrite Hl].
    unfold key_result. rewrite (read_same_heap s) by done.
    rewrite (read_field _ _ _ _ Hp), priority_order_text. by rewrite Hbad.
Qed.

Lemma sort_by_priority_raises s s' :
  tasks_list s' = tasks_list s → heap s' = heap s →
  priorities_text s → some_priority_invalid s →
  sort_by_priority s' = (Raise KeyError, s').
Proof.
  intros Hl Hh Htext Hbad. unfold sort_by_priority, sorted.
  unfold bind at 1, gets at 1.
  by rewrite (bind_raise _ _ _ _ _ (keys_raise s s' Hl Hh Htext Hbad)).
Qed.

Lemma list_tasks_raises s s' :
  tasks_list s' = tasks_list s → heap s' = heap s →
  priorities_text s → some_priority_invalid s →
  list_tasks None s' = (Raise KeyError, set_stdout (stdout s' ++ [ListHeader]) s').
Proof.
  intros Hl Hh Htext Hbad.
  pose proof (keys_raise s (set_stdout (stdout s' ++ [ListHeader]) s')
                Hl Hh Htext Hbad) as Hkeys.
  change (tasks_list (set_stdout _ s')) with (tasks_list s') in Hkeys.
  assert (tasks_list s' ≠ []) as Hne.
  { destruct Hbad as (l&p&Hin&_). rewrite <-Hl in Hin. intros Hnil.
    rewrite Hnil in Hin. by apply elem_of_nil in Hin. }
  unfold list_tasks. unfold bind at 1, gets at 1.
  destruct (tasks_list s') as [|l0 ls] eqn:Hls; [done|].
  unfold bind at 1, print at 1, modify at 1.
  unfold bind at 1, ret at 1. unfold sorted.
  rewrite (bind_raise _ _ _ KeyError (set_stdout (stdout s' ++ [ListHeader]) s'));
    [done|].
  by apply bind_raise.
Qed.


(** ** Saving, then loading *)

Lemma contents_ext s s' :
  tasks_list s' = tasks_list s → heap s' = heap s → contents s' = contents s.
Proof. unfold contents. by intros -> ->. Qed.

Lemma elem_of_contents s d :
  d ∈ contents s ↔ ∃ l, l ∈ tasks_list s ∧ heap s !! l = Some d.
Proof. unfold contents. by rewrite list_elem_of_omap. Qed.

Lemma id_values_contents s :
  list_closed s → id_values s = omap (λ d, dict_get d "id") (contents s).
Proof.
  intros Hc. unfold id_values, contents, field.
  revert Hc. unfold list_closed. generalize (tasks_list s) as ls.
  induction ls as [|l ls IH]; intros Hc; [done|].
  destruct (Hc l ltac:(left)) as [d Hd]. cbn. rewrite Hd. cbn.
  rewrite IH by (intros l' Hl'; apply Hc; by right). done.
Qed.

Lemma all_ints_total vs :
  Forall (λ v, is_Some (as_int v)) vs → is_Some (all_ints vs).
Proof.
  induction 1 as [|v vs [z Hz] _ [zs IH]]; cbn; [done|]. by rewrite Hz, IH.
Qed.

Lemma max_plus_one_total v vs :
  Forall (λ v, is_Some (as_int v)) (v :: vs) → ∃ n, max_plus_one (v :: vs) = Ok n.
Proof.
  intros H. unfold max_plus_one. destruct (all_ints_total _ H) as [zs Hzs].
  rewrite Hzs. destruct zs as [|z zs]; [|by eexists].
  cbn in Hzs. destruct (as_int v), (all_ints vs); done.
Qed.

(** How [save_tasks] and [load_tasks] fit together, for any pair of
    library functions: if reading gives back the document that was
    written, a new instance built on the file [save_tasks] left holds the
    ordered task sequence of the store that was saved. *)
Lemma save_load_wiring (s : state) :
  list_closed s → ids_are_integers s → writable s = true →
  json_loads (json_dumps (document s)) = Ok (document s) →
  (save_tasks s).1 = Ok tt
  ∧ ∀ s', file s' = file (save_tasks s).2 → readable s' = true →
          (init s').1 = Ok tt ∧ contents (init s').2 = contents s.
Proof.
  intros Hc Hids Hw Hcodec. rewrite save_tasks_spec by done.
  split; [done|]. cbn [snd]. intros s' Hf Hr.
  unfold saved in Hf. rewrite Hw in Hf. cbn in Hf.
  assert (Forall (λ d, ∃ v z, dict_get d "id" = Some v ∧ as_int v = Some z)
                 (contents s)) as Hds.
  { apply Forall_forall. intros d (l&Hl&Hd)%elem_of_contents.
    destruct (Hids l Hl) as (v&z&Hv&Hz). unfold field in Hv.
    rewrite Hd in Hv. eauto. }
  assert (Forall (λ d, is_Some (dict_key d)) (contents s)) as Hkeyed.
  { eapply Forall_impl; [exact Hds|]. cbn. intros d (v&z&Hv&Hz).
    exists (KInt z). apply dict_key_Some. exists v. split; [done|].
    by apply hash_key_int. }
  rewrite init_blank.
  rewrite (load_tasks_decoded (blank s') (json_dumps (document s)) (contents s));
    try done.
  change (set_tasks_list [] (blank s')) with (blank s').
  destruct (linked_all_props (contents s) (blank s') Hkeyed (blank_well_formed s'))
    as (Hw'&Hcont&_).
  assert (∀ n, contents (loaded (contents s) n (blank s')) = contents s) as Hloaded.
  { intros n. destruct (loaded_fields (contents s) n (blank s')) as (Hl&_&Hh&_).
    rewrite (contents_ext _ _ Hl Hh). exact Hcont. }
  destruct (contents s) as [|d ds] eqn:Hcs; [split; [done|apply Hloaded]|].
  assert (∃ n, max_plus_one (id_values (linked_all (d :: ds) (blank s'))) = Ok n)
    as [n Hn].
  { rewrite (id_values_contents _ (wf_closed _ Hw')), Hcont.
    change (contents (blank s')) with (@nil dict). rewrite app_nil_l.
    inversion Hds as [|? ? (v&z&Hv&Hz) Hds']; subst.
    cbn [omap list_omap]. rewrite Hv. apply max_plus_one_total.
    constructor; [by rewrite Hz|].
    apply Forall_forall. intros v' (d'&Hd'&Hv')%list_elem_of_omap.
    rewrite Forall_forall in Hds'. destruct (Hds' d' Hd') as (v''&z'&Hv''&Hz').
    rewrite Hv'' in Hv'. injection Hv' as <-. by rewrite Hz'. }
  rewrite Hn. split; [done|apply Hloaded].
Qed.

(** ** Loading a file that cannot be read *)

(** C7, as far as the code goes: [load_tasks] catches the two classes it
    names and no other.  When the file exists and opening it raises
    [IOError], or reading it raises [JSONDecodeError] or [IOError], the
    constructor returns normally, prints the failure with its exception,
    and leaves an empty store with [next_id] 1 and the file as it was.
    Any other exception of the read, such as the [UnicodeDecodeError] of a
    file that is not UTF-8, leaves the constructor before anything is
    printed. *)
Theorem load_failure_is_caught (s0 : state) (text : string) (e : exn) :
  file s0 = Some text →
  (readable s0 = false ∧ e = IOError)
  ∨ (readable s0 = true ∧ json_loads text = Raise e) →
  (e = JSONDecodeError ∨ e = IOError →
     (init s0).1 = Ok tt
     ∧ tasks_list (init s0).2 = []
     ∧ tasks_dict (init s0).2 = ∅
     ∧ next_id (init s0).2 = 1
     ∧ file (init s0).2 = Some text
     ∧ stdout (init s0).2 = stdout s0 ++ [LoadFailedMsg e])
  ∧ (e ≠ JSONDecodeError → e ≠ IOError →
     (init s0).1 = Raise e ∧ stdout (init s0).2 = stdout s0).
Proof.
  intros Hf Hread. rewrite init_blank. destruct Hread as [[Hr ->]|[Hr Hj]].
  - split; [|done]. intros _.
    by rewrite (load_tasks_unreadable (blank s0) text).
  - split.
    + intros He. by rewrite (load_tasks_undecodable (blank s0) text e).
    + intros H1 H2. by rewrite (load_tasks_uncaught (blank s0) text e).
Qed.

(** ** Titles *)

Lemma same_store_refl s : same_store s s.
Proof. done. Qed.

Lemma same_store_trans s1 s2 s3 :
  same_store s1 s2 → same_store s2 s3 → same_store s1 s3.
Proof.
  intros (H1&H2&H3&H4&H5) (G1&G2&G3&G4&G5). unfold same_store.
  by rewrite G1, G2, G3, G4, G5.
Qed.

Lemma quiet_bind {A B} (m : M A) (f : A → M B) :
  quiet m → (∀ a, quiet (f a)) → quiet (bind m f).
Proof.
  intros Hm Hf s. unfold bind. specialize (Hm s).
  destruct (m s) as [[a| |] s']; cbn in *; [|done..].
  eapply same_store_trans; [exact Hm|apply (Hf a)].
Qed.

Lemma quiet_ret {A} (a : A) : quiet (ret a).
Proof. by intros s. Qed.

Lemma quiet_lift {A} (r : result A) : quiet (lift r).
Proof. by intros s. Qed.

Lemma quiet_raise {A} e : quiet (@raise A e).
Proof. by intros s. Qed.

Lemma quiet_gets {A} (f : state → A) : quiet (gets f).
Proof. by intros s. Qed.

Lemma quiet_try {A} (body : M A) classes handler :
  quiet body → (∀ e, quiet (handler e)) → quiet (try_except body classes handler).
Proof.
  intros Hb Hh s. unfold try_except. specialize (Hb s).
  destruct (body s) as [[a|e|] s']; cbn in *; [done| |done].
  destruct (existsb _ classes); [|done].
  eapply same_store_trans; [exact Hb|apply (Hh e)].
Qed.

Lemma quiet_map_m {A B} (f : A → M B) xs :
  (∀ x, quiet (f x)) → quiet (map_m f xs).
Proof.
  intros Hf. induction xs as [|x xs IH]; cbn [map_m]; [apply quiet_ret|].
  apply quiet_bind; [done|]. intros y.
  apply quiet_bind; [done|]. intros ys. apply quiet_ret.
Qed.

Lemma quiet_print l : quiet (print l).
Proof. by intros s. Qed.

Lemma quiet_input : quiet input.
Proof. intros s. unfold input. by destruct (stdin s). Qed.

Lemma quiet_obj_get l k : quiet (obj_get l k).
Proof. intros s. by rewrite obj_get_read. Qed.

Lemma quiet_int text : quiet (int text).
Proof. unfold int. destruct (parse_int text); [apply quiet_ret|apply quiet_raise]. Qed.

Lemma quiet_filter_m {A} (p : A → M bool) xs :
  (∀ x, quiet (p x)) → quiet (filter_m p xs).
Proof.
  intros Hp. induction xs as [|x xs IH]; cbn [filter_m]; [apply quiet_ret|].
  apply quiet_bind; [done|]. intros b.
  apply quiet_bind; [done|]. intros ys. apply quiet_ret.
Qed.

Lemma quiet_for_each {A} (body : A → M unit) xs :
  (∀ x, quiet (body x)) → quiet (for_each body xs).
Proof.
  intros Hb. induction xs as [|x xs IH]; cbn [for_each]; [apply quiet_ret|].
  by apply quiet_bind.
Qed.

Ltac quiet :=
  repeat first
    [ apply quiet_ret | apply quiet_lift | apply quiet_raise | apply quiet_gets
    | apply quiet_print | apply quiet_input | apply quiet_obj_get
    | apply quiet_int
    | apply quiet_map_m; intros ?
    | apply quiet_filter_m; intros ?
    | apply quiet_for_each; intros ?
    | apply quiet_bind; [|intros ?] ].

Lemma quiet_priority_key l : quiet (priority_key l).
Proof. unfold priority_key. quiet. Qed.

Lemma quiet_sorted {A} (key : A → M Z) xs :
  (∀ x, quiet (key x)) → quiet (sorted key xs).
Proof. intros Hk. unfold sorted. quiet. apply Hk. Qed.

Lemma quiet_show_row l : quiet (show_row l).
Proof. unfold show_row. quiet. Qed.

Lemma quiet_show_sorted_row l : quiet (show_sorted_row l).
Proof. unfold show_sorted_row. quiet. Qed.

Lemma quiet_list_tasks f : quiet (list_tasks f).
Proof.
  unfold list_tasks. apply quiet_bind; [quiet|]. intros ls.
  destruct ls as [|l ls]; [quiet|].
  apply quiet_bind; [quiet|]. intros _.
  apply quiet_bind.
  { destruct f as [f|]; [|quiet]. destruct (truthy (VStr f)); quiet. }
  intros ts. apply quiet_bind; [apply quiet_sorted, quiet_priority_key|].
  intros sorted_tasks. apply quiet_bind; [|quiet].
  apply quiet_for_each, quiet_show_row.
Qed.

Lemma quiet_sort_by_priority : quiet sort_by_priority.
Proof.
  unfold sort_by_priority. apply quiet_bind; [quiet|]. intros ls.
  apply quiet_sorted, quiet_priority_key.
Qed.

Lemma quiet_get_statistics : quiet get_statistics.
Proof. unfold get_statistics. quiet. Qed.

Lemma titles_nonempty_ext s s' :
  tasks_list s' = tasks_list s → heap s' = heap s →
  titles_nonempty s → titles_nonempty s'.
Proof. unfold titles_nonempty. by intros -> ->. Qed.

Lemma titles_contents s :
  titles_nonempty s → Forall (λ d, titled d = true) (contents s).
Proof.
  intros Ht. apply Forall_forall. intros d (l&Hl&Hd)%elem_of_contents.
  destruct (Ht l Hl) as (d'&Hd'&Hok). congruence.
Qed.


Lemma saved_titles s : titles_nonempty s → titles_nonempty (saved s).
Proof. apply titles_nonempty_ext; [apply saved_tasks_list|apply saved_heap]. Qed.

Lemma saved_persisted f0 s :
  titles_nonempty s → persisted_titled f0 s → persisted_titled f0 (saved s).
Proof.
  intros Ht Hp. unfold saved. destruct (writable s); [|done].
  right. exists (contents s). split; [done|]. by apply titles_contents.
Qed.

Lemma run_inv_same f0 s s' : same_store s s' → run_inv f0 s → run_inv f0 s'.
Proof.
  intros (Hl&Hd&Hn&Hh&Hf) (Hw&Ha&Ht&Hp).
  assert (∀ l k, field s' l k = field s l k) as Hfld
    by (intros l k; unfold field; by rewrite Hh).
  split; [|split; [|split]].
  - apply (well_formed_transfer s); try done.
    apply (list_closed_ext s); [done..|apply Hw].
  - by apply (next_id_above_transfer s).
  - by apply (titles_nonempty_ext s).
  - unfold persisted_titled. by rewrite Hf.
Qed.

Lemma preserves_bind {A B} P (m : M A) (f : A → M B) :
  preserves P m → (∀ a, preserves P (f a)) → preserves P (bind m f).
Proof.
  intros Hm Hf s Hs. unfold bind. specialize (Hm s Hs).
  destruct (m s) as [[a| |] s']; cbn in *; [|done..]. by apply (Hf a).
Qed.

Lemma preserves_try {A} P (body : M A) classes handler :
  preserves P body → (∀ e, preserves P (handler e)) →
  preserves P (try_except body classes handler).
Proof.
  intros Hb Hh s Hs. unfold try_except. specialize (Hb s Hs).
  destruct (body s) as [[a|e|] s']; cbn in *; [done| |done].
  destruct (existsb _ classes); [|done]. by apply (Hh e).
Qed.

Lemma quiet_preserves {A} f0 (m : M A) : quiet m → preserves (run_inv f0) m.
Proof. intros Hm s Hs. apply (run_inv_same f0 s); [apply (Hm s)|done]. Qed.

Lemma add_task_preserves f0 title prio :
  title ≠ "" → preserves (run_inv f0) (add_task title prio).
Proof.
  intros Hne s (Hw&Ha&Ht&Hp). pose proof (wf_closed s Hw) as Hc.
  rewrite add_task_spec by done. cbn [snd].
  assert (titles_nonempty (added title prio s)) as Ht'.
  { intros l. rewrite added_tasks_list, added_heap, elem_of_app,
      list_elem_of_singleton. intros [Hl| ->].
    - rewrite lookup_insert_ne; [by apply Ht|].
      intros Heq. by apply (closed_not_fresh s l); [apply Hc|].
    - rewrite lookup_insert_eq. eexists. split; [done|].
      unfold titled. cbn. by apply negb_true_iff, String.eqb_neq. }
  split; [by apply added_well_formed|]. split; [by apply added_next_id_above|].
  split; [done|].
  unfold added. set (s1 := State _ _ _ _ _ _ _ _ _ _ _).
  assert (titles_nonempty s1) as Ht1.
  { apply (titles_nonempty_ext (added title prio s)); [|..|done].
    - by rewrite added_tasks_list.
    - by rewrite added_heap. }
  apply (saved_persisted f0 s1 Ht1 Hp).
Qed.

Lemma marked_titles task d s :
  heap s !! task = Some d → titles_nonempty s → titles_nonempty (marked task d s).
Proof.
  intros Hd Ht l. rewrite marked_tasks_list, marked_heap. intros Hl.
  destruct (Ht l Hl) as (d'&Hd'&Hok).
  destruct (decide (l = task)) as [->|Hne].
  - rewrite lookup_insert_eq. eexists. split; [done|].
    unfold titled. rewrite dict_get_set. cbn.
    assert (d' = d) as -> by congruence. done.
  - rewrite lookup_insert_ne by done. eauto.
Qed.

Lemma marked_persisted f0 task d s :
  heap s !! task = Some d → titles_nonempty s →
  persisted_titled f0 s → persisted_titled f0 (marked task d s).
Proof.
  intros Hd Ht Hp. unfold marked. apply saved_persisted; [|done].
  apply (titles_nonempty_ext (marked task d s)).
  - by rewrite marked_tasks_list.
  - by rewrite marked_heap.
  - by apply marked_titles.
Qed.

Lemma deleted_titles n t s : titles_nonempty s → titles_nonempty (deleted n t s).
Proof.
  intros Ht l. rewrite elem_of_deleted. unfold deleted. rewrite saved_heap.
  intros [Hl _]. by apply Ht.
Qed.

Lemma deleted_persisted f0 n t s :
  titles_nonempty s → persisted_titled f0 s → persisted_titled f0 (deleted n t s).
Proof.
  intros Ht Hp. unfold deleted. apply saved_persisted; [|done].
  intros l. cbn. rewrite list_elem_of_In, filter_In, <-list_elem_of_In.
  intros [Hl _]. by apply Ht.
Qed.

Lemma exec_run_inv f0 (o : op) s :
  (∀ title prio, o ≠ Add title prio) →
  run_inv f0 s → run_inv f0 (exec o s).2.
Proof.
  intros Ho (Hw&Ha&Ht&Hp).
  destruct (exec_preserves o s Hw Ha) as (Hw'&Ha'&_).
  split; [done|]. split; [done|]. clear Hw' Ha'.
  destruct (exec_cases o s Hw)
    as [->|[[n ->]|[(title&prio&->&_)|[(task&d&Hd&H)|(n&t&->)]]]].
  - done.
  - done.
  - by destruct (Ho title prio).
  - destruct H as [->|[t ->]].
    + split; [by apply marked_titles|by apply marked_persisted].
    + split.
      * apply (titles_nonempty_ext (marked task d s)); [done..|].
        by apply marked_titles.
      * by apply (marked_persisted f0 task d s).
  - split; [by apply deleted_titles|by apply deleted_persisted].
Qed.

Lemma complete_task_preserves f0 n : preserves (run_inv f0) (complete_task n).
Proof.
  intros s Hs. pose proof (exec_run_inv f0 (Complete n) s) as H.
  cbn [exec] in H. unfold bind in H.
  destruct (complete_task n s) as [[[]| |] s']; by apply H.
Qed.

Lemma delete_task_preserves f0 n : preserves (run_inv f0) (delete_task n).
Proof.
  intros s Hs. pose proof (exec_run_inv f0 (Delete n) s) as H.
  cbn [exec] in H. unfold bind in H.
  destruct (delete_task n s) as [[[]| |] s']; by apply H.
Qed.

Ltac pres_quiet :=
  apply quiet_preserves;
  first [ apply quiet_list_tasks | apply quiet_sort_by_priority
        | apply quiet_get_statistics | quiet ].

Lemma iteration_preserves f0 : preserves (run_inv f0) iteration.
Proof.
  unfold iteration.
  apply preserves_bind; [pres_quiet|intros _].
  apply preserves_bind; [pres_quiet|intros answer]. cbv zeta.
  destruct (String.eqb (strip answer) "1").
  { apply preserves_bind; [pres_quiet|intros answer2]. cbv zeta.
    destruct (truthy (VStr (strip answer2))) eqn:Etitle; cbn [negb]; [|pres_quiet].
    apply preserves_bind; [pres_quiet|intros answer3]. cbv zeta.
    destruct (negb (existsb _ _)); [pres_quiet|].
    apply preserves_bind; [|intros task; pres_quiet].
    apply add_task_preserves. intros Heq. by rewrite Heq in Etitle. }
  destruct (String.eqb (strip answer) "2").
  { apply preserves_bind; [pres_quiet|intros _; pres_quiet]. }
  destruct (String.eqb (strip answer) "3").
  { apply preserves_bind; [pres_quiet|intros _].
    apply preserves_bind; [|intros _; pres_quiet].
    apply preserves_try; [|intros _; pres_quiet].
    apply preserves_bind; [pres_quiet|intros answer2].
    apply preserves_bind; [pres_quiet|intros task_id].
    apply complete_task_preserves. }
  destruct (String.eqb (strip answer) "4").
  { apply preserves_bind; [pres_quiet|intros _].
    apply preserves_bind; [|intros _; pres_quiet].
    apply preserves_try; [|intros _; pres_quiet].
    apply preserves_bind; [pres_quiet|intros answer2].
    apply preserves_bind; [pres_quiet|intros task_id].
    apply delete_task_preserves. }
  destruct (String.eqb (strip answer) "5").
  { apply preserves_bind; [pres_quiet|intros st; pres_quiet]. }
  destruct (String.eqb (strip answer) "6").
  { apply preserves_bind; [pres_quiet|intros sorted_tasks].
    apply preserves_bind; [pres_quiet|intros _].
    apply preserves_bind; [|intros _; pres_quiet].
    apply quiet_preserves, quiet_for_each, quiet_show_sorted_row. }
  destruct (String.eqb (strip answer) "7"); pres_quiet.
Qed.

Lemma loop_preserves f0 fuel : preserves (run_inv f0) (loop fuel).
Proof.
  induction fuel as [|fuel IH]; cbn [loop]; [by intros s|].
  apply preserves_bind; [apply iteration_preserves|].
  intros [|]; [done|pres_quiet].
Qed.






(** ** The menu loop has fuel enough

    Nothing puts lines back on the input, and a turn of the menu that
    returns has taken at least one; so the loop ends within one turn more
    than there are lines, and more fuel does not change its outcome. *)

Lemma consuming_bind {A B} (m : M A) (f : A → M B) :
  consuming m → (∀ a, consuming (f a)) → consuming (bind m f).
Proof.
  intros Hm Hf s. unfold bind. destruct (Hm s) as [t1 H1].
  destruct (m s) as [[a| |] s']; cbn in *; [|by exists t1..].
  destruct (Hf a s') as [t2 H2]. exists (t1 ++ t2). by rewrite <-app_assoc, <-H2.
Qed.

Lemma consuming_try {A} (body : M A) classes handler :
  consuming body → (∀ e, consuming (handler e)) →
  consuming (try_except body classes handler).
Proof.
  intros Hb Hh s. unfold try_except. destruct (Hb s) as [t1 H1].
  destruct (body s) as [[a|e|] s']; cbn in *; [by exists t1| |by exists t1].
  destruct (existsb _ classes); [|by exists t1].
  destruct (Hh e s') as [t2 H2]. exists (t1 ++ t2). by rewrite <-app_assoc, <-H2.
Qed.

Lemma consuming_steady {A} (m : M A) :
  (∀ s, stdin (m s).2 = stdin s) → consuming m.
Proof. intros H s. exists []. by rewrite H. Qed.

Lemma consuming_input : consuming input.
Proof.
  intros s. unfold input. destruct (stdin s) as [|x rest] eqn:E; cbn.
  - exists []. by rewrite E.
  - by exists [x].
Qed.

Lemma consuming_map_m {A B} (f : A → M B) xs :
  (∀ x, consuming (f x)) → consuming (map_m f xs).
Proof.
  intros Hf. induction xs as [|x xs IH]; cbn [map_m]; [by apply consuming_steady|].
  apply consuming_bind; [done|]. intros y.
  apply consuming_bind; [done|]. intros ys. by apply consuming_steady.
Qed.

Lemma consuming_filter_m {A} (p : A → M bool) xs :
  (∀ x, consuming (p x)) → consuming (filter_m p xs).
Proof.
  intros Hp. induction xs as [|x xs IH]; cbn [filter_m]; [by apply consuming_steady|].
  apply consuming_bind; [done|]. intros b.
  apply consuming_bind; [done|]. intros ys. by apply consuming_steady.
Qed.

Lemma consuming_for_each {A} (body : A → M unit) xs :
  (∀ x, consuming (body x)) → consuming (for_each body xs).
Proof.
  intros Hb. induction xs as [|x xs IH]; cbn [for_each]; [by apply consuming_steady|].
  by apply consuming_bind.
Qed.

Lemma consuming_deref l : consuming (deref l).
Proof. apply consuming_steady. intros s. unfold deref. by destruct (heap s !! l). Qed.

Lemma consuming_open_write : consuming open_write.
Proof. apply consuming_steady. intros s. unfold open_write. by destruct (writable s). Qed.

Lemma consuming_int text : consuming (int text).
Proof. unfold int. by destruct (parse_int text); apply consuming_steady. Qed.

Ltac consuming :=
  repeat first
    [ apply consuming_input | apply consuming_deref | apply consuming_open_write
    | apply consuming_int
    | apply consuming_steady; intros ?; reflexivity
    | apply consuming_map_m; intros ?
    | apply consuming_filter_m; intros ?
    | apply consuming_for_each; intros ?
    | apply consuming_try; [|intros ?]
    | apply consuming_bind; [|intros ?] ].

Lemma consuming_save_tasks : consuming save_tasks.
Proof. unfold save_tasks. consuming. Qed.

Lemma consuming_add_task title prio : consuming (add_task title prio).
Proof.
  unfold add_task. do 6 (apply consuming_bind; [consuming|intros ?]).
  apply consuming_bind; [apply consuming_save_tasks|intros ?]. consuming.
Qed.

Lemma consuming_sorted {A} (key : A → M Z) xs :
  (∀ x, consuming (key x)) → consuming (sorted key xs).
Proof. intros Hk. unfold sorted. consuming. apply Hk. Qed.

Lemma consuming_priority_key l : consuming (priority_key l).
Proof. unfold priority_key, obj_get. consuming. Qed.

Lemma consuming_list_tasks f : consuming (list_tasks f).
Proof.
  unfold list_tasks. apply consuming_bind; [consuming|]. intros ls.
  destruct ls as [|l ls]; [consuming|].
  apply consuming_bind; [consuming|]. intros _.
  apply consuming_bind.
  { destruct f as [f|]; [|consuming]. destruct (truthy (VStr f)); [|consuming].
    apply consuming_filter_m. intros t. unfold obj_get. consuming. }
  intros ts. apply consuming_bind; [apply consuming_sorted, consuming_priority_key|].
  intros sorted_tasks. apply consuming_bind; [|intros _; consuming].
  apply consuming_for_each. intros t. unfold show_row, obj_get. consuming.
Qed.

Lemma consuming_complete_task n : consuming (complete_task n).
Proof.
  unfold complete_task, find_task_by_id. apply consuming_bind; [consuming|].
  intros [task|]; [|consuming].
  apply consuming_bind; [consuming|]. intros d.
  destruct (truthy (VDict d)); [|consuming].
  apply consuming_bind; [unfold obj_set; consuming|]. intros _.
  apply consuming_bind; [apply consuming_save_tasks|]. intros _.
  unfold obj_get. consuming.
Qed.

Lemma consuming_delete_task n : consuming (delete_task n).
Proof.
  unfold delete_task. apply consuming_bind; [consuming|].
  intros [task|]; [|consuming].
  do 6 (apply consuming_bind; [unfold obj_get; consuming|intros ?]).
  apply consuming_save_tasks.
Qed.

Lemma consuming_sort_by_priority : consuming sort_by_priority.
Proof.
  unfold sort_by_priority. apply consuming_bind; [consuming|]. intros ls.
  apply consuming_sorted, consuming_priority_key.
Qed.

Lemma consuming_get_statistics : consuming get_statistics.
Proof. unfold get_statistics, obj_get. consuming. Qed.

(** A turn of the menu fails at the end of the input, or takes a line. *)
Lemma input_then_takes_a_line {A} (l : line) (f : string → M A) s :
  (∀ answer, consuming (f answer)) →
  (∃ e, (bind (print l) (λ _, bind input f) s).1 = Raise e ∧ stdin s = [])
  ∨ ∃ answer taken,
      stdin s = answer :: taken ++ stdin (bind (print l) (λ _, bind input f) s).2.
Proof.
  intros Hf. unfold bind, print, modify, input. cbn [stdin set_stdout].
  destruct (stdin s) as [|answer rest] eqn:Hin; [left; by exists EOFError|].
  right. exists answer.
  destruct (Hf answer (set_stdin rest (set_stdout (stdout s ++ [l]) s)))
    as [taken Htaken].
  exists taken. cbn in Htaken. by rewrite Htaken at 1.
Qed.

Lemma iteration_takes_a_line s :
  (∃ e, (iteration s).1 = Raise e ∧ stdin s = [])
  ∨ ∃ answer taken, stdin s = answer :: taken ++ stdin (iteration s).2.
Proof.
  unfold iteration. apply input_then_takes_a_line. intros answer. cbv zeta.
  destruct (String.eqb (strip answer) "1").
  { apply consuming_bind; [consuming|]. intros answer2. cbv zeta.
    destruct (negb (truthy (VStr (strip answer2)))); [consuming|].
    apply consuming_bind; [consuming|]. intros answer3. cbv zeta.
    destruct (negb (existsb _ _)); [consuming|].
    apply consuming_bind; [apply consuming_add_task|]. intros task. consuming. }
  destruct (String.eqb (strip answer) "2").
  { apply consuming_bind; [apply consuming_list_tasks|]. intros _. consuming. }
  destruct (String.eqb (strip answer) "3").
  { apply consuming_bind; [apply consuming_list_tasks|]. intros _.
    apply consuming_bind; [|intros _; consuming].
    apply consuming_try; [|intros _; consuming].
    apply consuming_bind; [consuming|]. intros answer2.
    apply consuming_bind; [consuming|]. intros task_id.
    apply consuming_complete_task. }
  destruct (String.eqb (strip answer) "4").
  { apply consuming_bind; [apply consuming_list_tasks|]. intros _.
    apply consuming_bind; [|intros _; consuming].
    apply consuming_try; [|intros _; consuming].
    apply consuming_bind; [consuming|]. intros answer2.
    apply consuming_bind; [consuming|]. intros task_id.
    apply consuming_delete_task. }
  destruct (String.eqb (strip answer) "5").
  { apply consuming_bind; [apply consuming_get_statistics|]. intros st. consuming. }
  destruct (String.eqb (strip answer) "6").
  { apply consuming_bind; [apply consuming_sort_by_priority|]. intros sorted_tasks.
    apply consuming_bind; [consuming|]. intros _.
    apply consuming_bind; [|intros _; consuming].
    apply consuming_for_each. intros t. unfold show_sorted_row, obj_get. consuming. }
  destruct (String.eqb (strip answer) "7"); consuming.
Qed.

Lemma loop_fuel_enough fuel fuel' s :
  (length (stdin s) < fuel)%nat → (length (stdin s) < fuel')%nat →
  loop fuel s = loop fuel' s.
Proof.
  revert fuel' s. induction fuel as [|fuel IH]; intros fuel' s Hf Hf'; [lia|].
  destruct fuel' as [|fuel']; [lia|]. cbn [loop]. unfold bind.
  destruct (iteration_takes_a_line s) as [(e&He&_)|(answer&taken&Hin)].
  - destruct (iteration s) as [r s']. cbn in He. by subst.
  - destruct (iteration s) as [[[|]| |] s']; try done. cbn in Hin.
    rewrite Hin in Hf, Hf'. cbn in Hf, Hf'. rewrite length_app in Hf, Hf'.
    apply IH; lia.
Qed.

(** ** The empty store *)

Lemma blank_consistent s0 : consistent (blank s0).
Proof.
  split; [apply blank_well_formed| |constructor].
  intros l k Hl. by apply elem_of_nil in Hl.
Qed.

Lemma blank_next_id_above s0 : next_id_above (blank s0).
Proof.
  apply next_id_above_intro; [apply blank_well_formed|].
  intros l v z Hl. by apply elem_of_nil in Hl.
Qed.


(** * More of the program

    Properties of the methods beyond the invariants above: what each
    operation does to the two views and to the file, its behaviour on the
    edges, and how the operations compose. *)

(** ** [add_task] and [find_task_by_id] *)

Lemma added_contents title prio s :
  list_closed s →
  contents (added title prio s) = contents s ++ [new_task s title prio].
Proof.
  intros Hc. unfold contents. rewrite added_tasks_list, added_heap, omap_app.
  cbn. rewrite lookup_insert_eq. f_equal.
  apply omap_ext_in. intros l Hl. rewrite lookup_insert_ne; [done|].
  intros Heq. by apply (closed_not_fresh s l); [apply Hc|].
Qed.

Lemma added_stdout title prio s :
  last (stdout (added title prio s)) = Some (AddedMsg title).
Proof. unfold added. cbn. by rewrite last_snoc. Qed.

(** X1: [add_task] returns a new object that it appends to the ordered
    sequence and files in the index under [next_id]; the new task has that
    id, the title and the priority given, [completed] false and the time of
    the clock; the tasks before it are untouched, [next_id] goes up by one
    and the last line printed is the confirmation. *)
Theorem add_task_appends (title prio : string) (s : state) :
  list_closed s →
  ∃ task,
    (add_task title prio s).1 = Ok task
    ∧ heap s !! task = None
    ∧ tasks_list (add_task title prio s).2 = tasks_list s ++ [task]
    ∧ contents (add_task title prio s).2 = contents s ++ [new_task s title prio]
    ∧ tasks_dict (add_task title prio s).2
      = <[KInt (next_id s) := task]> (tasks_dict s)
    ∧ next_id (add_task title prio s).2 = next_id s + 1
    ∧ last (stdout (add_task title prio s).2) = Some (AddedMsg title).
Proof.
  intros Hc. exists (fresh (dom (heap s))). rewrite add_task_spec by done.
  cbn [fst snd]. split; [done|]. split; [apply fresh_unused|].
  rewrite added_tasks_list, added_contents, added_tasks_dict, added_next_id,
    added_stdout by done.
  done.
Qed.

(** X2: after [add_task], [find_task_by_id] on the id it used gives the
    object it returned, whose fields read back as they were given; on any
    other id it gives what it gave before. *)
Theorem find_after_add (title prio : string) (s : state) :
  list_closed s →
  ∃ task,
    (add_task title prio s).1 = Ok task
    ∧ (find_task_by_id (next_id s) (add_task title prio s).2).1 = Ok (Some task)
    ∧ by_id (add_task title prio s).2 (next_id s) "id" = Some (VInt (next_id s))
    ∧ by_id (add_task title prio s).2 (next_id s) "title" = Some (VStr title)
    ∧ by_id (add_task title prio s).2 (next_id s) "priority" = Some (VStr prio)
    ∧ by_id (add_task title prio s).2 (next_id s) "completed" = Some (VBool false)
    ∧ ∀ n, n ≠ next_id s →
        (find_task_by_id n (add_task title prio s).2).1 = (find_task_by_id n s).1.
Proof.
  intros Hc. exists (fresh (dom (heap s))). rewrite add_task_spec by done.
  cbn [fst snd]. unfold find_task_by_id, gets, by_id. cbn [fst].
  rewrite added_tasks_dict, lookup_insert_eq, !added_field_new.
  repeat (split; [done|]).
  intros n Hn. rewrite lookup_insert_ne; [done|congruence].
Qed.

Lemma added_priorities_text title prio s :
  list_closed s → priorities_text s → priorities_text (added title prio s).
Proof.
  intros Hc Ht l. rewrite added_tasks_list, elem_of_app, list_elem_of_singleton.
  intros [Hl| ->].
  - rewrite added_field_old by by apply Hc. by apply Ht.
  - rewrite added_field_new. by exists prio.
Qed.

(** X3: [add_task] checks neither the title nor the priority.  After it
    has stored a task whose priority is none of the three ranks, in a
    store whose priorities are strings, the listing and
    [sort_by_priority] raise [KeyError]. *)
Theorem add_task_does_not_validate (title prio : string) (s : state) :
  list_closed s → priorities_text s → is_priority prio = false →
  (add_task title prio s).1 = Ok (fresh (dom (heap s)))
  ∧ (list_tasks None (add_task title prio s).2).1 = Raise KeyError
  ∧ (sort_by_priority (add_task title prio s).2).1 = Raise KeyError.
Proof.
  intros Hc Ht Hbad. rewrite add_task_spec by done. cbn [fst snd].
  split; [done|].
  assert (priorities_text (added title prio s)) as Ht'
    by by apply added_priorities_text.
  assert (some_priority_invalid (added title prio s)) as Hinv.
  { exists (fresh (dom (heap s))), prio. rewrite added_tasks_list, added_field_new.
    split; [apply elem_of_app; right; by left|]. done. }
  split.
  - by rewrite (list_tasks_raises (added title prio s)).
  - by rewrite (sort_by_priority_raises (added title prio s)).
Qed.

(** ** [delete_task] *)

Lemma length_filter_remove (xs : list loc) (x : loc) :
  NoDup xs → x ∈ xs →
  S (length (List.filter (λ l, negb (Pos.eqb l x)) xs)) = length xs.
Proof.
  induction 1 as [|y xs Hy Hnd IH]; intros Hx; [by apply elem_of_nil in Hx|].
  cbn [List.filter length]. destruct (Pos.eqb y x) eqn:E; cbn [negb length].
  - apply Pos.eqb_eq in E as ->. f_equal.
    clear IH Hx Hnd. induction xs as [|z xs IH]; [done|].
    cbn [List.filter]. destruct (Pos.eqb z x) eqn:E; cbn [negb length].
    + apply Pos.eqb_eq in E as ->. destruct Hy. by left.
    + f_equal. apply IH. intros H. apply Hy. by right.
  - f_equal. apply IH. apply elem_of_cons in Hx as [->|Hx]; [|done].
    by rewrite Pos.eqb_refl in E.
Qed.

(** X4: when [delete_task] returns, the index has no entry for the id and
    [find_task_by_id] gives [None]; and if the index had one, no task of
    the ordered sequence carries the id any more, however many carried
    it. *)
Theorem delete_task_removes_id (task_id : Z) (s : state) :
  well_formed s →
  (delete_task task_id s).1 = Ok tt →
  tasks_dict (delete_task task_id s).2 !! KInt task_id = None
  ∧ (find_task_by_id task_id (delete_task task_id s).2).1 = Ok None
  ∧ (is_Some (tasks_dict s !! KInt task_id) →
     ∀ l, l ∈ tasks_list (delete_task task_id s).2 →
          key_of (delete_task task_id s).2 l ≠ Some (KInt task_id)).
Proof.
  intros Hw. destruct (tasks_dict s !! KInt task_id) as [task|] eqn:Hd.
  - destruct (wf_index s Hw _ _ Hd) as [Hl _].
    destruct (field s task "title") as [t|] eqn:Ht.
    2:{ rewrite (delete_task_untitled task_id task);
          [done|done|by apply (wf_closed s Hw)|done]. }
    rewrite (delete_task_spec task_id task t); try done; [|apply Hw|].
    2:{ intros l Hin. destruct (wf_keyed s Hw l Hin) as [k Hk].
        apply key_of_Some in Hk as (v&Hv&_). eauto. }
    intros _. cbn [snd]. unfold find_task_by_id, gets. cbn [fst].
    rewrite deleted_tasks_dict, lookup_delete_eq. split; [done|]. split; [done|].
    intros _ l [Hin Hdiff]%elem_of_deleted.
    rewrite (key_of_ext s) by apply deleted_field. intros Hk.
    by apply (id_differs_key task_id s l _ Hk) in Hdiff.
  - rewrite delete_task_absent by done. intros _. cbn [snd].
    unfold find_task_by_id, gets. cbn. rewrite Hd.
    split; [done|]. split; [done|]. by intros [? ?].
Qed.

(** X5: on a consistent store, deleting the id of a task that has a title
    returns, takes exactly that one object out of the ordered sequence and
    leaves the others in their order, removes the entry of the index for
    that id and no other, and changes no task object and not [next_id];
    it prints the deletion and then the outcome of the save. *)
Theorem delete_task_keeps_the_rest (task_id : Z) (task : loc) (t : value)
    (s : state) :
  consistent s →
  tasks_dict s !! KInt task_id = Some task →
  field s task "title" = Some t →
  (delete_task task_id s).1 = Ok tt
  ∧ tasks_list (delete_task task_id s).2
    = List.filter (λ l, negb (Pos.eqb l task)) (tasks_list s)
  ∧ S (length (tasks_list (delete_task task_id s).2)) = length (tasks_list s)
  ∧ heap (delete_task task_id s).2 = heap s
  ∧ next_id (delete_task task_id s).2 = next_id s
  ∧ tasks_dict (delete_task task_id s).2 !! KInt task_id = None
  ∧ (∀ k, k ≠ KInt task_id →
          tasks_dict (delete_task task_id s).2 !! k = tasks_dict s !! k)
  ∧ stdout (delete_task task_id s).2
    = stdout s ++ [DeletedMsg t;
                   if writable s then SavedMsg else SaveFailedMsg IOError].
Proof.
  intros [Hw Hcomp Hnd] Hd Ht.
  destruct (wf_index s Hw _ _ Hd) as [Hl Hkey].
  rewrite (delete_task_spec task_id task t); try done; [|apply Hw|].
  2:{ intros l Hin. destruct (wf_keyed s Hw l Hin) as [k Hk].
      apply key_of_Some in Hk as (v&Hv&_). eauto. }
  cbn [fst snd]. split; [done|].
  assert (List.filter (id_differs s task_id) (tasks_list s)
          = List.filter (λ l, negb (Pos.eqb l task)) (tasks_list s)) as Hfilter.
  { apply filter_ext_in. intros l Hin%list_elem_of_In.
    destruct (wf_keyed s Hw l Hin) as [k Hk].
    destruct (Pos.eqb l task) eqn:E.
    - apply Pos.eqb_eq in E as ->. rewrite Hkey in Hk. injection Hk as <-.
      apply not_true_iff_false. intros Hdiff.
      by apply (id_differs_key task_id s task _ Hkey) in Hdiff.
    - apply (id_differs_key task_id s l k Hk). intros ->.
      specialize (Hcomp l _ Hin Hk). rewrite Hd in Hcomp. injection Hcomp as ->.
      by rewrite Pos.eqb_refl in E. }
  rewrite deleted_tasks_list, Hfilter. split; [done|].
  split; [by apply length_filter_remove|].
  split; [unfold deleted; by rewrite saved_heap|].
  split; [apply deleted_next_id|].
  split; [by rewrite deleted_tasks_dict, lookup_delete_eq|]. split.
  - intros k Hk. by rewrite deleted_tasks_dict, lookup_delete_ne.
  - unfold deleted, saved. destruct (writable s); cbn; by rewrite <-app_assoc.
Qed.

(** X6: a task without a title stops [delete_task] before it changes
    anything: the [KeyError] comes from the line that announces the
    deletion, and the store, the file and the console are as they were. *)
Theorem delete_task_untitled_changes_nothing (task_id : Z) (task : loc)
    (s : state) :
  tasks_dict s !! KInt task_id = Some task →
  is_Some (heap s !! task) →
  field s task "title" = None →
  delete_task task_id s = (Raise KeyError, s).
Proof. apply delete_task_untitled. Qed.

(** ** [complete_task] *)

Lemma indexed_task_object task_id task s :
  well_formed s → tasks_dict s !! KInt task_id = Some task →
  ∃ d, heap s !! task = Some d ∧ d ≠ [].
Proof.
  intros Hw Hd. destruct (wf_index s Hw _ _ Hd) as [Hl Hk].
  apply key_of_Some in Hk as (v&Hv&_). unfold field in Hv.
  destruct (heap s !! task) as [d|]; [|done]. exists d. split; [done|].
  by intros ->.
Qed.

Lemma complete_task_state task_id task d s :
  list_closed s → tasks_dict s !! KInt task_id = Some task →
  heap s !! task = Some d → d ≠ [] →
  ∃ out, (complete_task task_id s).2 = set_stdout out (marked task d s).
Proof.
  intros Hc Hk Hd Hne. rewrite (complete_task_spec task_id task d) by done.
  destruct (dict_get d "title"); cbn [snd]; [by eexists|].
  exists (stdout (marked task d s)). by destruct (marked task d s).
Qed.

(** X7: [complete_task] on an id of the index writes one field of one
    object, whether or not it gets as far as its confirmation: the
    [completed] flag of the task found is true afterwards, every other
    field of every object reads as before, and the ordered sequence, the
    index and [next_id] are the same. *)
Theorem complete_task_touches_one_field (task_id : Z) (task : loc) (s : state) :
  well_formed s →
  tasks_dict s !! KInt task_id = Some task →
  field (complete_task task_id s).2 task "completed" = Some (VBool true)
  ∧ (∀ l k, (l, k) ≠ (task, "completed") →
            field (complete_task task_id s).2 l k = field s l k)
  ∧ tasks_list (complete_task task_id s).2 = tasks_list s
  ∧ tasks_dict (complete_task task_id s).2 = tasks_dict s
  ∧ next_id (complete_task task_id s).2 = next_id s.
Proof.
  intros Hw Hk. destruct (indexed_task_object _ _ _ Hw Hk) as (d&Hd&Hne).
  destruct (complete_task_state task_id task d s) as [out ->];
    [apply Hw|done..|].
  change (field (set_stdout out (marked task d s)))
    with (field (marked task d s)).
  split; [|split].
  - rewrite (marked_field task d s Hd). by rewrite decide_True.
  - intros l k Hlk. rewrite (marked_field task d s Hd).
    case_decide as Hl; [|done]. subst l.
    destruct (String.eqb "completed" k) eqn:E; [|done].
    apply String.eqb_eq in E. by subst k.
  - cbn [tasks_list tasks_dict next_id set_stdout].
    by rewrite marked_tasks_list, marked_tasks_dict, marked_next_id.
Qed.

Lemma saved_in_sync s : writable s = true → in_sync (saved s).
Proof. intros Hw. unfold in_sync, saved. by rewrite Hw. Qed.

Lemma saved_last_line s :
  last (stdout (saved s))
  = Some (if writable s then SavedMsg else SaveFailedMsg IOError).
Proof. unfold saved. destruct (writable s); cbn; by rewrite last_snoc. Qed.

(** X8: a task without a title makes [complete_task] raise [KeyError],
    but only at the confirmation: by then the flag is set and the store
    has been saved, so both views and, on a writable file, the file show
    the task as completed. *)
Theorem complete_task_untitled_raises_after_saving (task_id : Z) (task : loc)
    (s : state) :
  well_formed s →
  tasks_dict s !! KInt task_id = Some task →
  field s task "title" = None →
  (complete_task task_id s).1 = Raise KeyError
  ∧ by_id (complete_task task_id s).2 task_id "completed" = Some (VBool true)
  ∧ (writable s = true → in_sync (complete_task task_id s).2)
  ∧ last (stdout (complete_task task_id s).2)
    = Some (if writable s then SavedMsg else SaveFailedMsg IOError).
Proof.
  intros Hw Hk Ht. destruct (indexed_task_object _ _ _ Hw Hk) as (d&Hd&Hne).
  rewrite (complete_task_spec task_id task d); [|apply Hw|done..].
  unfold field in Ht. rewrite Hd in Ht. rewrite Ht. cbn [fst snd].
  split; [done|]. split; [|split].
  - unfold by_id. rewrite marked_tasks_dict, Hk, (marked_field task d s Hd).
    by rewrite decide_True.
  - intros Hwr. by apply saved_in_sync.
  - unfold marked. by rewrite saved_last_line.
Qed.

(** ** [save_tasks] and the file *)

(** X9: a file that cannot be opened for writing does not stop the
    program.  [save_tasks] catches the [IOError], prints the failure and
    returns with the store and the file as they were; and [add_task] on
    such a file still returns the new task, which is then in both views
    and not in the file, after the failure and the confirmation were
    printed. *)
Theorem save_failure_is_reported (s : state) :
  writable s = false →
  save_tasks s = (Ok tt, set_stdout (stdout s ++ [SaveFailedMsg IOError]) s)
  ∧ (list_closed s → ∀ title prio,
       ∃ task,
         (add_task title prio s).1 = Ok task
         ∧ tasks_list (add_task title prio s).2 = tasks_list s ++ [task]
         ∧ tasks_dict (add_task title prio s).2 !! KInt (next_id s) = Some task
         ∧ file (add_task title prio s).2 = file s
         ∧ stdout (add_task title prio s).2
           = stdout s ++ [SaveFailedMsg IOError; AddedMsg title]).
Proof.
  intros Hw. split.
  - unfold save_tasks, try_except, bind, open_write. by rewrite Hw.
  - intros Hc title prio. exists (fresh (dom (heap s))).
    rewrite add_task_spec by done. cbn [fst snd].
    rewrite added_tasks_list, added_tasks_dict, lookup_insert_eq.
    split; [done|]. split; [done|]. split; [done|].
    unfold added, saved. cbn. rewrite Hw. cbn. by rewrite <-app_assoc.
Qed.

Lemma in_sync_stdout out s : in_sync (set_stdout out s) ↔ in_sync s.
Proof. done. Qed.

(** X10: on a writable file, each of the three mutating operations leaves
    the file in step with the store: if the file held the dump of the
    ordered sequence before, it holds the dump of the new one after,
    whatever the outcome; and after [add_task] it does so in any case. *)
Theorem file_follows_the_store (o : op) (s : state) :
  well_formed s → writable s = true →
  (in_sync s → in_sync (exec o s).2)
  ∧ (∀ title prio, o = Add title prio → in_sync (exec o s).2).
Proof.
  intros Hw Hwr. split.
  - intros Hs.
    destruct (exec_cases o s Hw)
      as [->|[[n ->]|[(title&prio&_&->&_)|[(task&d&Hd&[->|[t ->]])|(n&t&->)]]]];
      try done.
    + apply in_sync_stdout. by apply saved_in_sync.
    + by apply saved_in_sync.
    + apply in_sync_stdout. by apply saved_in_sync.
    + by apply saved_in_sync.
  - intros title prio ->. rewrite exec_add_spec by apply Hw. cbn [snd].
    apply in_sync_stdout. by apply saved_in_sync.
Qed.

(** X11: when opening the file raises [IOError], or reading it raises
    [JSONDecodeError] or [IOError], the constructor returns with an empty
    store, and the first [add_task] on a writable file writes over the
    file a document that holds the new task alone, with id 1: what the
    file held is lost. *)
Theorem add_after_failed_load_overwrites (s0 : state) (text title prio : string)
    (e : exn) :
  file s0 = Some text →
  (readable s0 = false ∧ e = IOError)
  ∨ (readable s0 = true ∧ json_loads text = Raise e
     ∧ (e = JSONDecodeError ∨ e = IOError)) →
  writable s0 = true →
  (init s0).1 = Ok tt
  ∧ stdout (init s0).2 = stdout s0 ++ [LoadFailedMsg e]
  ∧ ∃ task d,
      (add_task title prio (init s0).2).1 = Ok task
      ∧ file (add_task title prio (init s0).2).2
        = Some (json_dumps (VList [VDict d]))
      ∧ dict_get d "id" = Some (VInt 1)
      ∧ dict_get d "title" = Some (VStr title)
      ∧ dict_get d "priority" = Some (VStr prio).
Proof.
  intros Hf Hfail Hwr. rewrite init_blank.
  assert (load_tasks (blank s0) = (Ok tt, load_failed e (blank s0))) as ->.
  { destruct Hfail as [[Hr ->]|(Hr&Hj&He)].
    - by apply (load_tasks_unreadable _ text).
    - by apply (load_tasks_undecodable _ text). }
  cbn [fst snd]. split; [done|]. split; [done|].
  set (s := load_failed e (blank s0)).
  assert (list_closed s) as Hc by (intros l Hl; by apply elem_of_nil in Hl).
  exists (fresh (dom (heap s))), (new_task s title prio).
  rewrite add_task_spec by done. cbn [fst snd]. split; [done|].
  split; [|done].
  assert (in_sync (added title prio s)) as Hs.
  { apply in_sync_stdout. by apply saved_in_sync. }
  rewrite Hs. unfold document. by rewrite added_contents.
Qed.

(** ** [load_tasks] *)

Lemma all_ints_back vs zs z :
  all_ints vs = Some zs → z ∈ zs → ∃ v, v ∈ vs ∧ as_int v = Some z.
Proof.
  revert zs. induction vs as [|v vs IH]; intros zs; cbn [all_ints].
  - intros [= <-] Hz. by apply elem_of_nil in Hz.
  - destruct (as_int v) as [x|] eqn:Hv; [|done].
    destruct (all_ints vs) as [xs|]; [|done]. intros [= <-].
    intros [->|Hz]%elem_of_cons.
    + exists v. split; [by left|done].
    + destruct (IH xs eq_refl Hz) as (w&Hw&Hwz). exists w. split; [by right|done].
Qed.

Lemma foldr_max_in z zs : foldr Z.max z zs ∈ z :: zs.
Proof.
  induction zs as [|x zs IH]; cbn [foldr]; [by left|].
  destruct (Z.max_spec x (foldr Z.max z zs)) as [[_ ->]|[_ ->]].
  - apply elem_of_cons in IH as [->|IH]; [by left|]. right. by right.
  - right. by left.
Qed.

Lemma max_plus_one_attained ids n :
  max_plus_one ids = Ok n → ∃ v, v ∈ ids ∧ as_int v = Some (n - 1).
Proof.
  unfold max_plus_one. destruct ids as [|v0 vs]; [done|].
  destruct (all_ints (v0 :: vs)) as [[|z zs]|] eqn:Hall; [done| |done].
  intros [= <-]. replace (foldr Z.max z zs + 1 - 1) with (foldr Z.max z zs) by lia.
  apply (all_ints_back _ _ _ Hall), foldr_max_in.
Qed.

(** X12: after a load that found tasks, [next_id] is exactly one more than
    the largest id of the file: some loaded task has the id
    [next_id - 1], and no loaded task has a larger one. *)
Theorem load_sets_next_id_after_largest (s0 : state) :
  (init s0).1 = Ok tt →
  tasks_list (init s0).2 ≠ [] →
  (∃ l v, l ∈ tasks_list (init s0).2
          ∧ field (init s0).2 l "id" = Some v
          ∧ as_int v = Some (next_id (init s0).2 - 1))
  ∧ (∀ l v z, l ∈ tasks_list (init s0).2 →
              field (init s0).2 l "id" = Some v → as_int v = Some z →
              z ≤ next_id (init s0).2 - 1).
Proof.
  intros Hok Hne. split.
  - destruct (init_ok_cases s0 Hok)
      as [[_ Hs]|[[e Hs]|(text&ds&n&_&_&_&Hs&Hmax)]];
      rewrite Hs in *; [done..|].
    destruct ds as [|d ds]; [done|].
    destruct (max_plus_one_attained _ _ (Hmax ltac:(done))) as (v&Hv&Hz).
    unfold id_values in Hv. apply list_elem_of_omap in Hv as (l&Hl&Hf).
    exists l, v. done.
  - destruct (init_establishes s0 Hok) as (_&Habove&_).
    intros l v z Hl Hv Hz.
    pose proof (proj1 (above_list_alt _) (above_list _ Habove) l v z Hl Hv Hz).
    lia.
Qed.

Lemma carrying_ext s s' k :
  tasks_list s' = tasks_list s → heap s' = heap s →
  carrying s' k = carrying s k.
Proof.
  intros Hl Hh. unfold carrying. rewrite Hl. apply filter_ext. intros l.
  by rewrite (key_of_ext s s') by (unfold field; by rewrite Hh).
Qed.

Lemma linked_carrying d k0 s k :
  list_closed s → dict_key d = Some k0 →
  carrying (linked d k0 s) k
  = carrying s k ++ (if decide (k = k0) then [fresh (dom (heap s))] else []).
Proof.
  intros Hc (i&Hi&Hk)%dict_key_Some. unfold carrying.
  rewrite linked_tasks_list, List.filter_app. f_equal.
  - apply filter_ext_in. intros l Hl%list_elem_of_In.
    by rewrite (linked_key_old d k0 s Hc).
  - cbn [List.filter]. rewrite (linked_key_new d k0 s i Hi Hk).
    case_decide as Hkk.
    + subst. by rewrite bool_decide_true.
    + rewrite bool_decide_false; [done|congruence].
Qed.

Lemma linked_all_last ds s :
  Forall (λ d, is_Some (dict_key d)) ds →
  list_closed s →
  (∀ k, tasks_dict s !! k = last (carrying s k)) →
  ∀ k, tasks_dict (linked_all ds s) !! k = last (carrying (linked_all ds s) k).
Proof.
  revert s. induction ds as [|d ds IH]; intros s Hds Hc Hs; [done|].
  apply Forall_cons in Hds as [[k0 Hd] Hds]. cbn [linked_all]. rewrite Hd.
  pose proof Hd as (i&Hi&Hk)%dict_key_Some.
  apply IH; [done|by apply (linked_list_closed d k0 s)|].
  intros k. rewrite linked_carrying, linked_tasks_dict by done.
  case_decide as Hkk.
  - subst. by rewrite lookup_insert_eq, last_snoc.
  - rewrite lookup_insert_ne, app_nil_r by done. apply Hs.
Qed.

(** X13: [load_tasks] files every task of the file in the index, and an
    id that several tasks of the file carry is filed once, for the last of
    them: the index gives, for each key, the last task of the ordered
    sequence with that id, and nothing when there is none.  So the two
    views hold the same ids after a load. *)
Theorem load_indexes_last_of_each_id (s0 : state) :
  (init s0).1 = Ok tt →
  (∀ k, tasks_dict (init s0).2 !! k = last (carrying (init s0).2 k))
  ∧ same_ids (init s0).2.
Proof.
  intros Hok.
  assert (∀ k, tasks_dict (init s0).2 !! k = last (carrying (init s0).2 k))
    as Hlast.
  { destruct (init_ok_cases s0 Hok)
      as [[_ Hs]|[[e Hs]|(text&ds&n&_&_&Hds&Hs&_)]];
      rewrite Hs; [done..|].
    intros k. destruct (loaded_fields ds n (blank s0)) as (Hl&Hd&Hh&_).
    rewrite Hd, (carrying_ext _ _ k Hl Hh).
    apply linked_all_last; [done| |done].
    intros l Hl'. by apply elem_of_nil in Hl'. }
  split; [done|]. intros k. rewrite Hlast, elem_of_list_ids. split.
  - intros [l Hl]. apply last_Some_elem_of in Hl.
    unfold carrying in Hl. apply list_elem_of_In, filter_In in Hl as [Hin Hk].
    apply bool_decide_eq_true in Hk. exists l. by rewrite list_elem_of_In.
  - intros (l&Hin&Hk). apply last_is_Some. intros Hnil.
    assert (l ∈ carrying (init s0).2 k) as Hl.
    { unfold carrying. apply list_elem_of_In, filter_In.
      split; [by apply list_elem_of_In|by apply bool_decide_eq_true]. }
    rewrite Hnil in Hl. by apply elem_of_nil in Hl.
Qed.

(** ** The readers: [list_tasks], [sort_by_priority], [get_statistics] *)

Lemma bind_gets_eq {A B} (f : state → A) (k : A → M B) s :
  bind (gets f) k s = k (f s) s.
Proof. done. Qed.

Lemma bind_print_eq {B} (l : line) (k : unit → M B) s :
  bind (print l) k s = k tt (set_stdout (stdout s ++ [l]) s).
Proof. done. Qed.

Lemma reading_bind {A B} (m : M A) (f : A → M B) :
  reading m → (∀ a, reading (f a)) → reading (bind m f).
Proof.
  intros Hm Hf s. unfold bind. specialize (Hm s).
  destruct (m s) as [[a| |] s']; cbn in *; subst; [apply (Hf a)|done..].
Qed.

Lemma reading_ret {A} (a : A) : reading (ret a).
Proof. by intros s. Qed.

Lemma reading_lift {A} (r : result A) : reading (lift r).
Proof. by intros s. Qed.

Lemma reading_gets {A} (f : state → A) : reading (gets f).
Proof. by intros s. Qed.

Lemma reading_obj_get l k : reading (obj_get l k).
Proof. intros s. by rewrite obj_get_read. Qed.

Lemma reading_map_m {A B} (f : A → M B) xs :
  (∀ x, reading (f x)) → reading (map_m f xs).
Proof.
  intros Hf. induction xs as [|x xs IH]; cbn [map_m]; [apply reading_ret|].
  apply reading_bind; [done|]. intros y.
  apply reading_bind; [done|]. intros ys. apply reading_ret.
Qed.

Lemma reading_filter_m {A} (p : A → M bool) xs :
  (∀ x, reading (p x)) → reading (filter_m p xs).
Proof.
  intros Hp. induction xs as [|x xs IH]; cbn [filter_m]; [apply reading_ret|].
  apply reading_bind; [done|]. intros b.
  apply reading_bind; [done|]. intros ys. apply reading_ret.
Qed.

Ltac reading :=
  repeat first
    [ apply reading_ret | apply reading_lift | apply reading_gets
    | apply reading_obj_get
    | apply reading_map_m; intros ?
    | apply reading_filter_m; intros ?
    | apply reading_bind; [|intros ?] ].

Lemma reading_priority_key l : reading (priority_key l).
Proof. unfold priority_key. reading. Qed.

Lemma reading_sorted {A} (key : A → M Z) xs :
  (∀ x, reading (key x)) → reading (sorted key xs).
Proof. intros Hk. unfold sorted. reading. apply Hk. Qed.

Lemma reading_sort_by_priority : reading sort_by_priority.
Proof.
  unfold sort_by_priority. apply reading_bind; [reading|]. intros ls.
  apply reading_sorted, reading_priority_key.
Qed.

Lemma reading_get_statistics : reading get_statistics.
Proof. unfold get_statistics. reading. Qed.

Lemma printing_reading {A} (m : M A) : reading m → printing m.
Proof.
  intros Hm s. exists []. rewrite (Hm s). destruct s. unfold set_stdout. cbn.
  by rewrite app_nil_r.
Qed.

Lemma printing_bind {A B} (m : M A) (f : A → M B) :
  printing m → (∀ a, printing (f a)) → printing (bind m f).
Proof.
  intros Hm Hf s. unfold bind. destruct (Hm s) as [o1 H1].
  destruct (m s) as [[a| |] s']; cbn [snd] in *; subst s'; [|by exists o1..].
  destruct (Hf a (set_stdout (stdout s ++ o1) s)) as [o2 H2].
  exists (o1 ++ o2). rewrite H2. unfold set_stdout. cbn. by rewrite app_assoc.
Qed.

Lemma printing_print l : printing (print l).
Proof. intros s. by exists [l]. Qed.

Lemma printing_for_each {A} (body : A → M unit) xs :
  (∀ x, printing (body x)) → printing (for_each body xs).
Proof.
  intros Hb. induction xs as [|x xs IH]; cbn [for_each].
  - apply printing_reading, reading_ret.
  - by apply printing_bind.
Qed.

Lemma printing_show_row l : printing (show_row l).
Proof.
  unfold show_row. do 8 (apply printing_bind; [apply printing_reading; reading|intros ?]).
  apply printing_print.
Qed.

Lemma printing_show_sorted_row l : printing (show_sorted_row l).
Proof.
  unfold show_sorted_row.
  do 5 (apply printing_bind; [apply printing_reading; reading|intros ?]).
  apply printing_print.
Qed.

Lemma printing_list_tasks f : printing (list_tasks f).
Proof.
  unfold list_tasks. apply printing_bind; [apply printing_reading; reading|].
  intros ls. destruct ls as [|l ls]; [apply printing_print|].
  apply printing_bind; [apply printing_print|]. intros _.
  apply printing_bind.
  { apply printing_reading. destruct f as [f|]; [|reading].
    destruct (truthy (VStr f)); reading. }
  intros ts. apply printing_bind.
  { apply printing_reading, reading_sorted, reading_priority_key. }
  intros sorted_tasks. apply printing_bind; [|intros _; apply printing_print].
  apply printing_for_each, printing_show_row.
Qed.

(** X14: whatever the store holds, whatever the filter and whether it
    returns or raises, [list_tasks] changes nothing but the console: the
    state it leaves is the one it found with lines added to the output.
    With no task the one line is the notice of an empty list; otherwise
    the header comes first, also when the call then raises. *)
Theorem list_tasks_only_prints (filter_by : option string) (s : state) :
  ∃ out,
    (list_tasks filter_by s).2 = set_stdout (stdout s ++ out) s
    ∧ match tasks_list s with
      | [] => out = [NoTasksMsg] ∧ (list_tasks filter_by s).1 = Ok tt
      | _ => ∃ rest, out = ListHeader :: rest
      end.
Proof.
  destruct (tasks_list s) as [|l ls] eqn:E.
  - exists [NoTasksMsg]. unfold list_tasks. rewrite bind_gets_eq, E. done.
  - destruct (printing_list_tasks filter_by s) as [out Hout].
    exists out. split; [done|].
    revert Hout. unfold list_tasks. rewrite bind_gets_eq, E, bind_print_eq.
    set (s1 := set_stdout (stdout s ++ [ListHeader]) s).
    cbv beta.
    match goal with |- (?m s1).2 = _ → _ => assert (printing m) as Hrest end.
    { apply printing_bind.
      { apply printing_reading. destruct filter_by as [f|]; [|reading].
        destruct (truthy (VStr f)); reading. }
      intros ts. apply printing_bind.
      { apply printing_reading, reading_sorted, reading_priority_key. }
      intros sorted_tasks. apply printing_bind; [|intros _; apply printing_print].
      apply printing_for_each, printing_show_row. }
    destruct (Hrest s1) as [out' ->]. intros Hout.
    exists out'. apply (f_equal stdout) in Hout. unfold s1 in Hout. cbn in Hout.
    rewrite <-app_assoc in Hout. by apply app_inv_head in Hout.
Qed.

(** X15: [sort_by_priority] never changes the instance, so the ordered
    sequence keeps its insertion order; on a store of well-typed tasks it
    returns a rearrangement of that sequence that is sorted by rank and
    keeps the tasks of one rank in their order. *)
Theorem sort_by_priority_returns_sorted_copy (s : state) :
  (sort_by_priority s).2 = s
  ∧ (store_typed s →
     ∃ ls, (sort_by_priority s).1 = Ok ls
       ∧ ls ≡ₚ tasks_list s
       ∧ StronglySorted (λ a b, rank_of s a ≤ rank_of s b) ls
       ∧ ∀ p, List.filter (has_priority s p) ls
              = List.filter (has_priority s p) (tasks_list s)).
Proof.
  split; [apply reading_sort_by_priority|]. intros Hs.
  exists (sort_by (rank_of s) (tasks_list s)).
  unfold sort_by_priority. rewrite bind_gets_eq.
  rewrite (sorted_spec (rank_of s)).
  2:{ apply map_m_ok. intros l Hl. by apply typed_key. }
  split; [done|]. split; [apply sort_by_perm|]. split; [apply sort_by_sorted|].
  intros p.
  rewrite !(filter_ext (has_priority s p) (λ a, rank_of s a =? rank p))
    by (intros; apply has_priority_rank).
  apply sort_by_stable.
Qed.

(** X16: [get_statistics] never changes the instance, and it needs the
    [completed] field of every task: when the tasks are objects and one
    of them has no such field, it raises [KeyError]. *)
Theorem get_statistics_needs_every_flag (s : state) :
  (get_statistics s).2 = s
  ∧ (list_closed s →
     (∃ l, l ∈ tasks_list s ∧ field s l "completed" = None) →
     (get_statistics s).1 = Raise KeyError).
Proof.
  split; [apply reading_get_statistics|]. intros Hc (l&Hl&Hnone).
  unfold get_statistics. rewrite bind_gets_eq. cbv zeta.
  set (flag := λ t, match read s t "completed" with
                    | Ok c => Ok (truthy c)
                    | Raise e => Raise e
                    | Unmodelled => Unmodelled
                    end).
  erewrite bind_raise; [done|].
  rewrite (filter_m_reads _ flag).
  2:{ intros t. unfold bind, flag. rewrite obj_get_read.
      by destruct (read s t "completed"). }
  rewrite collect_key_error; [done|..].
  - apply Forall_forall. intros r. rewrite list_elem_of_In, in_map_iff.
    intros (t&<-&Ht%list_elem_of_In). destruct (Hc t Ht) as [d Hd].
    unfold flag, read, getitem. rewrite Hd.
    destruct (dict_get d "completed"); eauto.
  - apply Exists_exists. exists (Raise KeyError). split; [|done].
    apply list_elem_of_In, in_map_iff. exists l.
    split; [|by apply list_elem_of_In].
    destruct (Hc l Hl) as [d Hd]. unfold flag, read, getitem, field in *.
    rewrite Hd in *. by rewrite Hnone.
Qed.

Lemma eqb_unknown_priority f q :
  is_priority f = false → String.eqb (priority_str q) f = false.
Proof.
  unfold is_priority. cbn [existsb]. rewrite !orb_false_iff.
  intros (H1&H2&H3&_). rewrite String.eqb_sym. by destruct q.
Qed.

Lemma filter_none {A} (xs : list A) : List.filter (λ _, false) xs = [].
Proof. by induction xs. Qed.

(** X17: the filter of [list_tasks] is tested for truth, not against
    [None]: the empty string filters nothing, so the call is the
    unfiltered listing.  A non-empty filter that is none of the three
    priorities selects no task of a well-typed store: the header and the
    footer are printed with no row between them, and no error is
    raised. *)
Theorem list_tasks_filter_edges (f : string) (s : state) :
  (f = "" → list_tasks (Some f) s = list_tasks None s)
  ∧ (f ≠ "" → is_priority f = false → store_typed s → tasks_list s ≠ [] →
     list_tasks (Some f) s
     = (Ok tt, set_stdout (stdout s ++ [ListHeader; ListFooter]) s)).
Proof.
  split; [by intros ->|]. intros Hf Hbad Hs Hne.
  unfold list_tasks. rewrite bind_gets_eq.
  destruct (tasks_list s) as [|l ls] eqn:E; [done|]. rewrite bind_print_eq.
  assert (truthy (VStr f) = true) as ->.
  { cbn [truthy]. destruct (String.eqb_spec f ""); [done|done]. }
  set (s1 := set_stdout (stdout s ++ [ListHeader]) s).
  erewrite bind_ok.
  2:{ rewrite (filter_m_ok _ (λ _, false)); [by rewrite filter_none|].
      intros t Ht. rewrite <-E in Ht.
      destruct (typed_priority s t Hs Ht) as (q&Hq&_).
      unfold bind. rewrite obj_get_read.
      assert (read s1 t "priority" = Ok (VStr (priority_str q))) as ->.
      { by apply read_field. }
      cbn [eq_str ret]. by rewrite eqb_unknown_priority. }
  unfold s1, print, modify, set_stdout. cbn. by rewrite <-app_assoc.
Qed.

(** ** Operations in sequence *)

Lemma filter_all {A} (f : A → bool) (xs : list A) :
  (∀ x, x ∈ xs → f x = true) → List.filter f xs = xs.
Proof.
  induction xs as [|x xs IH]; intros H; cbn [List.filter]; [done|].
  rewrite (H x) by left. f_equal. apply IH. intros y Hy. apply H. by right.
Qed.

(** X18: deleting the task that was just added brings both views back to
    what they were: the ordered sequence, the index and the tasks are
    those from before the [add_task].  [next_id] is not taken back, so
    the id is not given out again in this session. *)
Theorem add_then_delete_restores_views (title prio : string) (s : state) :
  consistent s → next_id_above s →
  (delete_task (next_id s) (add_task title prio s).2).1 = Ok tt
  ∧ tasks_list (delete_task (next_id s) (add_task title prio s).2).2
    = tasks_list s
  ∧ tasks_dict (delete_task (next_id s) (add_task title prio s).2).2
    = tasks_dict s
  ∧ contents (delete_task (next_id s) (add_task title prio s).2).2
    = contents s
  ∧ next_id (delete_task (next_id s) (add_task title prio s).2).2
    = next_id s + 1.
Proof.
  intros Hcons Habove. pose proof (cons_wf s Hcons) as Hw.
  pose proof (wf_closed s Hw) as Hc.
  rewrite add_task_spec by done. cbn [snd].
  set (task := fresh (dom (heap s))). set (s1 := added title prio s).
  assert (well_formed s1) as Hw1 by by apply added_well_formed.
  assert (tasks_dict s !! KInt (next_id s) = None) as Hfree.
  { destruct (tasks_dict s !! KInt (next_id s)) as [l|] eqn:E; [|done].
    pose proof (above_dict s Habove _ _ E). lia. }
  rewrite (delete_task_spec (next_id s) task (VStr title) s1).
  2:{ apply Hw1. }
  2:{ intros l Hl. destruct (wf_keyed s1 Hw1 l Hl) as [k Hk].
      apply key_of_Some in Hk as (v&Hv&_). eauto. }
  2:{ unfold s1. by rewrite added_tasks_dict, lookup_insert_eq. }
  2:{ unfold s1, task. by rewrite added_field_new. }
  cbn [fst snd]. split; [done|].
  assert (tasks_list (deleted (next_id s) (VStr title) s1) = tasks_list s)
    as Hlist.
  { rewrite deleted_tasks_list. unfold s1 at 2. rewrite added_tasks_list.
    rewrite List.filter_app, filter_all.
    2:{ intros l Hl. destruct (wf_keyed s Hw l Hl) as [k Hk].
        assert (key_of s1 l = Some k) as Hk1.
        { unfold s1. rewrite (key_of_ext s); [done|].
          apply added_field_old. by apply Hc. }
        apply (id_differs_key (next_id s) s1 l k Hk1). intros ->.
        by rewrite (cons_complete s Hcons l _ Hl Hk) in Hfree. }
    cbn [List.filter]. unfold id_differs, s1. fold task.
    rewrite added_field_new. cbn. rewrite Z.eqb_refl. cbn. apply app_nil_r. }
  split; [done|]. split; [|split].
  - rewrite deleted_tasks_dict. unfold s1.
    rewrite added_tasks_dict, delete_insert_eq. by apply delete_id.
  - unfold contents. rewrite Hlist. apply omap_ext_in. intros l Hl.
    unfold deleted. rewrite saved_heap. cbn [heap]. unfold s1.
    rewrite added_heap, lookup_insert_ne; [done|].
    intros <-. apply (closed_not_fresh s (fresh (dom (heap s)))); [|done].
    by apply Hc.
  - rewrite deleted_next_id. unfold s1. by rewrite added_next_id.
Qed.

(** ** The menu *)

Lemma bind_input_eq {B} (k : string → M B) s x rest :
  stdin s = x :: rest → bind input k s = k x (set_stdin rest s).
Proof. intros H. unfold bind, input. by rewrite H. Qed.

Lemma non_empty_truthy (t : string) : t ≠ "" → truthy (VStr t) = true.
Proof. intros H. cbn [truthy]. by destruct (String.eqb_spec t ""). Qed.

(** X19: choice 1 of the menu turns down a priority that is none of the
    three: nothing is added or saved, the turn takes its three lines from
    the input, prints the complaint and goes on. *)
Theorem menu_rejects_bad_priority (s : state) (a t p : string)
    (rest : list string) :
  stdin s = a :: t :: p :: rest →
  strip a = "1" → strip t ≠ "" → strip p ≠ "" →
  is_priority (strip p) = false →
  iteration s
  = (Ok true,
     set_stdin rest (set_stdout (stdout s ++ [MenuMsg; BadPriorityMsg]) s)).
Proof.
  intros Hin Ha Ht Hp Hbad. unfold iteration.
  rewrite bind_print_eq, (bind_input_eq _ _ a (t :: p :: rest)) by done.
  cbv zeta. rewrite Ha. cbn [String.eqb Ascii.eqb Bool.eqb].
  rewrite (bind_input_eq _ _ t (p :: rest)) by done.
  cbv zeta. rewrite (non_empty_truthy _ Ht). cbn [negb].
  rewrite (bind_input_eq _ _ p rest) by done.
  cbv zeta. rewrite (non_empty_truthy _ Hp).
  change (existsb (String.eqb (strip p)) ["高"; "中"; "低"])
    with (is_priority (strip p)).
  rewrite Hbad. cbn [negb].
  unfold bind, print, modify, ret, set_stdin, set_stdout. cbn.
  by rewrite <-app_assoc.
Qed.

(** X20: choice 1 of the menu passes on to [add_task] the title and the
    priority with the blanks around them removed, and ["中"] when the
    priority line is blank; the task is added to the store the turn
    found. *)
Theorem menu_add_strips_and_defaults (s : state) (a t p : string)
    (rest : list string) :
  list_closed s →
  stdin s = a :: t :: p :: rest →
  strip a = "1" → strip t ≠ "" →
  is_priority (if String.eqb (strip p) "" then "中" else strip p) = true →
  iteration s
  = (Ok true,
     added (strip t) (if String.eqb (strip p) "" then "中" else strip p)
           (set_stdin rest (set_stdout (stdout s ++ [MenuMsg]) s))).
Proof.
  intros Hc Hin Ha Ht Hok. unfold iteration.
  rewrite bind_print_eq, (bind_input_eq _ _ a (t :: p :: rest)) by done.
  cbv zeta. rewrite Ha. cbn [String.eqb Ascii.eqb Bool.eqb].
  rewrite (bind_input_eq _ _ t (p :: rest)) by done.
  cbv zeta. rewrite (non_empty_truthy _ Ht). cbn [negb].
  rewrite (bind_input_eq _ _ p rest) by done.
  cbv zeta. cbn [truthy].
  set (prio := if String.eqb (strip p) "" then "中" else strip p) in *.
  assert ((if negb (String.eqb (strip p) "") then strip p else "中") = prio)
    as -> by (unfold prio; by destruct (String.eqb (strip p) "")).
  change (existsb (String.eqb prio) ["高"; "中"; "低"]) with (is_priority prio).
  rewrite Hok. cbn [negb].
  erewrite bind_ok; [done|]. by rewrite add_task_spec.
Qed.

(** X21: choices 3 and 4 show the list and then ask for an id; an answer
    that [int] does not accept is caught: the turn has printed the menu,
    the listing and the complaint, the loop goes on, and the store and
    the file are as they were. *)
Theorem menu_bad_id_changes_nothing (s : state) (a x : string)
    (rest : list string) :
  store_typed s →
  stdin s = a :: x :: rest →
  strip a = "3" ∨ strip a = "4" →
  parse_int (strip x) = None →
  iteration s
  = (Ok true,
     set_stdin rest
       (set_stdout
          (stdout s
           ++ MenuMsg
              :: match tasks_list s with
                 | [] => [NoTasksMsg]
                 | _ => ListHeader
                        :: map RowMsg (omap (row_of s) (shown s None))
                        ++ [ListFooter]
                 end
              ++ [BadIdMsg]) s)).
Proof.
  intros Hs Hin Ha Hx.
  set (s1 := set_stdin (x :: rest) (set_stdout (stdout s ++ [MenuMsg]) s)).
  set (out := match tasks_list s with
              | [] => [NoTasksMsg]
              | _ => ListHeader :: map RowMsg (omap (row_of s) (shown s None))
                     ++ [ListFooter]
              end).
  assert (list_tasks None s1 = (Ok tt, set_stdout (stdout s1 ++ out) s1)) as Hout.
  { unfold out. destruct (tasks_list s) as [|l ls] eqn:E.
    - unfold list_tasks. rewrite bind_gets_eq.
      change (tasks_list s1) with (tasks_list s). by rewrite E.
    - assert (store_typed s1) as Hs1 by exact Hs.
      assert (tasks_list s1 ≠ []) as Hne
        by (change (tasks_list s1) with (tasks_list s); by rewrite E).
      exact (list_tasks_spec None s1 Hs1 Hne). }
  clearbody out. unfold iteration.
  rewrite bind_print_eq, (bind_input_eq _ _ a (x :: rest)) by done.
  cbv zeta. fold s1.
  destruct Ha as [-> | ->]; cbn [String.eqb Ascii.eqb Bool.eqb];
    (erewrite bind_ok; [|exact Hout]);
    unfold bind at 1; unfold try_except;
    rewrite (bind_input_eq _ _ x rest) by done;
    unfold int; rewrite Hx;
    unfold bind, raise, print, modify, ret, s1, set_stdin, set_stdout; cbn;
    by rewrite <-!app_assoc.
Qed.

(** X22: choice 7 ends the loop at once: the run returns after the
    goodbye, and what is left of the input is not read. *)
Theorem menu_quit_leaves_input_unread (s : state) (a : string)
    (rest : list string) (fuel : nat) :
  stdin s = a :: rest → strip a = "7" →
  loop (S fuel) s
  = (Ok tt, set_stdin rest (set_stdout (stdout s ++ [MenuMsg; ByeMsg]) s)).
Proof.
  intros Hin Ha. cbn [loop].
  assert (iteration s
          = (Ok false,
             set_stdin rest (set_stdout (stdout s ++ [MenuMsg; ByeMsg]) s)))
    as Hit.
  { unfold iteration.
    rewrite bind_print_eq, (bind_input_eq _ _ a rest) by done.
    cbv zeta. rewrite Ha. cbn [String.eqb Ascii.eqb Bool.eqb].
    unfold bind, print, modify, ret, set_stdin, set_stdout. cbn.
    by rewrite <-app_assoc. }
  by rewrite (bind_ok _ _ _ _ _ Hit).
Qed.

(** X23: an answer that is none of the seven choices is reported and the
    loop goes on with nothing changed but the console and the input. *)
Theorem menu_unknown_choice_goes_on (s : state) (a : string)
    (rest : list string) :
  stdin s = a :: rest → is_choice (strip a) = false →
  iteration s
  = (Ok true,
     set_stdin rest (set_stdout (stdout s ++ [MenuMsg; BadChoiceMsg]) s)).
Proof.
  intros Hin Ha. unfold iteration.
  rewrite bind_print_eq, (bind_input_eq _ _ a rest) by done.
  cbv zeta. unfold is_choice in Ha. cbn [existsb] in Ha.
  rewrite !orb_false_iff in Ha. destruct Ha as (->&->&->&->&->&->&->&_).
  unfold bind, print, modify, ret, set_stdin, set_stdout. cbn.
  by rewrite <-app_assoc.
Qed.

(** X24: when the input is at its end as the menu asks for a choice,
    [input] raises [EOFError]; nothing catches it, so the run stops with
    it after the menu was printed, whatever the store holds. *)
Theorem menu_stops_at_end_of_input (s : state) (fuel : nat) :
  stdin s = [] →
  loop (S fuel) s = (Raise EOFError, set_stdout (stdout s ++ [MenuMsg]) s).
Proof.
  intros Hin. cbn [loop].
  assert (iteration s
          = (Raise EOFError, set_stdout (stdout s ++ [MenuMsg]) s)) as Hit.
  { unfold iteration. rewrite bind_print_eq. unfold bind, input.
    cbn [stdin set_stdout]. by rewrite Hin. }
  by rewrite (bind_raise _ _ _ _ _ Hit).
Qed.

Lemma bye_bind {A} (m : M A) (k : A → M bool) :
  (∀ a, ends_with_bye (k a)) → ends_with_bye (bind m k).
Proof.
  intros Hk s. unfold bind. destruct (m s) as [[a| |] s']; [apply (Hk a)|done..].
Qed.

Lemma bye_ret_true : ends_with_bye (ret true).
Proof. by intros s. Qed.

Lemma bye_quit : ends_with_bye (bind (print ByeMsg) (λ _, ret false)).
Proof.
  intros s _. unfold bind, print, modify, ret. cbn. apply last_snoc.
Qed.

Ltac bye := repeat (apply bye_bind; intros ?); try apply bye_ret_true.

Lemma bye_iteration : ends_with_bye iteration.
Proof.
  unfold iteration. apply bye_bind; intros _. apply bye_bind; intros answer.
  cbv zeta.
  destruct (String.eqb (strip answer) "1").
  { apply bye_bind; intros answer2. cbv zeta.
    destruct (negb (truthy (VStr (strip answer2)))); [bye|].
    apply bye_bind; intros answer3. cbv zeta.
    destruct (negb (existsb _ _)); bye. }
  destruct (String.eqb (strip answer) "2"); [bye|].
  destruct (String.eqb (strip answer) "3"); [bye|].
  destruct (String.eqb (strip answer) "4"); [bye|].
  destruct (String.eqb (strip answer) "5"); [bye|].
  destruct (String.eqb (strip answer) "6"); [bye|].
  destruct (String.eqb (strip answer) "7"); [apply bye_quit|bye].
Qed.

Lemma loop_bye fuel s :
  (loop fuel s).1 = Ok tt → last (stdout (loop fuel s).2) = Some ByeMsg.
Proof.
  revert s. induction fuel as [|fuel IH]; intros s; [done|].
  change (loop (S fuel) s)
    with (bind iteration (λ go_on : bool, if go_on then loop fuel else ret tt) s).
  unfold bind. pose proof (bye_iteration s) as Hq.
  destruct (iteration s) as [[[|]| |] s']; cbn [fst snd] in *;
    [apply IH|intros _; by apply Hq|done..].
Qed.

(** X25: the loop of [run] is left only through choice 7: whenever [run]
    returns, the last line on the console is the goodbye. *)
Theorem run_returns_only_after_quit (s : state) :
  (run s).1 = Ok tt → last (stdout (run s).2) = Some ByeMsg.
Proof.
  unfold run. rewrite bind_print_eq, bind_gets_eq. apply loop_bye.
Qed.

Lemma bind_ret_snd {A B} (m : M A) (b : B) s :
  (bind m (λ _, ret b) s).2 = (m s).2.
Proof. unfold bind. by destruct (m s) as [[?| |] ?]. Qed.

Lemma views_inv_same s s' : same_store s s' → views_inv s → views_inv s'.
Proof.
  intros (Hl&Hd&Hn&Hh&_) [Hc Ha].
  assert (∀ l, field s' l "id" = field s l "id") as Hf
    by (intros l; unfold field; by rewrite Hh).
  split.
  - apply (consistent_transfer s); try done.
    apply (list_closed_ext s); [done..|apply Hc].
  - by apply (next_id_above_transfer s).
Qed.

Lemma quiet_views {A} (m : M A) : quiet m → preserves views_inv m.
Proof. intros Hm s Hs. apply (views_inv_same s); [apply (Hm s)|done]. Qed.

Lemma add_task_views title prio : preserves views_inv (add_task title prio).
Proof.
  intros s [Hc Ha]. pose proof (wf_closed s (cons_wf s Hc)) as Hcl.
  rewrite add_task_spec by done. cbn [snd].
  split; [by apply added_consistent|by apply added_next_id_above].
Qed.

Lemma complete_task_views n : preserves views_inv (complete_task n).
Proof.
  intros s [Hc Ha].
  destruct (exec_preserves (Complete n) s (cons_wf s Hc) Ha) as (_&Ha'&Hc').
  cbn [exec] in *. rewrite bind_ret_snd in *. split; auto.
Qed.

Lemma delete_task_views n : preserves views_inv (delete_task n).
Proof.
  intros s [Hc Ha].
  destruct (exec_preserves (Delete n) s (cons_wf s Hc) Ha) as (_&Ha'&Hc').
  cbn [exec] in *. rewrite bind_ret_snd in *. split; auto.
Qed.

Ltac pres_views :=
  apply quiet_views;
  first [ apply quiet_list_tasks | apply quiet_sort_by_priority
        | apply quiet_get_statistics | quiet ].

Lemma iteration_views : preserves views_inv iteration.
Proof.
  unfold iteration.
  apply preserves_bind; [pres_views|intros _].
  apply preserves_bind; [pres_views|intros answer]. cbv zeta.
  destruct (String.eqb (strip answer) "1").
  { apply preserves_bind; [pres_views|intros answer2]. cbv zeta.
    destruct (negb (truthy (VStr (strip answer2)))); [pres_views|].
    apply preserves_bind; [pres_views|intros answer3]. cbv zeta.
    destruct (negb (existsb _ _)); [pres_views|].
    apply preserves_bind; [|intros task; pres_views].
    apply add_task_views. }
  destruct (String.eqb (strip answer) "2").
  { apply preserves_bind; [pres_views|intros _; pres_views]. }
  destruct (String.eqb (strip answer) "3").
  { apply preserves_bind; [pres_views|intros _].
    apply preserves_bind; [|intros _; pres_views].
    apply preserves_try; [|intros _; pres_views].
    apply preserves_bind; [pres_views|intros answer2].
    apply preserves_bind; [pres_views|intros task_id].
    apply complete_task_views. }
  destruct (String.eqb (strip answer) "4").
  { apply preserves_bind; [pres_views|intros _].
    apply preserves_bind; [|intros _; pres_views].
    apply preserves_try; [|intros _; pres_views].
    apply preserves_bind; [pres_views|intros answer2].
    apply preserves_bind; [pres_views|intros task_id].
    apply delete_task_views. }
  destruct (String.eqb (strip answer) "5").
  { apply preserves_bind; [pres_views|intros st; pres_views]. }
  destruct (String.eqb (strip answer) "6").
  { apply preserves_bind; [pres_views|intros sorted_tasks].
    apply preserves_bind; [pres_views|intros _].
    apply preserves_bind; [|intros _; pres_views].
    apply quiet_views, quiet_for_each, quiet_show_sorted_row. }
  destruct (String.eqb (strip answer) "7"); pres_views.
Qed.

Lemma loop_views fuel : preserves views_inv (loop fuel).
Proof.
  induction fuel as [|fuel IH]; cbn [loop]; [by intros s|].
  apply preserves_bind; [apply iteration_views|].
  intros [|]; [done|pres_views].
Qed.

(** X26: the menu keeps the two views in agreement.  From a store in
    which the index and the ordered sequence hold the same tasks, each
    once, with [next_id] above their ids, a whole run leaves such a
    store, whatever is typed and whether the run returns or stops with
    an exception; so does the script when there is no file to load. *)
Theorem run_keeps_views_consistent (s : state) :
  (consistent s → next_id_above s →
   consistent (run s).2 ∧ next_id_above (run s).2)
  ∧ (file s = None →
     consistent (main s).2 ∧ next_id_above (main s).2).
Proof.
  assert (preserves views_inv run) as Hrun.
  { unfold run. apply preserves_bind; [pres_views|intros _].
    apply preserves_bind; [pres_views|intros fuel]. apply loop_views. }
  split.
  - intros Hc Ha. by apply (Hrun s).
  - intros Hf. assert (main s = run (blank s)) as ->.
    { unfold main. apply (bind_ok init (λ _, run) s tt (blank s)).
      rewrite init_blank.
      by apply load_tasks_absent. }
    apply (Hrun (blank s)). split; [apply blank_consistent|apply blank_next_id_above].
Qed.

(** ** Files that decode but do not hold tasks *)







(** ** The order of a listing *)

Lemma filter_none_in {A} (f : A → bool) (xs : list A) :
  (∀ x, x ∈ xs → f x = false) → List.filter f xs = [].
Proof.
  induction xs as [|x xs IH]; intros H; cbn [List.filter]; [done|].
  rewrite (H x) by left. apply IH. intros y Hy. apply H. by right.
Qed.

Lemma sorted_stable_unique {A} (k : A → Z) (l1 l2 : list A) :
  StronglySorted (λ a b, k a ≤ k b) l1 →
  StronglySorted (λ a b, k a ≤ k b) l2 →
  (∀ r, List.filter (λ a, k a =? r) l1 = List.filter (λ a, k a =? r) l2) →
  l1 = l2.
Proof.
  revert l2. induction l1 as [|x xs IH]; intros [|y ys] H1 H2 Hfil; [done|..].
  - specialize (Hfil (k y)). cbn [List.filter] in Hfil.
    by rewrite Z.eqb_refl in Hfil.
  - specialize (Hfil (k x)). cbn [List.filter] in Hfil.
    by rewrite Z.eqb_refl in Hfil.
  - apply StronglySorted_inv in H1 as [H1 Hx]. apply StronglySorted_inv in H2 as [H2 Hy].
    rewrite List.Forall_forall in Hx, Hy.
    assert (k y ≤ k x) as Hyx.
    { pose proof (Hfil (k x)) as H. cbn [List.filter] in H.
      rewrite Z.eqb_refl in H.
      assert (In x (y :: List.filter (λ a, k a =? k x) ys)) as [->|Hin].
      { destruct (k y =? k x); rewrite <-H; [by left|right; by left]. }
      - lia.
      - apply filter_In in Hin as [Hin _]. by apply Hy. }
    assert (k x ≤ k y) as Hxy.
    { pose proof (Hfil (k y)) as H. cbn [List.filter] in H.
      rewrite Z.eqb_refl in H.
      assert (In y (x :: List.filter (λ a, k a =? k y) xs)) as [->|Hin].
      { destruct (k x =? k y); rewrite H; [by left|right; by left]. }
      - lia.
      - apply filter_In in Hin as [Hin _]. by apply Hx. }
    assert (k x = k y) as Hk by lia.
    pose proof (Hfil (k x)) as H. cbn [List.filter] in H.
    rewrite <-Hk, Z.eqb_refl in H. injection H as <- _. f_equal.
    apply IH; [done..|]. intros r. specialize (Hfil r).
    cbn [List.filter] in Hfil. destruct (k x =? r); [by injection Hfil|done].
Qed.

(** X28: what [sorted] promises fixes what the program shows.  On a store
    of well-typed tasks, take any arrangement of the selected tasks that
    is sorted by rank and keeps the tasks of each priority in their
    order: [list_tasks] prints the rows of exactly that arrangement
    between header and footer, and without a filter it is the list
    [sort_by_priority] returns. *)
Theorem listing_order_is_determined (f : option priority) (s : state)
    (ls : list loc) :
  store_typed s → tasks_list s ≠ [] →
  ls ≡ₚ selected s f →
  StronglySorted (λ a b, rank_of s a ≤ rank_of s b) ls →
  (∀ p, List.filter (has_priority s p) ls
        = List.filter (has_priority s p) (selected s f)) →
  list_tasks (priority_str <$> f) s
  = (Ok tt,
     set_stdout (stdout s ++ ListHeader :: map RowMsg (omap (row_of s) ls)
                          ++ [ListFooter]) s)
  ∧ (f = None → sort_by_priority s = (Ok ls, s)).
Proof.
  intros Hs Hne Hperm Hsorted Hstable.
  assert (ls = shown s f) as ->.
  { apply (sorted_stable_unique (rank_of s)); [done|apply sort_by_sorted|].
    intros r. unfold shown. rewrite sort_by_stable.
    assert (∀ l, l ∈ selected s f → ∃ q, rank_of s l = rank q) as Hrank.
    { intros l Hl%selected_listed.
      destruct (typed_priority s l Hs Hl) as (q&_&Hq).
      exists q. unfold rank_of. by rewrite Hq. }
    assert ((∃ p, r = rank p) ∨ ¬ (∃ p, r = rank p)) as [[p ->]|Hno].
    { destruct (decide (r = 1)) as [->|?]; [left; by exists High|].
      destruct (decide (r = 2)) as [->|?]; [left; by exists Medium|].
      destruct (decide (r = 3)) as [->|?]; [left; by exists Low|].
      right. intros [[] ?]; cbn in *; lia. }
    - specialize (Hstable p).
      by rewrite !(filter_ext (has_priority s p) (λ a, rank_of s a =? rank p))
        in Hstable by (intros; apply has_priority_rank).
    - rewrite !filter_none_in; [done|..].
      + intros l Hl. destruct (Hrank l Hl) as [q Hq]. apply Z.eqb_neq.
        intros <-. apply Hno. eauto.
      + intros l Hl. rewrite Hperm in Hl. destruct (Hrank l Hl) as [q Hq].
        apply Z.eqb_neq. intros <-. apply Hno. eauto. }
  split; [by apply list_tasks_spec|].
  intros ->. unfold sort_by_priority. rewrite bind_gets_eq.
  apply (sorted_spec (rank_of s)), map_m_ok.
  intros l Hl. by apply typed_key.
Qed.

End TodoApp.
(** * The reference codec

    [Lib.load] reads back what [Lib.dumps] writes, for every value a
    Python program can hold and encode. *)

Ltac each_char c := destruct c as [[] [] [] [] [] [] [] []].

Lemma read_uint_uint_to d rest :
  match rest with String c _ => Lib.is_digit c = false | EmptyString => True end →
  Lib.read_uint (Lib.uint_to d rest) = (d, rest).
Proof.
  intros H. induction d; cbn; rewrite ?IHd; try reflexivity.
  destruct rest as [|c r]; [done|]. cbn. unfold Lib.is_digit in H.
  by destruct (Lib.digit c).
Qed.

Lemma uint_beq_refl d : Decimal.uint_beq d d = true.
Proof. induction d; cbn; auto. Qed.

Lemma to_uint_norm n : Decimal.unorm (N.to_uint n) = N.to_uint n.
Proof.
  transitivity (N.to_uint (N.of_uint (N.to_uint n))).
  - symmetry. apply DecimalN.Unsigned.to_of.
  - f_equal. apply DecimalN.Unsigned.of_to.
Qed.

Lemma to_uint_nonnil n : N.to_uint n ≠ Decimal.Nil.
Proof. destruct n; [discriminate|apply DecimalPos.Unsigned.to_uint_nonnil]. Qed.

Lemma delimited_not_digit rest :
  Lib.delimited rest = true →
  match rest with String c _ => Lib.is_digit c = false | EmptyString => True end.
Proof. destruct rest as [|c r]; [done|]. each_char c; done. Qed.

Lemma delimited_not_fraction rest :
  Lib.delimited rest = true → Lib.starts_fraction rest = false.
Proof. destruct rest as [|c r]; [done|]. each_char c; done. Qed.

Lemma digit_head_not_minus c r :
  Lib.is_digit c = true →
  match String c r with
  | String "-" r' => (true, r')
  | _ => (false, String c r)
  end = (false, String c r).
Proof. each_char c; done. Qed.

Lemma uint_to_head d rest :
  d ≠ Decimal.Nil → ∃ c r, Lib.uint_to d rest = String c r ∧ Lib.is_digit c = true.
Proof. destruct d; [done|..]; intros _; cbn; eauto. Qed.

Lemma read_number_decimal z rest :
  Lib.short (N.to_uint (Z.abs_N z)) = true →
  Lib.delimited rest = true →
  Lib.read_number (Lib.decimal_to z rest) = Ok (z, rest).
Proof.
  intros Hsh Hd. unfold Lib.decimal_to.
  set (d := N.to_uint (Z.abs_N z)) in *.
  assert (d ≠ Decimal.Nil) as Hn by apply to_uint_nonnil.
  assert (Decimal.unorm d = d) as Hu by apply to_uint_norm.
  assert (Z.of_N (N.of_uint d) = Z.abs z) as Ho.
  { unfold d. by rewrite DecimalN.Unsigned.of_to, N2Z.inj_abs_N. }
  pose proof (read_uint_uint_to d rest (delimited_not_digit rest Hd)) as Hr.
  pose proof (delimited_not_fraction rest Hd) as Hf.
  clearbody d. destruct (z <? 0) eqn:Hz; unfold Lib.read_number.
  - rewrite Hr. destruct d; [done|..]; rewrite Hu, uint_beq_refl, Hf, Hsh, Ho;
      f_equal; f_equal; lia.
  - destruct (uint_to_head d rest Hn) as (c&r&Hs&Hc).
    rewrite Hs, (digit_head_not_minus c r Hc), <-Hs, Hr.
    destruct d; [done|..]; rewrite Hu, uint_beq_refl, Hf, Hsh, Ho;
      f_equal; f_equal; lia.
Qed.

Lemma read_string_escape_char c x :
  Lib.read_string (Lib.escape_char c x)
  = Lib.prepend (String c "") (Lib.read_string x).
Proof. each_char c; reflexivity. Qed.

Lemma read_string_escape s rest :
  Lib.read_string (Lib.escape_to s (String Lib.dquote rest)) = Ok (s, rest).
Proof.
  induction s as [|c s IH]; [reflexivity|].
  cbn [Lib.escape_to]. by rewrite read_string_escape_char, IH.
Qed.

(** What is written is text. *)
Lemma utf8_run_escape_char st c x :
  Lib.utf8_run st (Lib.escape_char c x)
  = match Lib.utf8_step st c with
    | Some st' => Lib.utf8_run st' x
    | None => None
    end.
Proof. destruct st; each_char c; reflexivity. Qed.

Lemma utf8_run_escape st s x :
  Lib.utf8_run st (Lib.escape_to s x)
  = match Lib.utf8_run st s with
    | Some st' => Lib.utf8_run st' x
    | None => None
    end.
Proof.
  revert st. induction s as [|c s IH]; intros st; [reflexivity|].
  cbn [Lib.escape_to Lib.utf8_run]. rewrite utf8_run_escape_char.
  destruct (Lib.utf8_step st c); [apply IH|done].
Qed.

Lemma utf8_run_quote s x :
  Lib.utf8 s = true →
  Lib.utf8_run Lib.U0 (Lib.quote_to s x) = Lib.utf8_run Lib.U0 x.
Proof.
  unfold Lib.utf8, Lib.quote_to. intros H.
  change (Lib.utf8_run Lib.U0 (String Lib.dquote ?y))
    with (Lib.utf8_run Lib.U0 y).
  rewrite utf8_run_escape.
  destruct (Lib.utf8_run Lib.U0 s) as [[]|]; done.
Qed.

Lemma utf8_run_uint d x :
  Lib.utf8_run Lib.U0 (Lib.uint_to d x) = Lib.utf8_run Lib.U0 x.
Proof. induction d; cbn [Lib.uint_to]; [done|..]; exact IHd. Qed.

Lemma utf8_run_decimal z x :
  Lib.utf8_run Lib.U0 (Lib.decimal_to z x) = Lib.utf8_run Lib.U0 x.
Proof.
  unfold Lib.decimal_to. destruct (z <? 0); [|apply utf8_run_uint].
  change (Lib.utf8_run Lib.U0 (String "-" ?y)) with (Lib.utf8_run Lib.U0 y).
  apply utf8_run_uint.
Qed.

Lemma utf8_run_spaces n x :
  Lib.utf8_run Lib.U0 (Lib.spaces n x) = Lib.utf8_run Lib.U0 x.
Proof. induction n as [|n IH]; [done|exact IH]. Qed.

Lemma utf8_run_newline level x :
  Lib.utf8_run Lib.U0 (Lib.newline_to level x) = Lib.utf8_run Lib.U0 x.
Proof. apply (utf8_run_spaces (2 * level)). Qed.

Lemma size_positive v : (1 ≤ Lib.size v)%nat.
Proof. destruct v; cbn; lia. Qed.

Lemma utf8_run_dumps_bounded n :
  (∀ v level rest, (Lib.size v ≤ n)%nat → Lib.encodable v = true →
     Lib.utf8_run Lib.U0 (Lib.dumps_to level v rest) = Lib.utf8_run Lib.U0 rest)
  ∧ (∀ l level rest, (Lib.elems_size l ≤ n)%nat →
       forallb Lib.encodable l = true →
       Lib.utf8_run Lib.U0 (Lib.elems_to Lib.dumps_to level l rest)
       = Lib.utf8_run Lib.U0 rest)
  ∧ (∀ d level rest, (Lib.members_size d ≤ n)%nat →
       forallb Lib.encodable_member d = true →
       Lib.utf8_run Lib.U0 (Lib.members_to Lib.dumps_to level d rest)
       = Lib.utf8_run Lib.U0 rest).
Proof.
  induction n as [|n (IHv&IHl&IHd)].
  { split; [|split].
    - intros v level rest Hs. pose proof (size_positive v). lia.
    - intros [|x l] level rest Hs _;
        [exact (utf8_run_newline level (String "]" rest))|]. cbn in Hs. lia.
    - intros [|[k x] d] level rest Hs _;
        [exact (utf8_run_newline level (String "}" rest))|]. cbn in Hs. lia. }
  split; [|split].
  - intros v level rest Hs Hst. destruct v as [|[]|z|s|l|d]; try reflexivity.
    + apply utf8_run_decimal.
    + by apply utf8_run_quote.
    + cbn in Hs. destruct l as [|x l]; [done|].
      apply (IHl (x :: l) level rest); [unfold Lib.elems_size; lia|done].
    + cbn in Hs, Hst. apply andb_true_iff in Hst as [Hst _].
      destruct d as [|kx d]; [done|].
      apply (IHd (kx :: d) level rest); [unfold Lib.members_size; lia|done].
  - intros [|x l] level rest Hs Hst;
      [exact (utf8_run_newline level (String "]" rest))|]. cbn in Hs, Hst.
    apply andb_true_iff in Hst as [Hx Hl]. fold (Lib.elems_size l) in Hs.
    cbn [Lib.elems_to]. rewrite utf8_run_newline, IHv by (done || lia).
    destruct l as [|y l]; [exact (utf8_run_newline level (String "]" rest))|].
    change (Lib.utf8_run Lib.U0 (String "," ?y)) with (Lib.utf8_run Lib.U0 y).
    apply (IHl (y :: l) level rest); [lia|done].
  - intros [|[k x] d] level rest Hs Hst;
      [exact (utf8_run_newline level (String "}" rest))|].
    cbn in Hs, Hst. apply andb_true_iff in Hst as [Hkx Hd].
    apply andb_true_iff in Hkx as [Hk Hx]. fold (Lib.members_size d) in Hs.
    cbn [Lib.members_to]. rewrite utf8_run_newline, utf8_run_quote by done.
    change (Lib.utf8_run Lib.U0 (String ":" (String " " ?y)))
      with (Lib.utf8_run Lib.U0 y).
    rewrite IHv by (done || lia).
    destruct d as [|y d]; [exact (utf8_run_newline level (String "}" rest))|].
    change (Lib.utf8_run Lib.U0 (String "," ?y)) with (Lib.utf8_run Lib.U0 y).
    apply (IHd (y :: d) level rest); [lia|done].
Qed.

Lemma utf8_dumps v : Lib.encodable v = true → Lib.utf8 (Lib.dumps v) = true.
Proof.
  intros Hst. unfold Lib.utf8, Lib.dumps.
  destruct (utf8_run_dumps_bounded (Lib.size v)) as [H _].
  by rewrite H.
Qed.

(** The parser skips the line breaks and the indentation. *)
Lemma value_start_facts c :
  Lib.value_start c = true →
  Lib.is_space c = false ∧ Ascii.eqb c "]" = false ∧ Ascii.eqb c "}" = false.
Proof. each_char c; done. Qed.

Lemma starts_value_dumps level v rest :
  Lib.starts_value (Lib.dumps_to level v rest) = true.
Proof.
  destruct v as [|[]|z|s|l|d]; try reflexivity.
  cbn [Lib.dumps_to]. unfold Lib.decimal_to. destruct (z <? 0); [done|].
  destruct (uint_to_head (N.to_uint (Z.abs_N z)) rest (to_uint_nonnil _))
    as (c&r&->&Hc).
  cbn. unfold Lib.value_start. by rewrite Hc.
Qed.

Lemma lstrip_starts_value s : Lib.starts_value s = true → Lib.lstrip s = s.
Proof.
  destruct s as [|c r]; [done|]. cbn. intros H.
  by destruct (value_start_facts c H) as (->&_).
Qed.

Lemma head_is_starts_value s :
  Lib.starts_value s = true →
  Lib.head_is "]" s = false ∧ Lib.head_is "}" s = false.
Proof.
  destruct s as [|c r]; [done|]. cbn. intros H.
  by destruct (value_start_facts c H) as (_&->&->).
Qed.

Lemma lstrip_spaces n s : Lib.lstrip (Lib.spaces n s) = Lib.lstrip s.
Proof. induction n as [|n IH]; [done|exact IH]. Qed.

Lemma lstrip_newline level s :
  Lib.lstrip (Lib.newline_to level s) = Lib.lstrip s.
Proof. apply (lstrip_spaces (2 * level)). Qed.

Lemma lstrip_idem s : Lib.lstrip (Lib.lstrip s) = Lib.lstrip s.
Proof.
  induction s as [|c r IH]; [done|]. cbn.
  destruct (Lib.is_space c) eqn:E; [exact IH|]. cbn. by rewrite E.
Qed.

Lemma read_value_lstrip fuel depth s s' :
  Lib.lstrip s = Lib.lstrip s' →
  Lib.read_value fuel depth s = Lib.read_value fuel depth s'.
Proof. intros H. destruct fuel; [done|]. cbn [Lib.read_value]. by rewrite H. Qed.

Lemma read_members_lstrip fuel depth s s' :
  Lib.lstrip s = Lib.lstrip s' →
  Lib.read_members fuel depth s = Lib.read_members fuel depth s'.
Proof.
  intros H. destruct fuel; [done|]. cbn [Lib.read_members]. by rewrite H.
Qed.

Lemma read_elements_lstrip fuel depth s s' :
  Lib.lstrip s = Lib.lstrip s' →
  Lib.read_elements fuel depth s = Lib.read_elements fuel depth s'.
Proof.
  intros H. destruct fuel; [done|]. cbn [Lib.read_elements].
  by rewrite (read_value_lstrip fuel depth s s' H).
Qed.

Lemma read_value_number fuel depth z rest :
  Lib.short (N.to_uint (Z.abs_N z)) = true →
  Lib.delimited rest = true →
  Lib.read_value (S fuel) depth (Lib.decimal_to z rest) = Ok (VInt z, rest).
Proof.
  intros Hsh Hd. pose proof (read_number_decimal z rest Hsh Hd) as Hr.
  assert (∃ c r, Lib.decimal_to z rest = String c r
                 ∧ (Lib.is_digit c = true ∨ c = "-"%char)) as (c&r&Hs&Hc).
  { unfold Lib.decimal_to. destruct (z <? 0); [eauto|].
    destruct (uint_to_head (N.to_uint (Z.abs_N z)) rest (to_uint_nonnil _))
      as (c&r&->&Hc). eauto. }
  rewrite Hs in *.
  assert (Lib.read_value (S fuel) depth (String c r)
          = Lib.rbind (Lib.read_number (String c r))
                      (λ '(z, r'), Ok (VInt z, r'))) as ->.
  { clear Hr Hs. each_char c; destruct Hc as [Hc|Hc]; try discriminate Hc;
      reflexivity. }
  by rewrite Hr.
Qed.

Lemma read_value_string fuel depth s rest :
  Lib.read_value (S fuel) depth (Lib.quote_to s rest) = Ok (VStr s, rest).
Proof.
  change (Lib.read_value (S fuel) depth (Lib.quote_to s rest))
    with (Lib.rbind (Lib.read_string (Lib.escape_to s (String Lib.dquote rest)))
                    (λ '(body, r'), Ok (VStr body, r'))).
  by rewrite read_string_escape.
Qed.

Lemma dict_set_new d k v :
  existsb (String.eqb k) (map fst d) = false → dict_set d k v = d ++ [(k, v)].
Proof.
  induction d as [|[k' v'] d IH]; [done|]. cbn.
  rewrite orb_false_iff. intros [Hk Hd]. rewrite String.eqb_sym, Hk.
  by rewrite IH.
Qed.

Lemma normalize_distinct d : Lib.distinct_keys d = true → Lib.normalize d = d.
Proof.
  unfold Lib.normalize.
  assert (∀ acc,
            (∀ k, k ∈ map fst d → existsb (String.eqb k) (map fst acc) = false) →
            Lib.distinct_keys d = true →
            fold_left (λ acc kv, dict_set acc kv.1 kv.2) d acc = acc ++ d) as H.
  { induction d as [|[k v] d IH]; intros acc Hacc Hd; cbn; [by rewrite app_nil_r|].
    cbn in Hd. apply andb_true_iff in Hd as [Hk Hd]. apply negb_true_iff in Hk.
    rewrite dict_set_new by (apply Hacc; by left).
    rewrite IH, <-app_assoc; [done| |done].
    intros k' Hk'. rewrite map_app, existsb_app. cbn.
    rewrite (Hacc k') by by right. cbn. rewrite orb_false_r.
    destruct (String.eqb_spec k' k) as [->|]; [|done].
    apply not_true_iff_false in Hk. destruct Hk.
    apply existsb_exists. exists k. split; [by apply list_elem_of_In|].
    apply String.eqb_refl. }
  intros Hd. by rewrite H.
Qed.

Lemma elems_to_nil f level rest :
  Lib.elems_to f level [] rest = Lib.newline_to level (String "]" rest).
Proof. reflexivity. Qed.

Lemma elems_to_cons f level x l rest :
  Lib.elems_to f level (x :: l) rest
  = Lib.newline_to (S level)
      (f (S level) x
         match l with
         | [] => Lib.elems_to f level l rest
         | _ => String "," (Lib.elems_to f level l rest)
         end).
Proof. reflexivity. Qed.

Lemma members_to_nil f level rest :
  Lib.members_to f level [] rest = Lib.newline_to level (String "}" rest).
Proof. reflexivity. Qed.

Lemma members_to_cons f level k x d rest :
  Lib.members_to f level ((k, x) :: d) rest
  = Lib.newline_to (S level)
      (Lib.quote_to k
         (String ":" (String " "
            (f (S level) x
               match d with
               | [] => Lib.members_to f level d rest
               | _ => String "," (Lib.members_to f level d rest)
               end)))).
Proof. reflexivity. Qed.

Lemma lstrip_elems level x l rest :
  Lib.starts_value (Lib.lstrip (Lib.elems_to Lib.dumps_to level (x :: l) rest))
  = true.
Proof.
  rewrite elems_to_cons, lstrip_newline.
  by rewrite lstrip_starts_value; rewrite starts_value_dumps.
Qed.

Lemma lstrip_members level k x d rest :
  Lib.head_is "}"
    (Lib.lstrip (Lib.members_to Lib.dumps_to level ((k, x) :: d) rest))
  = false.
Proof. by rewrite members_to_cons, lstrip_newline. Qed.

Lemma read_value_dumps_bounded n :
  (∀ v level k rest, (Lib.size v ≤ n)%nat → Lib.encodable v = true →
     (Lib.depth v ≤ k)%nat → Lib.delimited rest = true →
     Lib.read_value n k (Lib.dumps_to level v rest) = Ok (v, rest))
  ∧ (∀ l level k rest, l ≠ [] → (Lib.elems_size l ≤ n)%nat →
       forallb Lib.encodable l = true → (Lib.elems_depth l ≤ k)%nat →
       Lib.read_elements n k (Lib.elems_to Lib.dumps_to level l rest)
       = Ok (l, rest))
  ∧ (∀ d level k rest, d ≠ [] → (Lib.members_size d ≤ n)%nat →
       forallb Lib.encodable_member d = true → (Lib.members_depth d ≤ k)%nat →
       Lib.read_members n k (Lib.members_to Lib.dumps_to level d rest)
       = Ok (d, rest)).
Proof.
  induction n as [|n (IHv&IHl&IHd)].
  { split; [|split].
    - intros v level k rest Hs. pose proof (size_positive v). lia.
    - intros [|x l] level k rest Hne Hs; [done|]. cbn in Hs. lia.
    - intros [|[key x] d] level k rest Hne Hs; [done|]. cbn in Hs. lia. }
  split; [|split].
  - intros v level k rest Hs Hst Hk Hd.
    destruct v as [|[]|z|s|l|d]; try reflexivity.
    + by apply read_value_number.
    + apply read_value_string.
    + cbn in Hs. fold (Lib.elems_size l) in Hs.
      change (Lib.depth (VList l)) with (S (Lib.elems_depth l)) in Hk.
      destruct k as [|k]; [lia|]. destruct l as [|x l]; [done|].
      change (Lib.read_value (S n) (S k) (Lib.dumps_to level (VList (x :: l)) rest))
        with (if Lib.head_is "]"
                   (Lib.lstrip (Lib.elems_to Lib.dumps_to level (x :: l) rest))
              then Ok (VList [],
                       Lib.tail
                         (Lib.lstrip
                            (Lib.elems_to Lib.dumps_to level (x :: l) rest)))
              else Lib.rbind
                     (Lib.read_elements n k
                        (Lib.elems_to Lib.dumps_to level (x :: l) rest))
                     (λ '(l, r'), Ok (VList l, r'))).
      destruct (head_is_starts_value _ (lstrip_elems level x l rest)) as [-> _].
      by rewrite IHl by (done || lia).
    + cbn in Hs, Hst. fold (Lib.members_size d) in Hs.
      change (Lib.depth (VDict d)) with (S (Lib.members_depth d)) in Hk.
      apply andb_true_iff in Hst as [Hst Hdk].
      destruct k as [|k]; [lia|]. destruct d as [|[key x] d]; [done|].
      change (Lib.read_value (S n) (S k)
                (Lib.dumps_to level (VDict ((key, x) :: d)) rest))
        with (if Lib.head_is "}"
                   (Lib.lstrip
                      (Lib.members_to Lib.dumps_to level ((key, x) :: d) rest))
              then Ok (VDict [],
                       Lib.tail
                         (Lib.lstrip
                            (Lib.members_to Lib.dumps_to level ((key, x) :: d)
                               rest)))
              else Lib.rbind
                     (Lib.read_members n k
                        (Lib.members_to Lib.dumps_to level ((key, x) :: d) rest))
                     (λ '(d, r'), Ok (VDict (Lib.normalize d), r'))).
      rewrite lstrip_members.
      rewrite IHd by (done || lia). cbn [Lib.rbind].
      by rewrite normalize_distinct.
  - intros [|x l] level k rest Hne Hs Hst Hk; [done|]. cbn in Hs, Hst.
    fold (Lib.elems_size l) in Hs. apply andb_true_iff in Hst as [Hx Hl].
    change (Lib.elems_depth (x :: l))
      with (Nat.max (Lib.depth x) (Lib.elems_depth l)) in Hk.
    rewrite elems_to_cons. cbn [Lib.read_elements].
    rewrite (read_value_lstrip n k _ _ (lstrip_newline (S level) _)).
    destruct l as [|y l].
    + rewrite elems_to_nil, IHv by (done || lia). cbn [Lib.rbind].
      by rewrite lstrip_newline.
    + rewrite IHv by (done || lia). cbn [Lib.rbind].
      change (Lib.lstrip (String "," ?r)) with (String "," r). cbv iota beta.
      by rewrite (IHl (y :: l) level k rest) by (done || lia).
  - intros [|[key x] d] level k rest Hne Hs Hst Hk; [done|]. cbn in Hs, Hst.
    fold (Lib.members_size d) in Hs. apply andb_true_iff in Hst as [Hkx Hd].
    apply andb_true_iff in Hkx as [Hkey Hx].
    change (Lib.members_depth ((key, x) :: d))
      with (Nat.max (Lib.depth x) (Lib.members_depth d)) in Hk.
    rewrite members_to_cons.
    rewrite (read_members_lstrip (S n) k _ _ (lstrip_newline (S level) _)).
    set (tail := match d with
                 | [] => Lib.members_to Lib.dumps_to level d rest
                 | _ => String "," (Lib.members_to Lib.dumps_to level d rest)
                 end).
    change (Lib.read_members (S n) k
              (Lib.quote_to key (String ":" (String " "
                 (Lib.dumps_to (S level) x _)))))
      with (Lib.rbind
              (Lib.read_string
                 (Lib.escape_to key
                    (String Lib.dquote
                       (String ":" (String " "
                          (Lib.dumps_to (S level) x tail))))))
              (λ '(k0, r1),
                 match Lib.lstrip r1 with
                 | String ":" r2 =>
                     Lib.rbind (Lib.read_value n k r2) (λ '(v, r3),
                       match Lib.lstrip r3 with
                       | String "," r4 =>
                           Lib.rbind (Lib.read_members n k r4)
                                     (λ '(d, r5), Ok ((k0, v) :: d, r5))
                       | String "}" r4 => Ok ([(k0, v)], r4)
                       | _ => Raise JSONDecodeError
                       end)
                 | _ => Raise JSONDecodeError
                 end)).
    rewrite read_string_escape. cbn [Lib.rbind].
    change (Lib.lstrip (String ":" ?r)) with (String ":" r). cbv iota beta.
    rewrite (read_value_lstrip n k (String " " (Lib.dumps_to (S level) x tail))
               (Lib.dumps_to (S level) x tail) eq_refl).
    unfold tail. destruct d as [|y d].
    + rewrite members_to_nil, IHv by (done || lia). cbn [Lib.rbind].
      by rewrite lstrip_newline.
    + rewrite IHv by (done || lia). cbn [Lib.rbind].
      change (Lib.lstrip (String "," ?r)) with (String "," r). cbv iota beta.
      by rewrite (IHd (y :: d) level k rest) by (done || lia).
Qed.

(** The fuel [Lib.loads] gives the parser is enough. *)
Lemma length_escape_char c x :
  (S (String.length x) ≤ String.length (Lib.escape_char c x))%nat.
Proof. unfold Lib.escape_char. repeat case_match; cbn; lia. Qed.

Lemma length_escape s x :
  (String.length x ≤ String.length (Lib.escape_to s x))%nat.
Proof.
  induction s as [|c s IH]; cbn [Lib.escape_to]; [done|].
  pose proof (length_escape_char c (Lib.escape_to s x)). lia.
Qed.

Lemma length_uint d x :
  d ≠ Decimal.Nil → (S (String.length x) ≤ String.length (Lib.uint_to d x))%nat.
Proof.
  assert (∀ d', String.length x ≤ String.length (Lib.uint_to d' x))%nat as H.
  { induction d'; cbn; lia. }
  destruct d as [|d|d|d|d|d|d|d|d|d|d]; [done|..]; intros _;
    pose proof (H d); cbn; lia.
Qed.

Lemma length_newline level x :
  (S (String.length x) ≤ String.length (Lib.newline_to level x))%nat.
Proof.
  unfold Lib.newline_to. cbn [String.length].
  induction (2 * level)%nat as [|n IH]; cbn; lia.
Qed.

Lemma length_dumps_bounded n :
  (∀ v level rest, (Lib.size v ≤ n)%nat →
     (Lib.size v + 2 * String.length rest
      ≤ 2 * String.length (Lib.dumps_to level v rest))%nat)
  ∧ (∀ l level rest, (Lib.elems_size l ≤ n)%nat →
       (Lib.elems_size l + 2 * String.length rest
        ≤ 2 * String.length (Lib.elems_to Lib.dumps_to level l rest))%nat)
  ∧ (∀ d level rest, (Lib.members_size d ≤ n)%nat →
       (Lib.members_size d + 2 * String.length rest
        ≤ 2 * String.length (Lib.members_to Lib.dumps_to level d rest))%nat).
Proof.
  induction n as [|n (IHv&IHl&IHd)].
  { split; [|split].
    - intros v level rest Hs. pose proof (size_positive v). lia.
    - intros [|x l] level rest Hs; [|cbn in Hs; lia].
      pose proof (length_newline level (String "]" rest)).
      rewrite elems_to_nil.
      cbn [Lib.elems_size fold_right String.length] in *. lia.
    - intros [|[k x] d] level rest Hs; [|cbn in Hs; lia].
      pose proof (length_newline level (String "}" rest)).
      rewrite members_to_nil.
      cbn [Lib.members_size fold_right String.length] in *. lia. }
  split; [|split].
  - intros v level rest Hs. destruct v as [|[]|z|s|l|d]; try (cbn; lia).
    + cbn [Lib.dumps_to Lib.size]. unfold Lib.decimal_to.
      pose proof (length_uint (N.to_uint (Z.abs_N z)) rest (to_uint_nonnil _)).
      destruct (z <? 0); cbn [String.length]; lia.
    + cbn [Lib.dumps_to Lib.size]. unfold Lib.quote_to.
      pose proof (length_escape s (String Lib.dquote rest)).
      cbn [String.length] in *. lia.
    + cbn in Hs. fold (Lib.elems_size l) in Hs.
      change (Lib.size (VList l)) with (S (Lib.elems_size l)).
      destruct l as [|x l]; [cbn; lia|].
      cbn [Lib.dumps_to String.length].
      pose proof (IHl (x :: l) level rest ltac:(lia)). lia.
    + cbn in Hs. fold (Lib.members_size d) in Hs.
      change (Lib.size (VDict d)) with (S (Lib.members_size d)).
      destruct d as [|kx d]; [cbn; lia|].
      cbn [Lib.dumps_to String.length].
      pose proof (IHd (kx :: d) level rest ltac:(lia)). lia.
  - intros [|x l] level rest Hs.
    { pose proof (length_newline level (String "]" rest)).
      rewrite elems_to_nil.
      cbn [Lib.elems_size fold_right String.length] in *. lia. }
    cbn in Hs. fold (Lib.elems_size l) in Hs.
    change (Lib.elems_size (x :: l)) with (S (Lib.size x + Lib.elems_size l)).
    rewrite elems_to_cons.
    pose proof (length_newline (S level)
                  (Lib.dumps_to (S level) x
                     match l with
                     | [] => Lib.elems_to Lib.dumps_to level l rest
                     | _ => String "," (Lib.elems_to Lib.dumps_to level l rest)
                     end)) as Hn.
    pose proof (IHv x (S level)
                  match l with
                  | [] => Lib.elems_to Lib.dumps_to level l rest
                  | _ => String "," (Lib.elems_to Lib.dumps_to level l rest)
                  end ltac:(lia)) as Hx.
    pose proof (IHl l level rest ltac:(lia)) as Hl.
    destruct l as [|y l]; cbn [String.length] in *; lia.
  - intros [|[k x] d] level rest Hs.
    { pose proof (length_newline level (String "}" rest)).
      rewrite members_to_nil.
      cbn [Lib.members_size fold_right String.length] in *. lia. }
    cbn in Hs. fold (Lib.members_size d) in Hs.
    change (Lib.members_size ((k, x) :: d))
      with (S (Lib.size x + Lib.members_size d)).
    rewrite members_to_cons. unfold Lib.quote_to.
    set (tail := match d with
                 | [] => Lib.members_to Lib.dumps_to level d rest
                 | _ => String "," (Lib.members_to Lib.dumps_to level d rest)
                 end).
    pose proof (length_newline (S level)
                  (String Lib.dquote
                     (Lib.escape_to k
                        (String Lib.dquote (String ":" (String " "
                           (Lib.dumps_to (S level) x tail))))))) as Hn.
    pose proof (length_escape k
                  (String Lib.dquote (String ":" (String " "
                     (Lib.dumps_to (S level) x tail))))) as He.
    pose proof (IHv x (S level) tail ltac:(lia)) as Hx.
    pose proof (IHd d level rest ltac:(lia)) as Hl.
    assert (String.length (Lib.members_to Lib.dumps_to level d rest)
            ≤ String.length tail)%nat as Ht.
    { unfold tail. destruct d; cbn [String.length]; lia. }
    fold tail. cbn [String.length] in *. lia.
Qed.

Lemma loads_dumps v : Lib.storable v = true → Lib.loads (Lib.dumps v) = Ok v.
Proof.
  unfold Lib.storable. intros [Hst Hk%Nat.leb_le]%andb_true_iff.
  unfold Lib.loads, Lib.dumps.
  destruct (length_dumps_bounded (Lib.size v)) as [Hlen _].
  specialize (Hlen v 0%nat "" ltac:(lia)).
  destruct (read_value_dumps_bounded
              (2 * String.length (Lib.dumps_to 0 v "") + 2)) as [Hread _].
  rewrite Hread; [done| |done..]. cbn [String.length] in Hlen. lia.
Qed.

(** [json.load] gives back the value [json.dump] wrote. *)
Lemma load_dumps v : Lib.storable v = true → Lib.load (Lib.dumps v) = Ok v.
Proof.
  intros Hst. unfold Lib.load.
  rewrite utf8_dumps, loads_dumps; [done..|].
  unfold Lib.storable in Hst. by apply andb_true_iff in Hst as [? _].
Qed.

(** C2: saving and then loading loses nothing.  For a store whose
    references are live, whose ids are integers and whose document is one
    Python can hold and encode ([Lib.storable]: strings that are text,
    dicts with distinct keys, integers and nesting within the limits of
    the interpreter), on a file that can be written: [save_tasks] returns,
    and a new instance built on the file it left loads without an error a
    store whose ordered task sequence, with every field of every task, is
    that of the store that was saved.  The round trip of the reference
    codec is [load_dumps], proved above for every such value. *)
Theorem save_then_load (s : state) :
  list_closed s → ids_are_integers s → writable s = true →
  Lib.storable (document s) = true →
  (save_tasks Lib.dumps s).1 = Ok tt
  ∧ ∀ s', file s' = file (save_tasks Lib.dumps s).2 → readable s' = true →
          (init Lib.load s').1 = Ok tt
          ∧ contents (init Lib.load s').2 = contents s.
Proof.
  intros Hc Hi Hw Hst.
  apply (save_load_wiring Lib.load Lib.dumps s Hc Hi Hw).
  by apply load_dumps.
Qed.

(** * The model at work

    The theorems above, applied to concrete stores with the reference
    library functions. *)

(** An empty store, then one task, then three. *)
Lemma list_tasks_sorted_witness :
  let s := added Lib.dumps "Call dentist" "中"
             (added Lib.dumps "Write report" "低"
                (added Lib.dumps "Buy milk" "高" (blank (demo_boot None [])))) in
  store_typed s
  ∧ shown s None = [1; 3; 2]%positive
  ∧ shown s (Some Low) = [2]%positive
  ∧ (list_tasks None s).1 = Ok tt.
Proof.
  intros s.
  assert (store_typed s) as Hs.
  { intros l Hl. vm_compute in Hl.
    repeat (apply elem_of_cons in Hl as [->|Hl]);
      [eexists; split; [vm_compute; reflexivity|reflexivity]..|].
    by apply elem_of_nil in Hl. }
  split; [exact Hs|]. split; [by vm_compute|]. split; [by vm_compute|].
  destruct (list_tasks_sorted None s Hs) as [H _]. exact (f_equal fst H).
Defined.

Lemma save_then_load_witness :
  let s := added Lib.dumps "Write report" "低"
             (added Lib.dumps "Buy milk" "高" (blank (demo_boot None []))) in
  Lib.storable (document s) = true
  ∧ (save_tasks Lib.dumps s).1 = Ok tt
  ∧ contents (init Lib.load (save_tasks Lib.dumps s).2).2 = contents s.
Proof.
  intros s.
  assert (list_closed s) as Hc.
  { intros l Hl. vm_compute in Hl.
    repeat (apply elem_of_cons in Hl as [->|Hl]); [by eexists..|].
    by apply elem_of_nil in Hl. }
  assert (ids_are_integers s) as Hi.
  { intros l Hl. vm_compute in Hl.
    repeat (apply elem_of_cons in Hl as [->|Hl]);
      [eexists _, _; split; [vm_compute; reflexivity|reflexivity]..|].
    by apply elem_of_nil in Hl. }
  assert (writable s = true) as Hw by reflexivity.
  assert (Lib.storable (document s) = true) as Hst by (vm_compute; reflexivity).
  destruct (save_then_load s Hc Hi Hw Hst) as [Hsave Hload].
  split; [exact Hst|]. split; [exact Hsave|].
  apply (Hload (save_tasks Lib.dumps s).2); reflexivity.
Defined.

Lemma views_consistent_after_operation_witness :
  let s := blank (demo_boot None []) in
  consistent s ∧ next_id_above s
  ∧ same_ids (exec Lib.dumps (Add "Buy milk" "高") s).2
  ∧ each_id_once (exec Lib.dumps (Add "Buy milk" "高") s).2.
Proof.
  intros s.
  pose proof (blank_consistent (demo_boot None [])) as Hs.
  pose proof (blank_next_id_above (demo_boot None [])) as Ha.
  split; [exact Hs|]. split; [exact Ha|].
  destruct (views_consistent_after_operation Lib.dumps (Add "Buy milk" "高") s Hs Ha)
    as (H1&H2&_).
  split; [exact H1|exact H2].
Defined.

Lemma ids_increase_witness :
  let s0 := demo_boot (Some (Lib.dumps (VList [VDict [("id", VInt 5)]]))) [] in
  (init Lib.load s0).1 = Ok tt
  ∧ next_id (init Lib.load s0).2 = 6
  ∧ (exec_all Lib.dumps [Add "a" "高"; Delete 6; Add "b" "低"] (init Lib.load s0).2).1
    = [VInt 6; VInt 7]
  ∧ next_id_above
      (exec_all Lib.dumps [Add "a" "高"; Delete 6; Add "b" "低"] (init Lib.load s0).2).2.
Proof.
  intros s0.
  assert ((init Lib.load s0).1 = Ok tt) as Hok by (vm_compute; reflexivity).
  split; [exact Hok|]. split; [vm_compute; reflexivity|].
  split; [vm_compute; reflexivity|].
  destruct (ids_increase Lib.load Lib.dumps s0
              [Add "a" "高"; Delete 6; Add "b" "低"] Hok) as (_&H&_).
  exact H.
Defined.

Lemma complete_task_marks_witness :
  let s := added Lib.dumps "Buy milk" "高" (blank (demo_boot None [])) in
  well_formed s
  ∧ by_id s 1 "completed" = Some (VBool false)
  ∧ by_id (complete_task Lib.dumps 1 s).2 1 "completed" = Some (VBool true)
  ∧ by_position (complete_task Lib.dumps 1 s).2 0 "completed" = Some (VBool true)
  ∧ complete_task Lib.dumps 2 s
    = (Ok tt, set_stdout (stdout s ++ [NotFoundMsg 2]) s).
Proof.
  intros s.
  assert (well_formed s) as Hw.
  { apply added_well_formed; [|apply blank_well_formed].
    apply (wf_closed _ (blank_well_formed _)). }
  split; [exact Hw|]. split; [vm_compute; reflexivity|].
  destruct (complete_task_marks Lib.dumps 1 s Hw) as [Hpresent _].
  destruct (complete_task_marks Lib.dumps 2 s Hw) as [_ Habsent].
  assert (tasks_dict s !! KInt 1 = Some 1%positive) as Hk by (vm_compute; reflexivity).
  assert (field s 1%positive "title" = Some (VStr "Buy milk")) as Ht
    by (vm_compute; reflexivity).
  destruct (Hpresent 1%positive (VStr "Buy milk") Hk Ht) as (_&H1&_&H2&_).
  split; [exact H1|]. split; [apply H2; vm_compute; reflexivity|].
  apply Habsent. vm_compute. reflexivity.
Defined.

Lemma delete_absent_changes_nothing_witness :
  let s := added Lib.dumps "Buy milk" "高" (blank (demo_boot None [])) in
  tasks_dict s !! KInt 9 = None
  ∧ tasks_list (delete_task Lib.dumps 9 s).2 = tasks_list s
  ∧ stdout (delete_task Lib.dumps 9 s).2 = stdout s ++ [NotFoundMsg 9].
Proof.
  intros s.
  assert (tasks_dict s !! KInt 9 = None) as Hk by (vm_compute; reflexivity).
  split; [exact Hk|].
  destruct (delete_absent_changes_nothing Lib.dumps 9 s Hk) as (_&H1&_&_&_&_&H2).
  split; [exact H1|exact H2].
Defined.

Lemma load_failure_is_caught_witness :
  let s0 := demo_boot (Some "{ not json") [] in
  let s1 := demo_boot (Some (String "255" "[]")) [] in
  Lib.load "{ not json" = Raise JSONDecodeError
  ∧ (init Lib.load s0).1 = Ok tt
  ∧ tasks_list (init Lib.load s0).2 = []
  ∧ stdout (init Lib.load s0).2 = [LoadFailedMsg JSONDecodeError]
  ∧ Lib.load (String "255" "[]") = Raise UnicodeDecodeError
  ∧ (init Lib.load s1).1 = Raise UnicodeDecodeError.
Proof.
  intros s0 s1.
  assert (Lib.load "{ not json" = Raise JSONDecodeError) as Hj
    by (vm_compute; reflexivity).
  assert (Lib.load (String "255" "[]") = Raise UnicodeDecodeError) as Hu
    by (vm_compute; reflexivity).
  destruct (load_failure_is_caught Lib.load s0 "{ not json" JSONDecodeError
              eq_refl (or_intror (conj eq_refl Hj))) as [Hcaught _].
  destruct (Hcaught (or_introl eq_refl)) as (H1&H2&_&_&_&H3).
  destruct (load_failure_is_caught Lib.load s1 (String "255" "[]")
              UnicodeDecodeError eq_refl (or_intror (conj eq_refl Hu)))
    as [_ Hpassed].
  destruct Hpassed as [H4 _]; [discriminate..|].
  split; [exact Hj|]. split; [exact H1|]. split; [exact H2|].
  split; [exact H3|]. split; [exact Hu|exact H4].
Defined.

(** A file that holds the JSON array [[1]]: [json.load] returns the list,
    the loop indexes the integer with ["id"], and the [TypeError] leaves
    the constructor, for it is neither of the two classes that
    [load_tasks] catches. *)
Lemma load_raises_on_valid_json :
  Lib.load "[1]" = Ok (VList [VInt 1])
  ∧ (init Lib.load (demo_boot (Some "[1]") [])).1 = Raise TypeError
  ∧ ¬ (∀ s0, (init Lib.load s0).1 = Ok tt).
Proof.
  split; [vm_compute; reflexivity|]. split; [vm_compute; reflexivity|].
  intros H. specialize (H (demo_boot (Some "[1]") [])). vm_compute in H.
  discriminate H.
Qed.

Lemma get_statistics_counts_witness :
  let s := (complete_task Lib.dumps 1
              (added Lib.dumps "Write report" "低"
                 (added Lib.dumps "Buy milk" "高" (blank (demo_boot None []))))).2 in
  (∀ l, l ∈ tasks_list s → is_Some (field s l "completed"))
  ∧ get_statistics s = (Ok (Stats 2 1 1 (NFloat 50%float)), s)
  ∧ Prim2SF 50%float = rate_spec 1 2.
Proof.
  intros s.
  assert (∀ l, l ∈ tasks_list s → is_Some (field s l "completed")) as Hc.
  { intros l Hl. vm_compute in Hl.
    repeat (apply elem_of_cons in Hl as [->|Hl]); [by eexists..|].
    by apply elem_of_nil in Hl. }
  split; [exact Hc|].
  destruct (get_statistics_counts s Hc) as (st&Heq&Ht&Hd&Hp&Hr&_&Hspec).
  assert (st = Stats 2 1 1 (NFloat 50%float)) as Hst.
  { clear Heq Hspec. destruct st as [t c p r].
    cbn [total completed pending completion_rate] in *. subst.
    vm_compute. reflexivity. }
  rewrite Hst in Heq, Hspec. split; [exact Heq|].
  cbn [total completed completion_rate] in Hspec.
  destruct Hspec as (rate&Hrate&Hsf); [lia|].
  injection Hrate as <-. exact Hsf.
Defined.



(** The second scenario of the listing: after the three tasks are added
    and the last of them is deleted, two are listed and their ids are what
    they were. *)
Lemma delete_then_list :
  let s := (delete_task Lib.dumps 3
              (added Lib.dumps "Call dentist" "中"
                 (added Lib.dumps "Write report" "低"
                    (added Lib.dumps "Buy milk" "高" (blank (demo_boot None [])))))).2 in
  shown s None = [1; 2]%positive
  ∧ omap (λ l, field s l "id") (shown s None) = [VInt 1; VInt 2]
  ∧ omap (λ l, field s l "title") (shown s None)
    = [VStr "Buy milk"; VStr "Write report"].
Proof. by vm_compute. Qed.

(** A filter that names one of the three ranks leaves a task of another
    priority out before the sort, so this listing returns where the
    listing without a filter raises. *)
Lemma filtered_listing_skips_other_priorities :
  let s := added Lib.dumps "Plan trip" "urgent"
             (added Lib.dumps "Buy milk" "高" (blank (demo_boot None []))) in
  (list_tasks (Some "高") s).1 = Ok tt
  ∧ (list_tasks None s).1 = Raise KeyError.
Proof. by vm_compute. Qed.

(** A whole session: three tasks, a listing, one completed, the
    statistics, the end. *)
Lemma session :
  let s := (main Lib.load Lib.dumps Lib.strip Lib.parse_int
              (demo_boot None ["1"; "Buy milk"; "高"; "1"; "Write report"; "低";
                               "1"; "Call dentist"; ""; "3"; "2"; "5"; "7"])) in
  s.1 = Ok tt
  ∧ omap (λ l, field s.2 l "title") (shown s.2 None)
    = [VStr "Buy milk"; VStr "Call dentist"; VStr "Write report"]
  ∧ by_id s.2 2 "completed" = Some (VBool true)
  ∧ next_id s.2 = 4
  ∧ last (stdout s.2) = Some ByeMsg.
Proof. by vm_compute. Qed.

(** ** More of the program, on concrete stores *)

Lemma add_task_appends_witness :
  let s := added Lib.dumps "Buy milk" "高" (blank (demo_boot None [])) in
  list_closed s
  ∧ ∃ task,
      (add_task Lib.dumps "Write report" "低" s).1 = Ok task
      ∧ tasks_list (add_task Lib.dumps "Write report" "低" s).2
        = tasks_list s ++ [task]
      ∧ next_id (add_task Lib.dumps "Write report" "低" s).2 = next_id s + 1.
Proof.
  intros s.
  assert (list_closed s) as Hc.
  { apply added_list_closed, (wf_closed _ (blank_well_formed _)). }
  split; [exact Hc|].
  destruct (add_task_appends Lib.dumps "Write report" "低" s Hc)
    as (task&H1&_&H2&_&_&H3&_).
  exists task. split; [exact H1|]. split; [exact H2|exact H3].
Defined.

Lemma find_after_add_witness :
  let s := blank (demo_boot None []) in
  list_closed s
  ∧ ∃ task,
      (add_task Lib.dumps "Buy milk" "高" s).1 = Ok task
      ∧ (find_task_by_id (next_id s) (add_task Lib.dumps "Buy milk" "高" s).2).1
        = Ok (Some task)
      ∧ by_id (add_task Lib.dumps "Buy milk" "高" s).2 (next_id s) "title"
        = Some (VStr "Buy milk").
Proof.
  intros s.
  pose proof (wf_closed _ (blank_well_formed (demo_boot None []))) as Hc.
  split; [exact Hc|].
  destruct (find_after_add Lib.dumps "Buy milk" "高" s Hc)
    as (task&H1&H2&_&H3&_).
  exists task. split; [exact H1|]. split; [exact H2|exact H3].
Defined.

Lemma add_task_does_not_validate_witness :
  let s := added Lib.dumps "Buy milk" "高" (blank (demo_boot None [])) in
  list_closed s ∧ priorities_text s ∧ is_priority "urgent" = false
  ∧ (list_tasks None (add_task Lib.dumps "Plan trip" "urgent" s).2).1
    = Raise KeyError.
Proof.
  intros s.
  assert (list_closed s) as Hc.
  { apply added_list_closed, (wf_closed _ (blank_well_formed _)). }
  assert (priorities_text s) as Ht.
  { intros l Hl. vm_compute in Hl.
    repeat (apply elem_of_cons in Hl as [->|Hl]);
      [eexists; vm_compute; reflexivity..|].
    by apply elem_of_nil in Hl. }
  assert (is_priority "urgent" = false) as Hp by (vm_compute; reflexivity).
  split; [exact Hc|]. split; [exact Ht|]. split; [exact Hp|].
  destruct (add_task_does_not_validate Lib.dumps "Plan trip" "urgent" s Hc Ht Hp)
    as (_&H&_).
  exact H.
Defined.

Lemma delete_task_removes_id_witness :
  let s := added Lib.dumps "Buy milk" "高" (blank (demo_boot None [])) in
  well_formed s
  ∧ (delete_task Lib.dumps 1 s).1 = Ok tt
  ∧ tasks_dict (delete_task Lib.dumps 1 s).2 !! KInt 1 = None
  ∧ (find_task_by_id 1 (delete_task Lib.dumps 1 s).2).1 = Ok None.
Proof.
  intros s.
  assert (well_formed s) as Hw.
  { apply added_well_formed; [|apply blank_well_formed].
    apply (wf_closed _ (blank_well_formed _)). }
  assert ((delete_task Lib.dumps 1 s).1 = Ok tt) as Hok
    by (vm_compute; reflexivity).
  split; [exact Hw|]. split; [exact Hok|].
  destruct (delete_task_removes_id Lib.dumps 1 s Hw Hok) as (H1&H2&_).
  split; [exact H1|exact H2].
Defined.

Lemma delete_task_keeps_the_rest_witness :
  let s := added Lib.dumps "Write report" "低"
             (added Lib.dumps "Buy milk" "高" (blank (demo_boot None []))) in
  consistent s
  ∧ tasks_dict s !! KInt 1 = Some 1%positive
  ∧ field s 1%positive "title" = Some (VStr "Buy milk")
  ∧ (delete_task Lib.dumps 1 s).1 = Ok tt
  ∧ S (length (tasks_list (delete_task Lib.dumps 1 s).2)) = length (tasks_list s)
  ∧ tasks_dict (delete_task Lib.dumps 1 s).2 !! KInt 1 = None
  ∧ stdout (delete_task Lib.dumps 1 s).2
    = stdout s ++ [DeletedMsg (VStr "Buy milk");
                   if writable s then SavedMsg else SaveFailedMsg IOError].
Proof.
  intros s.
  assert (consistent s) as Hs.
  { apply added_consistent.
    - apply added_list_closed, (wf_closed _ (blank_well_formed _)).
    - apply added_consistent;
        [apply (wf_closed _ (blank_well_formed _))|apply blank_consistent
        |apply blank_next_id_above].
    - apply added_next_id_above;
        [apply (wf_closed _ (blank_well_formed _))|apply blank_next_id_above]. }
  assert (tasks_dict s !! KInt 1 = Some 1%positive) as Hk
    by (vm_compute; reflexivity).
  assert (field s 1%positive "title" = Some (VStr "Buy milk")) as Ht
    by (vm_compute; reflexivity).
  split; [exact Hs|]. split; [exact Hk|]. split; [exact Ht|].
  destruct (delete_task_keeps_the_rest Lib.dumps 1 1%positive (VStr "Buy milk")
              s Hs Hk Ht) as (H1&_&H2&_&_&H3&_&H4).
  split; [exact H1|]. split; [exact H2|]. split; [exact H3|exact H4].
Defined.

Lemma delete_task_untitled_changes_nothing_witness :
  let s := (init Lib.load
              (demo_boot (Some (Lib.dumps (VList [VDict [("id", VInt 1)]]))) [])).2 in
  tasks_dict s !! KInt 1 = Some 1%positive
  ∧ field s 1%positive "title" = None
  ∧ delete_task Lib.dumps 1 s = (Raise KeyError, s).
Proof.
  intros s.
  assert (tasks_dict s !! KInt 1 = Some 1%positive) as Hk
    by (vm_compute; reflexivity).
  assert (is_Some (heap s !! 1%positive)) as Hh
    by (eexists; vm_compute; reflexivity).
  assert (field s 1%positive "title" = None) as Ht by (vm_compute; reflexivity).
  split; [exact Hk|]. split; [exact Ht|].
  exact (delete_task_untitled_changes_nothing Lib.dumps 1 1%positive s Hk Hh Ht).
Defined.

Lemma complete_task_touches_one_field_witness :
  let s := added Lib.dumps "Buy milk" "高" (blank (demo_boot None [])) in
  well_formed s
  ∧ tasks_dict s !! KInt 1 = Some 1%positive
  ∧ field (complete_task Lib.dumps 1 s).2 1%positive "completed"
    = Some (VBool true)
  ∧ field (complete_task Lib.dumps 1 s).2 1%positive "title"
    = field s 1%positive "title"
  ∧ tasks_list (complete_task Lib.dumps 1 s).2 = tasks_list s.
Proof.
  intros s.
  assert (well_formed s) as Hw.
  { apply added_well_formed; [|apply blank_well_formed].
    apply (wf_closed _ (blank_well_formed _)). }
  assert (tasks_dict s !! KInt 1 = Some 1%positive) as Hk
    by (vm_compute; reflexivity).
  split; [exact Hw|]. split; [exact Hk|].
  destruct (complete_task_touches_one_field Lib.dumps 1 1%positive s Hw Hk)
    as (H1&H2&H3&_).
  split; [exact H1|]. split; [|exact H3].
  apply H2. intros H. discriminate H.
Defined.

Lemma complete_task_untitled_raises_after_saving_witness :
  let s := (init Lib.load
              (demo_boot (Some (Lib.dumps (VList [VDict [("id", VInt 1)]]))) [])).2 in
  well_formed s
  ∧ tasks_dict s !! KInt 1 = Some 1%positive
  ∧ field s 1%positive "title" = None
  ∧ (complete_task Lib.dumps 1 s).1 = Raise KeyError
  ∧ by_id (complete_task Lib.dumps 1 s).2 1 "completed" = Some (VBool true)
  ∧ in_sync Lib.dumps (complete_task Lib.dumps 1 s).2.
Proof.
  intros s.
  assert (well_formed s) as Hw.
  { apply init_establishes. vm_compute. reflexivity. }
  assert (tasks_dict s !! KInt 1 = Some 1%positive) as Hk
    by (vm_compute; reflexivity).
  assert (field s 1%positive "title" = None) as Ht by (vm_compute; reflexivity).
  split; [exact Hw|]. split; [exact Hk|]. split; [exact Ht|].
  destruct (complete_task_untitled_raises_after_saving Lib.dumps 1 1%positive
              s Hw Hk Ht) as (H1&H2&H3&_).
  split; [exact H1|]. split; [exact H2|]. apply H3. reflexivity.
Defined.

Lemma save_failure_is_reported_witness :
  let s := State [] ∅ 1 ∅ (Some "[]") true false [] [] (λ _, "09:00") 0 in
  writable s = false ∧ list_closed s
  ∧ save_tasks Lib.dumps s
    = (Ok tt, set_stdout (stdout s ++ [SaveFailedMsg IOError]) s)
  ∧ ∃ task,
      (add_task Lib.dumps "Buy milk" "高" s).1 = Ok task
      ∧ tasks_list (add_task Lib.dumps "Buy milk" "高" s).2 = tasks_list s ++ [task]
      ∧ file (add_task Lib.dumps "Buy milk" "高" s).2 = file s.
Proof.
  intros s.
  assert (writable s = false) as Hw by reflexivity.
  assert (list_closed s) as Hc.
  { intros l Hl. by apply elem_of_nil in Hl. }
  split; [exact Hw|]. split; [exact Hc|].
  destruct (save_failure_is_reported Lib.dumps s Hw) as [H1 H2].
  split; [exact H1|].
  destruct (H2 Hc "Buy milk" "高") as (task&H3&H4&_&H5&_).
  exists task. split; [exact H3|]. split; [exact H4|exact H5].
Defined.

Lemma file_follows_the_store_witness :
  let s := added Lib.dumps "Buy milk" "高" (blank (demo_boot None [])) in
  well_formed s ∧ writable s = true ∧ in_sync Lib.dumps s
  ∧ in_sync Lib.dumps (exec Lib.dumps (Complete 1) s).2
  ∧ in_sync Lib.dumps (exec Lib.dumps (Add "Write report" "低") s).2.
Proof.
  intros s.
  assert (well_formed s) as Hw.
  { apply added_well_formed; [|apply blank_well_formed].
    apply (wf_closed _ (blank_well_formed _)). }
  assert (writable s = true) as Hwr by reflexivity.
  assert (in_sync Lib.dumps s) as Hs by (vm_compute; reflexivity).
  split; [exact Hw|]. split; [exact Hwr|]. split; [exact Hs|].
  destruct (file_follows_the_store Lib.dumps (Complete 1) s Hw Hwr) as [H1 _].
  destruct (file_follows_the_store Lib.dumps (Add "Write report" "低") s Hw Hwr)
    as [_ H2].
  split; [exact (H1 Hs)|exact (H2 _ _ eq_refl)].
Defined.

Lemma add_after_failed_load_overwrites_witness :
  let s0 := demo_boot (Some "{ not json") [] in
  Lib.load "{ not json" = Raise JSONDecodeError
  ∧ (init Lib.load s0).1 = Ok tt
  ∧ ∃ task d,
      (add_task Lib.dumps "Buy milk" "高" (init Lib.load s0).2).1 = Ok task
      ∧ file (add_task Lib.dumps "Buy milk" "高" (init Lib.load s0).2).2
        = Some (Lib.dumps (VList [VDict d]))
      ∧ dict_get d "id" = Some (VInt 1)
      ∧ dict_get d "title" = Some (VStr "Buy milk")
      ∧ dict_get d "priority" = Some (VStr "高").
Proof.
  intros s0.
  assert (Lib.load "{ not json" = Raise JSONDecodeError) as Hj
    by (vm_compute; reflexivity).
  split; [exact Hj|].
  destruct (add_after_failed_load_overwrites Lib.load Lib.dumps s0 "{ not json"
              "Buy milk" "高" JSONDecodeError eq_refl
              (or_intror (conj eq_refl (conj Hj (or_introl eq_refl)))) eq_refl)
    as (H1&_&H2).
  split; [exact H1|exact H2].
Defined.

Lemma load_sets_next_id_after_largest_witness :
  let s0 := demo_boot
              (Some (Lib.dumps (VList [VDict [("id", VInt 5)];
                                       VDict [("id", VInt 2)]]))) [] in
  (init Lib.load s0).1 = Ok tt
  ∧ tasks_list (init Lib.load s0).2 ≠ []
  ∧ next_id (init Lib.load s0).2 = 6
  ∧ (∃ l v, l ∈ tasks_list (init Lib.load s0).2
            ∧ field (init Lib.load s0).2 l "id" = Some v
            ∧ as_int v = Some (next_id (init Lib.load s0).2 - 1))
  ∧ (∀ l v z, l ∈ tasks_list (init Lib.load s0).2 →
              field (init Lib.load s0).2 l "id" = Some v → as_int v = Some z →
              z ≤ next_id (init Lib.load s0).2 - 1).
Proof.
  intros s0.
  assert ((init Lib.load s0).1 = Ok tt) as Hok by (vm_compute; reflexivity).
  assert (tasks_list (init Lib.load s0).2 ≠ []) as Hne.
  { intros H. vm_compute in H. discriminate H. }
  split; [exact Hok|]. split; [exact Hne|]. split; [vm_compute; reflexivity|].
  exact (load_sets_next_id_after_largest Lib.load s0 Hok Hne).
Defined.

Lemma load_indexes_last_of_each_id_witness :
  let s0 := demo_boot
              (Some (Lib.dumps
                       (VList [VDict [("id", VInt 1); ("title", VStr "a")];
                               VDict [("id", VInt 1); ("title", VStr "b")]]))) [] in
  (init Lib.load s0).1 = Ok tt
  ∧ length (tasks_list (init Lib.load s0).2) = 2%nat
  ∧ tasks_dict (init Lib.load s0).2 !! KInt 1
    = last (carrying (init Lib.load s0).2 (KInt 1))
  ∧ same_ids (init Lib.load s0).2.
Proof.
  intros s0.
  assert ((init Lib.load s0).1 = Ok tt) as Hok by (vm_compute; reflexivity).
  split; [exact Hok|]. split; [vm_compute; reflexivity|].
  destruct (load_indexes_last_of_each_id Lib.load s0 Hok) as [H1 H2].
  split; [exact (H1 (KInt 1))|exact H2].
Defined.

Lemma sort_by_priority_returns_sorted_copy_witness :
  let s := added Lib.dumps "Call dentist" "中"
             (added Lib.dumps "Write report" "低"
                (added Lib.dumps "Buy milk" "高" (blank (demo_boot None [])))) in
  store_typed s
  ∧ (sort_by_priority s).2 = s
  ∧ ∃ ls, (sort_by_priority s).1 = Ok ls ∧ ls ≡ₚ tasks_list s.
Proof.
  intros s.
  assert (store_typed s) as Hs.
  { intros l Hl. vm_compute in Hl.
    repeat (apply elem_of_cons in Hl as [->|Hl]);
      [eexists; split; [vm_compute; reflexivity|reflexivity]..|].
    by apply elem_of_nil in Hl. }
  split; [exact Hs|].
  destruct (sort_by_priority_returns_sorted_copy s) as [H1 H2].
  split; [exact H1|]. destruct (H2 Hs) as (ls&H3&H4&_).
  exists ls. split; [exact H3|exact H4].
Defined.

Lemma get_statistics_needs_every_flag_witness :
  let s := (init Lib.load
              (demo_boot (Some (Lib.dumps (VList [VDict [("id", VInt 1)]]))) [])).2 in
  list_closed s
  ∧ field s 1%positive "completed" = None
  ∧ (get_statistics s).1 = Raise KeyError.
Proof.
  intros s.
  assert (list_closed s) as Hc.
  { apply wf_closed, init_establishes. vm_compute. reflexivity. }
  assert (field s 1%positive "completed" = None) as Hf
    by (vm_compute; reflexivity).
  assert (tasks_list s = [1%positive]) as Hl by (vm_compute; reflexivity).
  split; [exact Hc|]. split; [exact Hf|].
  destruct (get_statistics_needs_every_flag s) as [_ H].
  apply H; [exact Hc|]. exists 1%positive. split; [|exact Hf].
  rewrite Hl. apply elem_of_cons. by left.
Defined.

Lemma list_tasks_filter_edges_witness :
  let s := added Lib.dumps "Write report" "低"
             (added Lib.dumps "Buy milk" "高" (blank (demo_boot None []))) in
  store_typed s ∧ is_priority "urgent" = false
  ∧ list_tasks (Some "") s = list_tasks None s
  ∧ list_tasks (Some "urgent") s
    = (Ok tt, set_stdout (stdout s ++ [ListHeader; ListFooter]) s).
Proof.
  intros s.
  assert (store_typed s) as Hs.
  { intros l Hl. vm_compute in Hl.
    repeat (apply elem_of_cons in Hl as [->|Hl]);
      [eexists; split; [vm_compute; reflexivity|reflexivity]..|].
    by apply elem_of_nil in Hl. }
  assert (is_priority "urgent" = false) as Hp by (vm_compute; reflexivity).
  split; [exact Hs|]. split; [exact Hp|].
  destruct (list_tasks_filter_edges "" s) as [H1 _].
  destruct (list_tasks_filter_edges "urgent" s) as [_ H2].
  split; [exact (H1 eq_refl)|].
  apply H2; [intros H; discriminate H|exact Hp|exact Hs|].
  intros H. vm_compute in H. discriminate H.
Defined.

Lemma add_then_delete_restores_views_witness :
  let s := added Lib.dumps "Buy milk" "高" (blank (demo_boot None [])) in
  consistent s ∧ next_id_above s
  ∧ tasks_list (delete_task Lib.dumps (next_id s)
                  (add_task Lib.dumps "Write report" "低" s).2).2
    = tasks_list s
  ∧ next_id (delete_task Lib.dumps (next_id s)
               (add_task Lib.dumps "Write report" "低" s).2).2
    = next_id s + 1.
Proof.
  intros s.
  assert (consistent s) as Hs.
  { apply added_consistent;
      [apply (wf_closed _ (blank_well_formed _))|apply blank_consistent
      |apply blank_next_id_above]. }
  assert (next_id_above s) as Ha.
  { apply added_next_id_above;
      [apply (wf_closed _ (blank_well_formed _))|apply blank_next_id_above]. }
  split; [exact Hs|]. split; [exact Ha|].
  destruct (add_then_delete_restores_views Lib.dumps "Write report" "低" s Hs Ha)
    as (_&H1&_&_&H2).
  split; [exact H1|exact H2].
Defined.

Lemma menu_rejects_bad_priority_witness :
  let s := blank (demo_boot None ["1"; "Plan trip"; "urgent"; "7"]) in
  is_priority (Lib.strip "urgent") = false
  ∧ iteration Lib.dumps Lib.strip Lib.parse_int s
    = (Ok true,
       set_stdin ["7"] (set_stdout (stdout s ++ [MenuMsg; BadPriorityMsg]) s)).
Proof.
  intros s.
  assert (is_priority (Lib.strip "urgent") = false) as Hp
    by (vm_compute; reflexivity).
  split; [exact Hp|].
  apply (menu_rejects_bad_priority Lib.dumps Lib.strip Lib.parse_int s
           "1" "Plan trip" "urgent" ["7"]);
    [reflexivity|vm_compute; reflexivity
    |intros H; vm_compute in H; discriminate H
    |intros H; vm_compute in H; discriminate H|exact Hp].
Defined.

Lemma menu_add_strips_and_defaults_witness :
  let s := blank (demo_boot None ["1"; "  Buy milk "; ""]) in
  Lib.strip "  Buy milk " = "Buy milk"
  ∧ iteration Lib.dumps Lib.strip Lib.parse_int s
    = (Ok true,
       added Lib.dumps (Lib.strip "  Buy milk ")
             (if String.eqb (Lib.strip "") "" then "中" else Lib.strip "")
             (set_stdin [] (set_stdout (stdout s ++ [MenuMsg]) s))).
Proof.
  intros s. split; [vm_compute; reflexivity|].
  apply (menu_add_strips_and_defaults Lib.dumps Lib.strip Lib.parse_int s
           "1" "  Buy milk " "" []);
    [apply (wf_closed _ (blank_well_formed _))|reflexivity
    |vm_compute; reflexivity|intros H; vm_compute in H; discriminate H
    |vm_compute; reflexivity].
Defined.

Lemma menu_bad_id_changes_nothing_witness :
  let s := added Lib.dumps "Buy milk" "高" (blank (demo_boot None ["3"; "abc"])) in
  store_typed s ∧ Lib.parse_int (Lib.strip "abc") = None
  ∧ iteration Lib.dumps Lib.strip Lib.parse_int s
    = (Ok true,
       set_stdin []
         (set_stdout
            (stdout s
             ++ MenuMsg
                :: match tasks_list s with
                   | [] => [NoTasksMsg]
                   | _ => ListHeader
                          :: map RowMsg (omap (row_of s) (shown s None))
                          ++ [ListFooter]
                   end
                ++ [BadIdMsg]) s)).
Proof.
  intros s.
  assert (store_typed s) as Hs.
  { intros l Hl. vm_compute in Hl.
    repeat (apply elem_of_cons in Hl as [->|Hl]);
      [eexists; split; [vm_compute; reflexivity|reflexivity]..|].
    by apply elem_of_nil in Hl. }
  assert (Lib.parse_int (Lib.strip "abc") = None) as Hx
    by (vm_compute; reflexivity).
  split; [exact Hs|]. split; [exact Hx|].
  apply (menu_bad_id_changes_nothing Lib.dumps Lib.strip Lib.parse_int s
           "3" "abc" []);
    [exact Hs|reflexivity|left; vm_compute; reflexivity|exact Hx].
Defined.

Lemma menu_quit_leaves_input_unread_witness :
  let s := blank (demo_boot None ["7"; "1"; "Buy milk"]) in
  loop Lib.dumps Lib.strip Lib.parse_int 1 s
  = (Ok tt,
     set_stdin ["1"; "Buy milk"]
       (set_stdout (stdout s ++ [MenuMsg; ByeMsg]) s)).
Proof.
  intros s.
  apply (menu_quit_leaves_input_unread Lib.dumps Lib.strip Lib.parse_int s
           "7" ["1"; "Buy milk"] 0);
    [reflexivity|vm_compute; reflexivity].
Defined.

Lemma menu_unknown_choice_goes_on_witness :
  let s := blank (demo_boot None ["9"; "7"]) in
  is_choice (Lib.strip "9") = false
  ∧ iteration Lib.dumps Lib.strip Lib.parse_int s
    = (Ok true,
       set_stdin ["7"] (set_stdout (stdout s ++ [MenuMsg; BadChoiceMsg]) s)).
Proof.
  intros s.
  assert (is_choice (Lib.strip "9") = false) as Hc by (vm_compute; reflexivity).
  split; [exact Hc|].
  apply (menu_unknown_choice_goes_on Lib.dumps Lib.strip Lib.parse_int s
           "9" ["7"]); [reflexivity|exact Hc].
Defined.

Lemma menu_stops_at_end_of_input_witness :
  let s := added Lib.dumps "Buy milk" "高" (blank (demo_boot None [])) in
  loop Lib.dumps Lib.strip Lib.parse_int 1 s
  = (Raise EOFError, set_stdout (stdout s ++ [MenuMsg]) s).
Proof.
  intros s.
  apply (menu_stops_at_end_of_input Lib.dumps Lib.strip Lib.parse_int s 0).
  reflexivity.
Defined.

Lemma run_returns_only_after_quit_witness :
  let s := blank (demo_boot None ["2"; "5"; "7"]) in
  (run Lib.dumps Lib.strip Lib.parse_int s).1 = Ok tt
  ∧ last (stdout (run Lib.dumps Lib.strip Lib.parse_int s).2) = Some ByeMsg.
Proof.
  intros s.
  assert ((run Lib.dumps Lib.strip Lib.parse_int s).1 = Ok tt) as Hok
    by (vm_compute; reflexivity).
  split; [exact Hok|].
  exact (run_returns_only_after_quit Lib.dumps Lib.strip Lib.parse_int s Hok).
Defined.

Lemma run_keeps_views_consistent_witness :
  let s := demo_boot None ["1"; "Buy milk"; "高"; "4"; "1"; "7"] in
  consistent (main Lib.load Lib.dumps Lib.strip Lib.parse_int s).2
  ∧ next_id_above (main Lib.load Lib.dumps Lib.strip Lib.parse_int s).2
  ∧ consistent (run Lib.dumps Lib.strip Lib.parse_int (blank s)).2.
Proof.
  intros s.
  destruct (run_keeps_views_consistent Lib.load Lib.dumps Lib.strip
              Lib.parse_int s) as [_ H1].
  destruct (run_keeps_views_consistent Lib.load Lib.dumps Lib.strip
              Lib.parse_int (blank s)) as [H2 _].
  destruct (H1 eq_refl) as [Ha Hb].
  destruct (H2 (blank_consistent s) (blank_next_id_above s)) as [Hc _].
  split; [exact Ha|]. split; [exact Hb|exact Hc].
Defined.


Lemma listing_order_is_determined_witness :
  let s := added Lib.dumps "Call dentist" "中"
             (added Lib.dumps "Write report" "低"
                (added Lib.dumps "Buy milk" "高" (blank (demo_boot None [])))) in
  store_typed s
  ∧ selected s None = [1; 2; 3]%positive
  ∧ list_tasks None s
    = (Ok tt,
       set_stdout (stdout s ++ ListHeader
                     :: map RowMsg (omap (row_of s) [1; 3; 2]%positive)
                     ++ [ListFooter]) s)
  ∧ sort_by_priority s = (Ok [1; 3; 2]%positive, s).
Proof.
  intros s.
  assert (store_typed s) as Hs.
  { intros l Hl. vm_compute in Hl.
    repeat (apply elem_of_cons in Hl as [->|Hl]);
      [eexists; split; [vm_compute; reflexivity|reflexivity]..|].
    by apply elem_of_nil in Hl. }
  assert (selected s None = [1; 2; 3]%positive) as Hsel
    by (vm_compute; reflexivity).
  split; [exact Hs|]. split; [exact Hsel|].
  destruct (listing_order_is_determined None s [1; 3; 2]%positive Hs) as [H1 H2].
  - intros H. vm_compute in H. discriminate H.
  - rewrite Hsel. apply perm_skip, perm_swap.
  - repeat constructor; vm_compute; intros H; discriminate H.
  - intros p. destruct p; vm_compute; reflexivity.
  - split; [exact H1|exact (H2 eq_refl)].
Defined.
